(** * The IRC session handler of dispatch (server/irc_handler.go)

    A shallow embedding of the per-connection IRC handler: the run loop,
    [dispatchMessage], the registered handlers and the DCC offer and
    progress paths, with the session buffers (whois, motd, channel list)
    as explicit state and every call to a collaborator (event sink,
    storage, IRC client, logger) recorded in an effect trace. *)

From Stdlib Require Import ZArith String Ascii SpecFloat DecimalString.
From stdpp Require Import base option list strings gmap.

Local Open Scope string_scope.

(** ** The Go library functions the handler calls *)

Module strings.

Definition contains_byte (chars : string) (c : ascii) : bool :=
  existsb (Ascii.eqb c) (list_ascii_of_string chars).

Fixpoint index_any_from (i : Z) (s chars : string) : Z :=
  match s with
  | EmptyString => (-1)%Z
  | String c s' =>
      if contains_byte chars c then i else index_any_from (i + 1)%Z s' chars
  end.

(** [strings.IndexAny]: the index of the first byte of [s] that occurs in
    [chars], or -1.  Every call in the handler passes ASCII [chars], for
    which the byte index and Go's code-point scan coincide. *)
Definition IndexAny (s chars : string) : Z := index_any_from 0 s chars.

(** [strings.HasPrefix] *)
Definition HasPrefix (s pre : string) : bool := String.prefix pre s.

Fixpoint trim_left (cutset : string) (l : list ascii) : list ascii :=
  match l with
  | c :: l' => if contains_byte cutset c then trim_left cutset l' else l
  | [] => []
  end.

(** [strings.TrimRight]: drops every trailing byte that is in [cutset]. *)
Definition TrimRight (s cutset : string) : string :=
  string_of_list_ascii
    (rev (trim_left cutset (rev (list_ascii_of_string s)))).

(** Scanner behind [Split]: [skip] counts the bytes of a separator that
    was just matched and are still to be passed over; [cur] is the piece
    being read, in reverse. *)
Fixpoint split_from (skip : nat) (cur : list ascii) (s sep : string)
  : list string :=
  match s with
  | EmptyString => [string_of_list_ascii (rev cur)]
  | String c s' =>
      match skip with
      | S k => split_from k cur s' sep
      | O =>
          if String.prefix sep s
          then string_of_list_ascii (rev cur)
                 :: split_from (String.length sep - 1) [] s' sep
          else split_from 0 (c :: cur) s' sep
      end
  end.

(** [strings.Split] for a non-empty separator. *)
Definition Split (s sep : string) : list string := split_from 0 [] s sep.

(** [strings.Join] *)
Fixpoint Join (elems : list string) (sep : string) : string :=
  match elems with
  | [] => ""
  | [e] => e
  | e :: rest => e ++ sep ++ Join rest sep
  end.

(** [strings.HasSuffix]: [len(s) >= len(suffix)] and the last
    [len(suffix)] bytes of [s] are [suffix]. *)
Definition HasSuffix (s suffix : string) : bool :=
  (String.length suffix <=? String.length s)%nat
  && String.eqb
       (String.substring (String.length s - String.length suffix)
          (String.length suffix) s)
       suffix.

(** [strings.TrimSuffix]: [s] without the trailing [suffix], once. *)
Definition TrimSuffix (s suffix : string) : string :=
  if HasSuffix s suffix
  then String.substring 0 (String.length s - String.length suffix) s
  else s.

(** [strings.Contains]: [substr] occurs in [s] at some position. *)
Fixpoint Contains (s substr : string) : bool :=
  String.prefix substr s
  || match s with
     | EmptyString => false
     | String _ s' => Contains s' substr
     end.

End strings.

Module strconv.

Definition digit_of (c : ascii) : option Z :=
  let n := Z.of_nat (nat_of_ascii c) in
  if ((48 <=? n) && (n <=? 57))%Z then Some (n - 48)%Z else None.

Fixpoint digits (acc : Z) (s : string) : option Z :=
  match s with
  | EmptyString => Some acc
  | String c s' =>
      match digit_of c with
      | Some d => digits (10 * acc + d)%Z s'
      | None => None
      end
  end.

Definition maxInt : Z := (2 ^ 63 - 1)%Z.
Definition minInt : Z := (- 2 ^ 63)%Z.

(** [strconv.Atoi] on a 64-bit platform, as a value and an error flag:
    a syntax error gives 0, a value out of range gives the nearest
    bound. *)
Definition Atoi (s : string) : Z * bool :=
  let '(neg, body) :=
    match s with
    | String "-" r => (true, r)
    | String "+" r => (false, r)
    | _ => (false, s)
    end in
  match body with
  | EmptyString => (0%Z, true)
  | _ =>
      match digits 0 body with
      | None => (0%Z, true)
      | Some n =>
          let v := if neg then (- n)%Z else n in
          if (maxInt <? v)%Z then (maxInt, true)
          else if (v <? minInt)%Z then (minInt, true)
          else (v, false)
      end
  end.

(** [strconv.Itoa] *)
Definition Itoa (n : Z) : string :=
  DecimalString.NilZero.string_of_int (Z.to_int n).

End strconv.

(** ** float64 and package fmt *)

Module float64.

(** A float64 is an IEEE 754 binary64 value: precision 53, exponents
    below 1024. *)
Definition t := spec_float.
Definition prec : Z := 53.
Definition emax : Z := 1024.

Definition of_Z (n : Z) : t := binary_normalize prec emax n 0 false.
(** Go's [==] on float64 *)
Definition eqb (x y : t) : bool := SFeqb x y.

Definition is_finite (x : t) : bool :=
  match x with
  | S754_zero _ | S754_finite _ _ _ => true
  | _ => false
  end.

(** The representations that are float64 values: a mantissa of 53 bits,
    or fewer at the least exponent, and an exponent in range. *)
Definition valid (x : t) : bool := valid_binary prec emax x.

End float64.

(** The operands the handler passes to [fmt.Sprintf] and [fmt.Sprint]. *)
Inductive Arg :=
| AStr (s : string)          (* a string operand *)
| AErr (text : string)       (* an error operand, printed through Error() *)
| AF64 (x : float64.t).      (* a float64 operand *)

Module fmt.

Definition decimal (n : N) : string :=
  DecimalString.NilZero.string_of_uint (N.to_uint n).

(** The number of tenths nearest to [m * 2^e], ties to even. *)
Definition tenths (m : positive) (e : Z) : N :=
  let num := (10 * Z.pos m)%Z in
  if (0 <=? e)%Z then Z.to_N (num * 2 ^ e)
  else
    let den := (2 ^ (- e))%Z in
    let q := (num / den)%Z in
    let r := (num mod den)%Z in
    let up :=
      match (2 * r ?= den)%Z with
      | Gt => true
      | Eq => Z.odd q
      | Lt => false
      end in
    Z.to_N (if up then q + 1 else q)%Z.

Definition fixed1 (neg : bool) (q : N) : string :=
  (if neg then "-" else "")
    ++ decimal (q / 10) ++ "." ++ decimal (q mod 10).

(** [fmt.Sprintf("%.1f", x)]: correctly rounded to one digit after the
    point; NaN and the infinities print as words. *)
Definition f1 (x : float64.t) : string :=
  match x with
  | S754_nan => "NaN"
  | S754_infinity false => "+Inf"
  | S754_infinity true => "-Inf"
  | S754_zero s => fixed1 s 0
  | S754_finite s m e => fixed1 s (tenths m e)
  end.

(** The verbs on the operands the handler gives them; a verb on an
    operand of the wrong kind prints Go's bad-verb marker, shortened. *)
Definition verb_s (a : Arg) : string :=
  match a with
  | AStr s | AErr s => s
  | AF64 _ => "%!s(float64)"
  end.

Definition verb_f1 (a : Arg) : string :=
  match a with
  | AF64 x => f1 x
  | AStr _ | AErr _ => "%!f(string)"
  end.

(** [fmt.Sprintf] for the verbs that occur in the handler's formats:
    [%s], [%.1f] and [%%]. *)
Fixpoint Sprintf (format : string) (a : list Arg) : string :=
  match format with
  | String "%" (String "s" rest) =>
      match a with
      | x :: a' => verb_s x ++ Sprintf rest a'
      | [] => "%!s(MISSING)" ++ Sprintf rest a
      end
  | String "%" (String "." (String "1" (String "f" rest))) =>
      match a with
      | x :: a' => verb_f1 x ++ Sprintf rest a'
      | [] => "%!f(MISSING)" ++ Sprintf rest a
      end
  | String "%" (String "%" rest) => "%" ++ Sprintf rest a
  | String c rest => String c (Sprintf rest a)
  | EmptyString => ""
  end.

Definition is_string (a : Arg) : bool :=
  match a with AStr _ => true | _ => false end.

(** The default format of an operand.  The handler gives [Sprint] strings
    and errors only; the default format of a float64 is not modelled. *)
Definition operand (a : Arg) : string :=
  match a with
  | AStr s | AErr s => s
  | AF64 _ => "%!v(float64)"
  end.

(** [fmt.Sprint]: operands in their default format, a space between two
    operands when neither is a string. *)
Fixpoint Sprint (a : list Arg) : string :=
  match a with
  | [] => ""
  | [x] => operand x
  | x :: ((y :: _) as rest) =>
      operand x
        ++ (if is_string x || is_string y then "" else " ")
        ++ Sprint rest
  end.

End fmt.

(** ** Package irc: what the handler uses of it *)

Module irc.

(** Modelled from the spec: the command identifiers are declared in
    package irc, whose source is not part of this development ("numeric
    reply: IRC server response identified by a 3-digit code, whose
    leading digit class (e.g., 4xx) denotes an error").  They take the
    values the IRC protocol assigns to these names. *)
Definition NICK := "NICK".
Definition JOIN := "JOIN".
Definition PART := "PART".
Definition MODE := "MODE".
Definition PRIVMSG := "PRIVMSG".
Definition NOTICE := "NOTICE".
Definition QUIT := "QUIT".
Definition TOPIC := "TOPIC".
Definition ERROR := "ERROR".
Definition RPL_WELCOME := "001".
Definition RPL_YOURHOST := "002".
Definition RPL_CREATED := "003".
Definition RPL_ISUPPORT := "005".
Definition RPL_LUSERCLIENT := "251".
Definition RPL_LUSEROP := "252".
Definition RPL_LUSERUNKNOWN := "253".
Definition RPL_LUSERCHANNELS := "254".
Definition RPL_LUSERME := "255".
Definition RPL_WHOISUSER := "311".
Definition RPL_WHOISSERVER := "312".
Definition RPL_ENDOFWHOIS := "318".
Definition RPL_WHOISCHANNELS := "319".
Definition RPL_LIST := "322".
Definition RPL_LISTEND := "323".
Definition RPL_NOTOPIC := "331".
Definition RPL_TOPIC := "332".
Definition RPL_ENDOFNAMES := "366".
Definition RPL_MOTD := "372".
Definition RPL_MOTDSTART := "375".
Definition RPL_ENDOFMOTD := "376".
Definition ERR_ERRONEUSNICKNAME := "432".
Definition ERR_NICKNAMEINUSE := "433".
Definition ERR_NICKCOLLISION := "436".
Definition ERR_UNAVAILRESOURCE := "437".
Definition ERR_FORWARD := "470".

(** A parsed protocol message: "command identifier + ordered parameter
    list + sender". *)
Record Message := mkMessage {
  Sender : string;
  Command : string;
  Params : list string;
}.

(** Modelled from the spec: [Message.LastParam] is the accessor for the
    "last parameter" of a message; a message without parameters has the
    empty string there. *)
Definition LastParam (msg : Message) : string := default "" (last (Params msg)).

Record CTCP := mkCTCP {
  ctcp_Command : string;
  ctcp_Params : string;
}.

Record DCCSend := mkDCCSend {
  File : string;
  IP : string;
  Port : string;
  Length : Z;
}.

Record DownloadProgress := mkProgress {
  dp_File : string;
  dp_Error : option string;
  dp_PercCompletion : float64.t;
  dp_Speed : string;
  dp_BytesRemaining : string;
  dp_SecondsToGo : float64.t;
}.

Record ConnectionState := mkConnectionState {
  Connected : bool;
  Error : option string;
}.

(** The parsed mode change returned by [irc.GetMode]; the handler passes
    it on without looking inside. *)
Record Mode := mkMode { mode_text : string }.

End irc.

(** ** Package storage: the values handed to it *)

Module storage.

Record Message := mkMessage {
  ID : string;
  Server : string;
  From : string;
  To : string;
  Content : string;
}.

Record Channel := mkChannel {
  ch_Server : string;
  ch_Name : string;
}.

Record ChannelListItem := mkItem {
  Name : string;
  UserCount : Z;
  Topic : string;
}.

(** Modelled from the spec: the channel list index is "an abstract index
    type (capability: add(item), finish())"; its implementation is not
    part of this development.  The model keeps the items in arrival
    order and remembers whether [Finish] ran. *)
Record ChannelListIndex := mkIndex {
  items : list ChannelListItem;
  finished : bool;
}.

Definition NewMapChannelListIndex : ChannelListIndex := mkIndex [] false.
Definition Add (idx : ChannelListIndex) (it : ChannelListItem) :=
  mkIndex (items idx ++ [it]) (finished idx).
Definition Finish (idx : ChannelListIndex) := mkIndex (items idx) true.

(** [storage.Server], of which the handler reads the name and host *)
Record ServerEntry := mkServer {
  srv_Name : string;
  srv_Host : string;
}.

End storage.

(** ** Package server: the event payloads *)

Module Nick.
Record t := mk { Server : string; Old : string; New : string }.
End Nick.

Module Join.
Record t := mk { Server : string; User : string; Channels : list string }.
End Join.

Module Part.
Record t := mk { Server : string; User : string; Channel : string; Reason : string }.
End Part.

Module Message.
Record t := mk {
  ID : string; Server : string; From : string; To : string; Content : string
}.
End Message.

Module Quit.
Record t := mk { Server : string; User : string; Reason : string }.
End Quit.

Module Features.
Record t := mk { Server : string; Features : list (string * string) }.
End Features.

Module WhoisReply.
Record t := mk {
  Nick : string; Username : string; Host : string; Realname : string;
  Server : string; Channels : list string
}.
(** [WhoisReply{}] *)
Definition zero : t := mk "" "" "" "" "" [].
End WhoisReply.

Module Topic.
Record t := mk { Server : string; Channel : string; Topic : string; Nick : string }.
End Topic.

Module Userlist.
Record t := mk { Server : string; Channel : string; Users : list string }.
End Userlist.

Module MOTD.
Record t := mk { Server : string; Title : string; Content : list string }.
(** [MOTD{}] *)
Definition zero : t := mk "" "" [].
End MOTD.

Module NickFail.
Record t := mk { Server : string }.
End NickFail.

Module ChannelForward.
Record t := mk { Server : string; Old : string; New : string }.
End ChannelForward.

Module IRCError.
Record t := mk { Server : string; Target : string; Message : string }.
End IRCError.

Module DCCSend.
Record t := mk { Server : string; From : string; Filename : string; URL : string }.
End DCCSend.

Inductive Payload :=
| PNick (p : Nick.t)
| PJoin (p : Join.t)
| PPart (p : Part.t)
| PMode (p : irc.Mode)
| PMessage (p : Message.t)
| PQuit (p : Quit.t)
| PFeatures (p : Features.t)
| PWhois (p : WhoisReply.t)
| PTopic (p : Topic.t)
| PUsers (p : Userlist.t)
| PMOTD (p : MOTD.t)
| PNickFail (p : NickFail.t)
| PForward (p : ChannelForward.t)
| PError (p : IRCError.t)
| PDCCSend (p : DCCSend.t)
| PConnectionUpdate (host : string) (state : irc.ConnectionState).

(** ** Effects: every call the handler makes to a collaborator *)

(** Bodies of the goroutines that touch shared tables. *)
Inductive Goroutine :=
| PublishIndex (host : string) (idx : storage.ChannelListIndex)
| ReceiveDCCSend (pack : irc.DCCSend) (msg : irc.Message)
| NameServer (name : string).

Inductive Call :=
| sendJSON (name : string) (p : Payload)
| sendLastMessages (host channel : string) (count : Z)
| setConnectionState (host : string) (state : irc.ConnectionState)
| deleteIRC (host : string)
| SetNick (nick host : string)
| LogEvent (host kind : string) (actors channels : list string)
| AddChannel (c : storage.Channel)
| RemoveChannel (host channel : string)
| AddOpenDM (host nick : string)
| LogMessage (m : storage.Message)
| SetServerName (name host : string)
| client_Topic (channel : string)
| client_List
| Println (args : list string)
| OpenFile (path : string)
| CloseFile (path : string)
| DownloadDCC (pack : irc.DCCSend)
| Sleep (nanoseconds : Z).

Inductive Effect :=
| Do (c : Call)          (* an ordinary call *)
| Go (c : Call)          (* [go f(...)]: started, not awaited *)
| Spawn (g : Goroutine). (* [go] of a function that touches shared state *)

(** ** The environment of one step *)

(** What the collaborators answer while one input is handled: the IRC
    client the handler wraps, the parsing helpers of package irc, the
    configuration and the identity of the user. *)
Record Env := mkEnv {
  Host : string;                                  (* i.client.Host() *)
  Is : string -> bool;                            (* i.client.Is(nick) *)
  FeaturesMap : list (string * string);           (* i.client.Features.Map() *)
  FeaturesString : string -> string;              (* i.client.Features.String(k) *)
  ToCTCP : irc.Message -> option irc.CTCP;        (* msg.ToCTCP() *)
  IsFromServer : irc.Message -> bool;             (* msg.IsFromServer() *)
  ParseDCCSend : irc.CTCP -> option irc.DCCSend;  (* irc.ParseDCCSend *)
  GetMode : irc.Message -> option irc.Mode;       (* irc.GetMode *)
  GetNickChannels : irc.Message -> list string;
  GetQuitChannels : irc.Message -> list string;
  GetNamreplyUsers : irc.Message -> list string;
  Username : string;                              (* i.state.user.Username *)
  UserID : string;                                (* i.state.user.ID, printed *)
  DCC_Enabled : bool;                             (* cfg.DCC.Enabled *)
  DCC_Autoget_Enabled : bool;                     (* cfg.DCC.Autoget.Enabled *)
  DownloadedFile : string -> string -> string;    (* storage.Path.DownloadedFile *)
  OpenFileFails : string -> bool;                 (* os.OpenFile returned an error *)
  GetServer : string -> option storage.ServerEntry; (* i.state.user.GetServer *)
  NewGuid : nat -> string;                        (* betterguid.New(), by call number *)
}.

(** ** The state the handler reads and writes *)

Inductive Value := VBool (b : bool) | VString (s : string).

(** Modelled from the spec: the channel-list cache is "process-wide ...
    keyed by connection host"; [Get] answers with the cached index and
    whether "the channel-list cache is stale or absent".  Its source is
    not part of this development. *)
Record CacheEntry := mkEntry {
  entry_index : storage.ChannelListIndex;
  entry_stale : bool;
}.

Record ircHandler := mkHandler {
  whois : WhoisReply.t;
  motdBuffer : MOTD.t;
  listBuffer : option storage.ChannelListIndex;     (* None is nil *)
  (* i.state: the session's key/value store and pending offers *)
  stateVars : gmap string Value;
  pendingDCC : gmap string irc.DCCSend;
  (* package level *)
  channelIndexes : gmap string CacheEntry;
  guids : nat;                                      (* calls to betterguid.New so far *)
}.

Definition set_whois (w : WhoisReply.t) (h : ircHandler) : ircHandler :=
  mkHandler w (motdBuffer h) (listBuffer h) (stateVars h) (pendingDCC h)
            (channelIndexes h) (guids h).
Definition set_motdBuffer (m : MOTD.t) (h : ircHandler) : ircHandler :=
  mkHandler (whois h) m (listBuffer h) (stateVars h) (pendingDCC h)
            (channelIndexes h) (guids h).
Definition set_listBuffer (l : option storage.ChannelListIndex) (h : ircHandler) :=
  mkHandler (whois h) (motdBuffer h) l (stateVars h) (pendingDCC h)
            (channelIndexes h) (guids h).
Definition set_stateVars (v : gmap string Value) (h : ircHandler) :=
  mkHandler (whois h) (motdBuffer h) (listBuffer h) v (pendingDCC h)
            (channelIndexes h) (guids h).
Definition set_pendingDCC (p : gmap string irc.DCCSend) (h : ircHandler) :=
  mkHandler (whois h) (motdBuffer h) (listBuffer h) (stateVars h) p
            (channelIndexes h) (guids h).
Definition set_channelIndexes (c : gmap string CacheEntry) (h : ircHandler) :=
  mkHandler (whois h) (motdBuffer h) (listBuffer h) (stateVars h) (pendingDCC h)
            c (guids h).
Definition set_guids (n : nat) (h : ircHandler) :=
  mkHandler (whois h) (motdBuffer h) (listBuffer h) (stateVars h) (pendingDCC h)
            (channelIndexes h) n.

(** [newIRCHandler] with empty shared tables *)
Definition newIRCHandler : ircHandler :=
  mkHandler WhoisReply.zero MOTD.zero None ∅ ∅ ∅ 0.

(** ** A monad for handler bodies: state, effect trace, Go panics *)

Record Result (A : Type) := mkResult {
  value : option A;          (* None: the body panicked *)
  final : ircHandler;        (* the state it left behind *)
  trace : list Effect;       (* what it called, in order *)
}.
Arguments mkResult {A}.
Arguments value {A}.
Arguments final {A}.
Arguments trace {A}.

Definition M (A : Type) : Type := ircHandler -> Result A.

Definition ret {A} (a : A) : M A := fun h => mkResult (Some a) h [].

Definition bind {A B} (m : M A) (k : A -> M B) : M B := fun h =>
  match m h with
  | mkResult None h1 t1 => mkResult None h1 t1
  | mkResult (Some a) h1 t1 =>
      match k a h1 with
      | mkResult v h2 t2 => mkResult v h2 (t1 ++ t2)
      end
  end.

Notation "x <- m ;; k" := (bind m (fun x => k))
  (at level 63, m at next level, right associativity).
Notation "m ;;; k" := (bind m (fun _ => k))
  (at level 63, right associativity).

Definition panic {A} : M A := fun h => mkResult None h [].
Definition emit (e : Effect) : M unit := fun h => mkResult (Some tt) h [e].
Definition get : M ircHandler := fun h => mkResult (Some h) h [].
Definition modify (f : ircHandler -> ircHandler) : M unit :=
  fun h => mkResult (Some tt) (f h) [].
Definition when (b : bool) (m : M unit) : M unit := if b then m else ret tt.

(** [l[i]]: panics when [i] is out of range *)
Definition index (l : list string) (i : nat) : M string :=
  match l !! i with
  | Some x => ret x
  | None => panic
  end.

(** [l[i:]]: panics when [i] exceeds the length *)
Definition slice_from (l : list string) (i : nat) : M (list string) :=
  if (i <=? length l)%nat then ret (drop i l) else panic.

(** [s[0]] on a string *)
Definition first_byte (s : string) : M ascii :=
  match s with
  | String c _ => ret c
  | EmptyString => panic
  end.

(** ** The handler *)

Definition excludedErrors : list string :=
  [irc.ERR_NICKNAMEINUSE; irc.ERR_NICKCOLLISION;
   irc.ERR_UNAVAILRESOURCE; irc.ERR_FORWARD].

Definition isChannel (s : string) : bool :=
  (strings.IndexAny s "&#+!" =? 0)%Z.

Fixpoint isExcludedError_in (errs : list string) (cmd : string) : bool :=
  match errs with
  | [] => false
  | err :: errs' => if String.eqb cmd err then true else isExcludedError_in errs' cmd
  end.

Definition isExcludedError (cmd : string) : bool :=
  isExcludedError_in excludedErrors cmd.

(** Modelled from the spec: the session's key/value store behind
    [i.state.Bool], [i.state.String] and [i.state.Set] (the "refresh
    requested" flag and the "string fields used to build download URLs");
    its source is not part of this development.  A key that is missing or
    holds the other kind reads as the zero value. *)
Definition state_Bool (k : string) (h : ircHandler) : bool :=
  match stateVars h !! k with
  | Some (VBool b) => b
  | _ => false
  end.

Definition state_String (k : string) (h : ircHandler) : string :=
  match stateVars h !! k with
  | Some (VString s) => s
  | _ => ""
  end.

Definition state_Set (k : string) (v : Value) : M unit :=
  modify (fun h => set_stateVars (<[k := v]> (stateVars h)) h).

(** Modelled from the spec: "record a PendingDCCOffer keyed by file name"
    and "remove the pending offer"; the table's source is not part of this
    development. *)
Definition setPendingDCC (file : string) (pack : irc.DCCSend) : M unit :=
  modify (fun h => set_pendingDCC (<[file := pack]> (pendingDCC h)) h).

Definition deletePendingDCC (file : string) : M unit :=
  modify (fun h => set_pendingDCC (delete file (pendingDCC h)) h).

(** [channelIndexes.Get]: the second result, true when the host has no
    cached index or a stale one. *)
Definition channelIndexes_needsUpdate (host : string) (h : ircHandler) : bool :=
  match channelIndexes h !! host with
  | Some e => entry_stale e
  | None => true
  end.

(** [channelIndexes.Set] *)
Definition channelIndexes_Set (host : string) (idx : storage.ChannelListIndex)
  : M unit :=
  modify (fun h =>
    set_channelIndexes (<[host := mkEntry idx false]> (channelIndexes h)) h).

Definition updateChanlistKey (host : string) : string :=
  "update_chanlist_" ++ host.

(** The methods of [ircHandler]. *)
Module Handler.

Section Handlers.

Context (env : Env).

Local Abbreviation host := (Host env).

Definition send (name : string) (p : Payload) : M unit :=
  emit (Do (sendJSON name p)).

Definition nick (msg : irc.Message) : M unit :=
  send "nick" (PNick (Nick.mk host (irc.Sender msg) (irc.LastParam msg))) ;;;
  when (Is env (irc.LastParam msg))
    (emit (Go (SetNick (irc.LastParam msg) host))) ;;;
  emit (Go (LogEvent host "nick" [irc.Sender msg; irc.LastParam msg]
              (GetNickChannels env msg))).

Definition join (msg : irc.Message) : M unit :=
  send "join" (PJoin (Join.mk host (irc.Sender msg) (irc.Params msg))) ;;;
  channel <- index (irc.Params msg) 0 ;;
  when (Is env (irc.Sender msg))
    (emit (Do (client_Topic channel)) ;;;
     emit (Do (sendLastMessages host channel 50)) ;;;
     emit (Go (AddChannel (storage.mkChannel host channel)))) ;;;
  emit (Go (LogEvent host "join" [irc.Sender msg] [channel])).

Definition part (msg : irc.Message) : M unit :=
  channel <- index (irc.Params msg) 0 ;;
  reason <- (if (length (irc.Params msg) =? 2)%nat
             then index (irc.Params msg) 1 else ret "") ;;
  send "part" (PPart (Part.mk host (irc.Sender msg) channel reason)) ;;;
  when (Is env (irc.Sender msg)) (emit (Go (RemoveChannel host channel))) ;;;
  emit (Go (LogEvent host "part" [irc.Sender msg] [channel])).

Definition mode (msg : irc.Message) : M unit :=
  match GetMode env msg with
  | Some m => send "mode" (PMode m)
  | None => ret tt
  end.

(** The part of [message] after the CTCP filter. *)
Definition deliver (msg : irc.Message) : M unit :=
  h <- get ;;
  let id := NewGuid env (guids h) in
  modify (set_guids (S (guids h))) ;;;
  let message := Message.mk id host (irc.Sender msg) "" (irc.LastParam msg) in
  target <- index (irc.Params msg) 0 ;;
  target <- (if Is env target then
               send "pm" (PMessage message) ;;;
               when (negb (IsFromServer env msg))
                 (emit (Do (AddOpenDM host (Message.From message)))) ;;;
               ret (Message.From message)
             else
               send "message"
                 (PMessage (Message.mk id host (irc.Sender msg) target
                              (irc.LastParam msg))) ;;;
               ret target) ;;
  when (negb (String.eqb target "*") && negb (IsFromServer env msg))
    (emit (Go (LogMessage
                 (storage.mkMessage (Message.ID message) (Message.Server message)
                    (Message.From message) target (Message.Content message))))).

Definition message (msg : irc.Message) : M unit :=
  match ToCTCP env msg with
  | Some ctcp =>
      if String.eqb (irc.ctcp_Command ctcp) "DCC"
         && strings.HasPrefix (irc.ctcp_Params ctcp) "SEND"
      then
        match ParseDCCSend env ctcp with
        | Some pack => emit (Spawn (ReceiveDCCSend pack msg))
        | None => deliver msg
        end
      else if negb (String.eqb (irc.ctcp_Command ctcp) "ACTION")
      then ret tt
      else deliver msg
  | None => deliver msg
  end.

Definition quit (msg : irc.Message) : M unit :=
  send "quit" (PQuit (Quit.mk host (irc.Sender msg) (irc.LastParam msg))) ;;;
  emit (Go (LogEvent host "quit" [irc.Sender msg; irc.LastParam msg]
              (GetQuitChannels env msg))).

Definition info (msg : irc.Message) : M unit :=
  when (String.eqb (irc.Command msg) irc.RPL_WELCOME)
    (new <- index (irc.Params msg) 0 ;;
     send "nick" (PNick (Nick.mk host "" new)) ;;;
     h <- get ;;
     when (channelIndexes_needsUpdate host h)
       (modify (set_listBuffer (Some storage.NewMapChannelListIndex)) ;;;
        emit (Do client_List)) ;;;
     new <- index (irc.Params msg) 0 ;;
     emit (Go (SetNick new host))) ;;;
  rest <- slice_from (irc.Params msg) 1 ;;
  send "pm" (PMessage (Message.mk "" host (irc.Sender msg) ""
                         (strings.Join rest " "))).

Definition features (msg : irc.Message) : M unit :=
  send "features" (PFeatures (Features.mk host (FeaturesMap env))) ;;;
  let name := FeaturesString env "NETWORK" in
  when (negb (String.eqb name "")) (emit (Spawn (NameServer name))).

Definition whoisUser (msg : irc.Message) : M unit :=
  p <- index (irc.Params msg) 1 ;;
  modify (fun h => let w := whois h in
    set_whois (WhoisReply.mk p (WhoisReply.Username w) (WhoisReply.Host w)
                 (WhoisReply.Realname w) (WhoisReply.Server w)
                 (WhoisReply.Channels w)) h) ;;;
  p <- index (irc.Params msg) 2 ;;
  modify (fun h => let w := whois h in
    set_whois (WhoisReply.mk (WhoisReply.Nick w) p (WhoisReply.Host w)
                 (WhoisReply.Realname w) (WhoisReply.Server w)
                 (WhoisReply.Channels w)) h) ;;;
  p <- index (irc.Params msg) 3 ;;
  modify (fun h => let w := whois h in
    set_whois (WhoisReply.mk (WhoisReply.Nick w) (WhoisReply.Username w) p
                 (WhoisReply.Realname w) (WhoisReply.Server w)
                 (WhoisReply.Channels w)) h) ;;;
  p <- index (irc.Params msg) 5 ;;
  modify (fun h => let w := whois h in
    set_whois (WhoisReply.mk (WhoisReply.Nick w) (WhoisReply.Username w)
                 (WhoisReply.Host w) p (WhoisReply.Server w)
                 (WhoisReply.Channels w)) h).

Definition whoisServer (msg : irc.Message) : M unit :=
  p <- index (irc.Params msg) 2 ;;
  modify (fun h => let w := whois h in
    set_whois (WhoisReply.mk (WhoisReply.Nick w) (WhoisReply.Username w)
                 (WhoisReply.Host w) (WhoisReply.Realname w) p
                 (WhoisReply.Channels w)) h).

Definition whoisChannels (msg : irc.Message) : M unit :=
  modify (fun h => let w := whois h in
    set_whois (WhoisReply.mk (WhoisReply.Nick w) (WhoisReply.Username w)
                 (WhoisReply.Host w) (WhoisReply.Realname w)
                 (WhoisReply.Server w)
                 (WhoisReply.Channels w
                    ++ strings.Split
                         (strings.TrimRight (irc.LastParam msg) " ") " ")) h).

Definition whoisEnd (msg : irc.Message) : M unit :=
  h <- get ;;
  when (negb (String.eqb (WhoisReply.Nick (whois h)) ""))
    (send "whois" (PWhois (whois h))) ;;;
  modify (set_whois WhoisReply.zero).

Definition topic (msg : irc.Message) : M unit :=
  cn <- (if String.eqb (irc.Command msg) irc.TOPIC then
           channel <- index (irc.Params msg) 0 ;;
           emit (Go (LogEvent host "topic"
                       [irc.Sender msg; irc.LastParam msg] [channel])) ;;;
           ret (channel, irc.Sender msg)
         else
           channel <- index (irc.Params msg) 1 ;;
           ret (channel, "")) ;;
  send "topic" (PTopic (Topic.mk host (fst cn) (irc.LastParam msg) (snd cn))).

Definition noTopic (msg : irc.Message) : M unit :=
  channel <- index (irc.Params msg) 1 ;;
  send "topic" (PTopic (Topic.mk host channel "" "")).

Definition namesEnd (msg : irc.Message) : M unit :=
  channel <- index (irc.Params msg) 1 ;;
  send "users" (PUsers (Userlist.mk host channel (GetNamreplyUsers env msg))).

Definition motdStart (msg : irc.Message) : M unit :=
  modify (fun h => set_motdBuffer
    (MOTD.mk host (MOTD.Title (motdBuffer h)) (MOTD.Content (motdBuffer h))) h) ;;;
  modify (fun h => set_motdBuffer
    (MOTD.mk (MOTD.Server (motdBuffer h)) (irc.LastParam msg)
       (MOTD.Content (motdBuffer h))) h).

Definition motd (msg : irc.Message) : M unit :=
  modify (fun h => set_motdBuffer
    (MOTD.mk (MOTD.Server (motdBuffer h)) (MOTD.Title (motdBuffer h))
       (MOTD.Content (motdBuffer h) ++ [irc.LastParam msg])) h).

Definition motdEnd (msg : irc.Message) : M unit :=
  h <- get ;;
  send "motd" (PMOTD (motdBuffer h)) ;;;
  modify (set_motdBuffer MOTD.zero).

Definition list (msg : irc.Message) : M unit :=
  h <- get ;;
  when (bool_decide (listBuffer h = None)
        && state_Bool (updateChanlistKey host) h)
    (modify (set_listBuffer (Some storage.NewMapChannelListIndex))) ;;;
  h <- get ;;
  match listBuffer h with
  | Some idx =>
      count <- index (irc.Params msg) 2 ;;
      let userCount := fst (strconv.Atoi count) in
      name <- index (irc.Params msg) 1 ;;
      modify (set_listBuffer
                (Some (storage.Add idx
                         (storage.mkItem name userCount (irc.LastParam msg)))))
  | None => ret tt
  end.

Definition listEnd (msg : irc.Message) : M unit :=
  h <- get ;;
  match listBuffer h with
  | Some idx =>
      state_Set (updateChanlistKey host) (VBool false) ;;;
      emit (Spawn (PublishIndex host idx)) ;;;
      modify (set_listBuffer None)
  | None => ret tt
  end.

Definition badNick (msg : irc.Message) : M unit :=
  send "nick_fail" (PNickFail (NickFail.mk host)).

Definition forward (msg : irc.Message) : M unit :=
  if (2 <? length (irc.Params msg))%nat then
    old <- index (irc.Params msg) 1 ;;
    new <- index (irc.Params msg) 2 ;;
    send "channel_forward" (PForward (ChannelForward.mk host old new))
  else ret tt.

Definition error (msg : irc.Message) : M unit :=
  send "error" (PError (IRCError.mk host "" (irc.LastParam msg))).

End Handlers.

Section Dispatch.

Context (env : Env).

Local Abbreviation host := (Host env).

(** [initHandlers] *)
Definition handlerTable : Datatypes.list (string * (irc.Message -> M unit)) :=
  [ (irc.NICK, nick env);
    (irc.JOIN, join env);
    (irc.PART, part env);
    (irc.MODE, mode env);
    (irc.PRIVMSG, message env);
    (irc.NOTICE, message env);
    (irc.QUIT, quit env);
    (irc.TOPIC, topic env);
    (irc.ERROR, error env);
    (irc.RPL_WELCOME, info env);
    (irc.RPL_YOURHOST, info env);
    (irc.RPL_CREATED, info env);
    (irc.RPL_ISUPPORT, features env);
    (irc.RPL_LUSERCLIENT, info env);
    (irc.RPL_LUSEROP, info env);
    (irc.RPL_LUSERUNKNOWN, info env);
    (irc.RPL_LUSERCHANNELS, info env);
    (irc.RPL_LUSERME, info env);
    (irc.RPL_WHOISUSER, whoisUser);
    (irc.RPL_WHOISSERVER, whoisServer);
    (irc.RPL_WHOISCHANNELS, whoisChannels);
    (irc.RPL_ENDOFWHOIS, whoisEnd);
    (irc.RPL_NOTOPIC, noTopic env);
    (irc.RPL_TOPIC, topic env);
    (irc.RPL_ENDOFNAMES, namesEnd env);
    (irc.RPL_MOTDSTART, motdStart env);
    (irc.RPL_MOTD, motd);
    (irc.RPL_ENDOFMOTD, motdEnd);
    (irc.RPL_LIST, list env);
    (irc.RPL_LISTEND, listEnd env);
    (irc.ERR_ERRONEUSNICKNAME, badNick env);
    (irc.ERR_FORWARD, forward env) ].

Definition handlers : gmap string (irc.Message -> M unit) :=
  list_to_map handlerTable.

(** The loop of [dispatchMessage] over [msg.Params[i]], [i] from 1: the
    first channel-shaped parameter replaces [target] and ends the loop. *)
Fixpoint firstChannel (params : Datatypes.list string) (target : string) : string :=
  match params with
  | [] => target
  | p :: params' => if isChannel p then p else firstChannel params' target
  end.

Definition dispatchMessage (msg : irc.Message) : M unit :=
  c <- first_byte (irc.Command msg) ;;
  when (Ascii.eqb c "4" && negb (isExcludedError (irc.Command msg)))
    (let target :=
       if (2 <? length (irc.Params msg))%nat
       then firstChannel (drop 1 (irc.Params msg)) ""
       else "" in
     send "error" (PError (IRCError.mk host target (irc.LastParam msg)))) ;;;
  match handlers !! irc.Command msg with
  | Some handler => handler msg
  | None => ret tt
  end.

(** [i.log(v...)] *)
Definition log (v : Datatypes.list Arg) : M unit :=
  emit (Do (Println ["[IRC]"; UserID env; host; fmt.Sprint v])).

Definition sendDCCInfo (format : string) (logged : bool) (a : Datatypes.list Arg)
  : M unit :=
  let msg := Message.mk "" host "@dcc" "" (fmt.Sprintf format a) in
  send "pm" (PMessage msg) ;;;
  when logged
    (emit (Do (AddOpenDM (Message.Server msg) (Message.From msg))) ;;;
     emit (Do (LogMessage
                 (storage.mkMessage "" (Message.Server msg) (Message.From msg) ""
                    (Message.Content msg))))).

(** [150 * time.Second], in nanoseconds *)
Definition offerLifetime : Z := 150 * 1000000000.

(** [receiveDCCSend] up to the sleep: the offer is recorded and shown. *)
Definition offerDCC (pack : irc.DCCSend) (msg : irc.Message) : M unit :=
  setPendingDCC (irc.File pack) pack ;;;
  h <- get ;;
  send "dcc_send"
    (PDCCSend (DCCSend.mk host (irc.Sender msg) (irc.File pack)
       (fmt.Sprintf "%s://%s/downloads/%s/%s"
          [AStr (state_String "scheme" h); AStr (state_String "host" h);
           AStr (Username env); AStr (irc.File pack)]))).

(** [receiveDCCSend] after the sleep. *)
Definition expireDCC (pack : irc.DCCSend) : M unit :=
  deletePendingDCC (irc.File pack).

Definition receiveDCCSend (pack : irc.DCCSend) (msg : irc.Message) : M unit :=
  if DCC_Enabled env then
    if DCC_Autoget_Enabled env then
      let path := DownloadedFile env (Username env) (irc.File pack) in
      emit (Do (OpenFile path)) ;;;
      if OpenFileFails env path then ret tt
      else
        emit (Do (DownloadDCC pack)) ;;;
        emit (Do (CloseFile path))    (* defer file.Close() *)
    else
      offerDCC pack msg ;;;
      emit (Do (Sleep offerLifetime)) ;;;
      expireDCC pack
  else ret tt.

(** The [dccProgress] case of [run]. *)
Definition progressed (progress : irc.DownloadProgress) : M unit :=
  match irc.dp_Error progress with
  | Some err =>
      sendDCCInfo "%s: Download failed (%s)" true
        [AStr (irc.dp_File progress); AErr err]
  | None =>
      if float64.eqb (irc.dp_PercCompletion progress) (float64.of_Z 100) then
        h <- get ;;
        sendDCCInfo "Download finished, get it here: %s://%s/downloads/%s/%s" true
          [AStr (state_String "scheme" h); AStr (state_String "host" h);
           AStr (Username env); AStr (irc.dp_File progress)]
      else if float64.eqb (irc.dp_PercCompletion progress) (float64.of_Z 0) then
        sendDCCInfo "%s: Starting download" true [AStr (irc.dp_File progress)]
      else
        sendDCCInfo "%s: %.1f%%, %s, %s remaining, %.1fs left" false
          [AStr (irc.dp_File progress); AF64 (irc.dp_PercCompletion progress);
           AStr (irc.dp_Speed progress); AStr (irc.dp_BytesRemaining progress);
           AF64 (irc.dp_SecondsToGo progress)]
  end.

(** The [ConnectionChanged] case of [run]; the result is the new value
    of [lastConnErr]. *)
Definition connectionChanged (lastConnErr : option string)
    (state : irc.ConnectionState) : M (option string) :=
  send "connection_update" (PConnectionUpdate host state) ;;;
  emit (Do (setConnectionState host state)) ;;;
  match irc.Error state with
  | Some e =>
      if match lastConnErr with
         | None => true
         | Some l => negb (String.eqb e l)
         end
      then log [AStr "Connection error:"; AErr e] ;;; ret (Some e)
      else if irc.Connected state
           then log [AStr "Connected"] ;;; ret lastConnErr
           else ret lastConnErr
  | None =>
      if irc.Connected state
      then log [AStr "Connected"] ;;; ret lastConnErr
      else ret lastConnErr
  end.

(** The body of a goroutine that touches the shared tables. *)
Definition runGoroutine (g : Goroutine) : M unit :=
  match g with
  | PublishIndex h idx => channelIndexes_Set h (storage.Finish idx)
  | ReceiveDCCSend pack msg => receiveDCCSend pack msg
  | NameServer name =>
      match GetServer env host with
      | Some server =>
          when (String.eqb (storage.srv_Name server) "")
            (emit (Do (SetServerName name (storage.srv_Host server))))
      | None => ret tt
      end
  end.

End Dispatch.

(** What [select] hands to the run loop. *)
Inductive Input :=
| Received (msg : irc.Message)                   (* msg, ok := <-Messages *)
| Closed                                         (* !ok *)
| ConnectionChanged (state : irc.ConnectionState)
| Progress (progress : irc.DownloadProgress).

(** [run] over the inputs [select] delivers, each with the environment it
  is handled in; the result is [lastConnErr] when the inputs end. *)
Fixpoint run (lastConnErr : option string) (inputs : Datatypes.list (Env * Input))
: M (option string) :=
match inputs with
| [] => ret lastConnErr
| (env, Closed) :: _ =>
    emit (Do (deleteIRC (Host env))) ;;; ret lastConnErr
| (env, Received msg) :: rest =>
    dispatchMessage env msg ;;; run lastConnErr rest
| (env, ConnectionChanged state) :: rest =>
    l <- connectionChanged env lastConnErr state ;;
    run l rest
| (env, Progress progress) :: rest =>
    progressed env progress ;;; run lastConnErr rest
end.

End Handler.


(** ** Formatting an error reply *)

Section FormatError.

(** [unicode.IsLower] of the first rune of a text that is not empty. *)
Context (firstRuneIsLower : string -> bool).

(** [formatIRCError]: the result is [None] if [msg.Params[1]] is out of
    range.  The loop over the runes of the last parameter returns in its
    first round, so it only looks at the first rune; over an empty text it
    does not run. *)
Definition formatIRCError (msg : irc.Message) : option string :=
  let errMsg := strings.TrimSuffix (irc.LastParam msg) "." in
  if (2 <? length (irc.Params msg))%nat then
    match irc.LastParam msg with
    | EmptyString => Some errMsg
    | String _ _ =>
        p1 ← irc.Params msg !! 1%nat;
        if firstRuneIsLower (irc.LastParam msg)
        then Some (p1 ++ " " ++ errMsg)
        else Some (p1 ++ ": " ++ errMsg)
    end
  else Some errMsg.

End FormatError.

(** * The static file server of package server *)

Module filepath.

(** The scan of [filepath.Ext] from the end of the path: [acc] holds the
    bytes passed so far. *)
Fixpoint ext_from (acc : list ascii) (rpath : list ascii) : string :=
  match rpath with
  | [] => ""
  | c :: rest =>
      if Ascii.eqb c "/" then ""
      else if Ascii.eqb c "." then string_of_list_ascii (c :: acc)
      else ext_from (c :: acc) rest
  end.

(** [filepath.Ext]: the suffix from the last dot of the last path
    element, or the empty string. *)
Definition Ext (path : string) : string :=
  ext_from [] (rev (list_ascii_of_string path)).

End filepath.

Module FileServer.

Definition longCacheControl : string := "public, max-age=31536000, immutable".
Definition disabledCacheControl : string := "no-cache, no-store, must-revalidate".

Record File := mkFile {
  Path : string;
  Asset : string;
  GzipAsset : string;
  Hash : string;
  ContentType : string;
  CacheControl : string;
  Compressed : bool;
}.

Record h2PushAsset := mkPushAsset {
  path : string;
  hash : string;
}.

(** [newH2PushAsset]: [None] when [strings.Split(name, ".")[1]] is out of
    range. *)
Definition newH2PushAsset (name : string) : option h2PushAsset :=
  h ← strings.Split name "." !! 1%nat;
  Some (mkPushAsset ("/" ++ name) h).

(** The package variables the request handlers read. *)
Record Globals := mkGlobals {
  files : list File;
  indexStylesheet : string;
  indexScripts : list string;
  inlineScript : string;
  inlineScriptSha256 : string;
  inlineScriptSW : string;
  inlineScriptSWSha256 : string;
  serviceWorker : string;
  h2PushAssets : list h2PushAsset;
  h2PushCookieValue : string;
  hstsHeader : string;
  cspEnabled : bool;
}.

(** [contentTypes]; a missing key reads as the empty string. *)
Definition contentTypes (ext : string) : string :=
  if String.eqb ext ".js" then "text/javascript"
  else if String.eqb ext ".css" then "text/css"
  else if String.eqb ext ".woff2" then "font/woff2"
  else if String.eqb ext ".woff" then "application/font-woff"
  else if String.eqb ext ".ttf" then "application/x-font-ttf"
  else "".

(** The loop of [initFileServer] that builds [h2PushCookieValue]. *)
Fixpoint pushCookieValue (assets : list h2PushAsset) (value : string) : string :=
  match assets with
  | [] => value
  | asset :: rest => pushCookieValue rest (value ++ hash asset)
  end.

(** The inner loop of [initFileServer] over [ignoreAssets]: its
    [continue] continues this loop, so the loop only walks the list. *)
Fixpoint skipIgnored (assetPath : string) (ignoreAssets : list string) : unit :=
  match ignoreAssets with
  | [] => tt
  | ignored :: rest =>
      if String.eqb assetPath ignored
      then skipIgnored assetPath rest
      else skipIgnored assetPath rest
  end.

(** The loop of [initFileServer] over the values of the manifest, in the
    order the map iteration yields them. *)
Fixpoint manifestFiles (manifest ignoreAssets : list string) (files : list File)
  : list File :=
  match manifest with
  | [] => files
  | assetPath :: rest =>
      let _ := skipIgnored assetPath ignoreAssets in
      let file :=
        mkFile assetPath (assetPath ++ ".br") "" ""
               (contentTypes (filepath.Ext assetPath)) longCacheControl true in
      manifestFiles rest ignoreAssets (files ++ [file])
  end.

Section Init.

(** [assets.Asset] and [assets.AssetDir("font")]; [None] is an error. *)
Context (assets_Asset : string -> option string).
(** [gzipAsset]; [None] when it ends the program with [log.Fatal]. *)
Context (gzipAsset : string -> option string).
(** [path.Join] of two elements *)
Context (path_Join : string -> string -> string).




End Init.

(** What a request carries, as far as the handlers read it. *)
Record Request := mkRequest {
  r_Path : string;                      (* r.URL.Path *)
  r_sw : bool;                          (* "sw" is a key of r.URL.Query() *)
  r_TLS : bool;                         (* r.TLS != nil *)
  r_Host : string;
  r_AcceptEncoding : list string;       (* r.Header["Accept-Encoding"] *)
  r_pushCookie : option string;         (* the value of r.Cookie("push") *)
}.

(** [r.Header.Get("Accept-Encoding")]: the first value, or the empty
    string. *)
Definition acceptEncoding (r : Request) : string :=
  match r_AcceptEncoding r with
  | v :: _ => v
  | [] => ""
  end.

(** The calls a handler makes on the response writer and on the other
    parts of the server, in order.  The push cookie expires one year from
    the time of the call. *)
Inductive Op :=
| SetHeader (key value : string)
| WriteBody (data : string)
| WriteHeader (code : Z)
| Push (target : string) (acceptEncoding : list string)
| SetCookie (name value cookiePath : string) (httpOnly secure : bool)
| HandleAuth
| GetIndexData
| IndexTemplate (gzipped withData : bool) (stylesheet inline : string)
    (scripts : list string).

(** [http.Error(w, error, code)]: the content type of the error text
    replaces the one set before, the status is written, and the text goes
    out with a newline after it, as [fmt.Fprintln] prints it.  No
    Content-Length is set.  (Go 1.23 and later first delete a
    Content-Length header; no caller here has set one.) *)
Definition newline : string := String "010" "".

Definition http_Error (error : string) (code : Z) : list Op :=
  [SetHeader "Content-Type" "text/plain; charset=utf-8";
   SetHeader "X-Content-Type-Options" "nosniff";
   WriteHeader code;
   WriteBody (error ++ newline)].

(** What reading [file.GzipAsset] through a gzip reader gives. *)
Inductive Gunzip :=
| BadHeader                 (* gzip.NewReader fails and returns no reader *)
| ReadError                 (* ioutil.ReadAll fails *)
| Data (buf : string).

Section Server.

Context (g : Globals).
(** [assets.Asset] *)
Context (assets_Asset : string -> option string).
Context (gunzip : string -> Gunzip).
(** [w] is an [http.Pusher] *)
Context (canPush : bool).

Definition len (data : string) : Z := Z.of_nat (String.length data).

Definition setPushCookie (r : Request) : Op :=
  SetCookie "push" (h2PushCookieValue g) "/" true (r_TLS r).

(** The loop of [serveIndex] over [h2PushAssets] when the request has a
    push cookie, from index [i]. *)
Fixpoint pushChanged (i : nat) (assets : list h2PushAsset) (cookie : string)
    (accept : list string) : list Op :=
  match assets with
  | [] => []
  | asset :: rest =>
      (if ((i + 1) * 8 <=? String.length cookie)%nat
          && negb (String.eqb (hash asset) (String.substring (i * 8) 8 cookie))
       then [Push (path asset) accept]
       else [])
      ++ pushChanged (S i) rest cookie accept
  end.

Definition serveIndex (r : Request) : list Op :=
  [HandleAuth]
  ++ (if cspEnabled g then
        let wsSrc := if r_TLS r then "wss://" ++ r_Host r else "ws://" ++ r_Host r in
        let inlineSha :=
          if r_sw r then inlineScriptSWSha256 g else inlineScriptSha256 g in
        [SetHeader "Content-Security-Policy"
           ("default-src 'none'; script-src 'self' 'sha256-" ++ inlineSha
            ++ "'; style-src 'self' 'unsafe-inline'; font-src 'self'; img-src data:; connect-src 'self' "
            ++ wsSrc)]
      else [])
  ++ [SetHeader "Content-Type" "text/html";
      SetHeader "Cache-Control" disabledCacheControl;
      SetHeader "X-Content-Type-Options" "nosniff";
      SetHeader "X-Frame-Options" "deny";
      SetHeader "X-XSS-Protection" "1; mode=block"]
  ++ (if negb (String.eqb (hstsHeader g) "")
      then [SetHeader "Strict-Transport-Security" (hstsHeader g)] else [])
  ++ (if canPush then
        match r_pushCookie r with
        | None =>
            map (fun asset => Push (path asset) (r_AcceptEncoding r)) (h2PushAssets g)
            ++ [setPushCookie r]
        | Some cookie =>
            let pushes := pushChanged 0 (h2PushAssets g) cookie (r_AcceptEncoding r) in
            pushes ++ (match pushes with
                       | [] => []
                       | _ :: _ => [setPushCookie r]
                       end)
        end
      else [])
  ++ (if negb (r_sw r) then [GetIndexData] else [])
  ++ (let inline := if r_sw r then inlineScriptSW g else inlineScript g in
      if strings.Contains (acceptEncoding r) "gzip" then
        [SetHeader "Content-Encoding" "gzip";
         IndexTemplate true (negb (r_sw r)) (indexStylesheet g) inline (indexScripts g)]
      else
        [IndexTemplate false (negb (r_sw r)) (indexStylesheet g) inline
           (indexScripts g)]).

(** [serveFile]: [None] when the handler panics, which it does when the
    gzip reader could not be created and is read all the same. *)
Definition serveFile (r : Request) (file : File) : option (list Op) :=
  match assets_Asset (Asset file) with
  | None => Some (http_Error "" 500)
  | Some data =>
      let headers : list Op :=
        ((if negb (String.eqb (CacheControl file) "")
          then [SetHeader "Cache-Control" (CacheControl file)] else [])
         ++ [SetHeader "Content-Type" (ContentType file)])%list in
      if Compressed file && strings.Contains (acceptEncoding r) "br" then
        Some (headers ++ [SetHeader "Content-Encoding" "br";
                          SetHeader "Content-Length" (strconv.Itoa (len data));
                          WriteBody data])%list
      else if Compressed file && strings.Contains (acceptEncoding r) "gzip" then
        Some (headers ++ [SetHeader "Content-Encoding" "gzip";
                          SetHeader "Content-Length"
                            (strconv.Itoa (len (GzipAsset file)));
                          WriteBody (GzipAsset file)])%list
      else if negb (Compressed file) then
        Some (headers ++ [SetHeader "Content-Length" (strconv.Itoa (len data));
                          WriteBody data])%list
      else
        match gunzip (GzipAsset file) with
        | BadHeader => None
        | ReadError => Some (headers ++ http_Error "" 500)%list
        | Data buf =>
            Some (headers ++ [SetHeader "Content-Length" (strconv.Itoa (len buf));
                              WriteBody buf])%list
        end
  end.

(** The loop of [serveFiles] over [files]. *)
Fixpoint serveFirst (r : Request) (fs : list File) : option (list Op) :=
  match fs with
  | [] => Some (serveIndex r)
  | file :: rest =>
      if strings.HasSuffix (r_Path r) (Path file)
      then serveFile r file
      else serveFirst r rest
  end.

Definition serveFiles (r : Request) : option (list Op) :=
  if String.eqb (r_Path r) "/" then Some (serveIndex r)
  else if String.eqb (r_Path r) "/sw.js" then
    Some [SetHeader "Cache-Control" disabledCacheControl;
          SetHeader "Content-Type" "text/javascript";
          SetHeader "Content-Length" (strconv.Itoa (len (serviceWorker g)));
          WriteBody (serviceWorker g)]
  else serveFirst r (files g).

End Server.

End FileServer.
(** * Vocabulary of the properties *)

(** ** Reading traces *)

Definition emitsEvent (name : string) (tr : list Effect) : Prop :=
  exists p, Do (sendJSON name p) ∈ tr \/ Go (sendJSON name p) ∈ tr.

(** ** The error conversion *)

(** "A parameter is channel-shaped if its first character is one of
    [&#+!]". *)
Definition channelShaped (s : string) : Prop :=
  exists c rest, s = String c rest /\ In c ["&"; "#"; "+"; "!"]%char.

(** [t] is the first channel-shaped element of [l]. *)
Definition firstShapedParam (l : list string) (t : string) : Prop :=
  exists i, l !! i = Some t /\ channelShaped t
            /\ forall j q, (j < i)%nat -> l !! j = Some q -> ~ channelShaped q.

(** [t] is what the loop leaves in [err.Target] when it runs over [l]:
    the first channel-shaped element, or the empty string. *)
Definition firstShaped (l : list string) (t : string) : Prop :=
  firstShapedParam l t
  \/ (t = "" /\ forall j q, l !! j = Some q -> ~ channelShaped q).

(** The target of a converted error, in terms of the message alone: none
    unless the message has more than two parameters, and then the first
    channel-shaped parameter after the first one. *)
Definition errorTargetOf (params : list string) (t : string) : Prop :=
  ((length params <= 2)%nat /\ t = "")
  \/ ((2 < length params)%nat /\
      ((exists i, (1 <= i)%nat /\ params !! i = Some t /\ channelShaped t
                  /\ forall j q, (1 <= j < i)%nat -> params !! j = Some q
                                 -> ~ channelShaped q)
       \/ (t = "" /\ forall j q, (1 <= j)%nat -> params !! j = Some q
                                 -> ~ channelShaped q))).

(** The target the error conversion computes. *)
Definition errorTarget (params : list string) : string :=
  if (2 <? length params)%nat
  then Handler.firstChannel (drop 1 params) "" else "".

(** The events of the error conversion. *)
Definition conversion (env : Env) (msg : irc.Message) : list Effect :=
  match irc.Command msg with
  | String c _ =>
      if Ascii.eqb c "4" && negb (isExcludedError (irc.Command msg))
      then [Do (sendJSON "error"
                  (PError (IRCError.mk (Host env) (errorTarget (irc.Params msg))
                             (irc.LastParam msg))))]
      else []
  | EmptyString => []
  end.

(** Ordinary dispatch: the registered handler, if there is one. *)
Definition registered (env : Env) (msg : irc.Message) : M unit :=
  match Handler.handlers env !! irc.Command msg with
  | Some handler => handler msg
  | None => ret tt
  end.

(** ** Frames *)

(** A body [m] respects a view [P] of the state and a property [Q] of
    effects: whatever state it starts in and however it ends, [P] reads
    the same afterwards and every effect it produced satisfies [Q]. *)
Definition respects {X A : Type} (P : ircHandler -> X) (Q : Effect -> Prop)
    (m : M A) : Prop :=
  forall h, P (final (m h)) = P h /\ Forall Q (trace (m h)).

(** The command of an input, when the input is a message. *)
Definition commandOf (i : Env * Handler.Input) : option string :=
  match i.2 with
  | Handler.Received msg => Some (irc.Command msg)
  | _ => None
  end.

(** No message among [inputs] has a command in [cmds]. *)
Definition without (cmds : list string) (inputs : list (Env * Handler.Input)) : Prop :=
  forall i c, i ∈ inputs -> commandOf i = Some c -> c ∉ cmds.

(** ** WHOIS *)

Definition whoisNick (h : ircHandler) : string := WhoisReply.Nick (whois h).

(** A handler registered under [cmd] leaves the buffered WHOIS nick alone,
    unless [cmd] is the whois-user reply or the end marker. *)
Definition keepsWhoisNick (cmd : string) (f : irc.Message -> M unit) : Prop :=
  cmd <> irc.RPL_WHOISUSER -> cmd <> irc.RPL_ENDOFWHOIS ->
  forall msg, respects whoisNick (fun _ => True) (f msg).

(** ** MOTD *)

(** The run loop's inputs when only messages arrive. *)
Definition received (ems : list (Env * irc.Message)) : list (Env * Handler.Input) :=
  map (fun em => (em.1, Handler.Received em.2)) ems.

(** The messages that arrived after the last one with command [cmd] (all
    of them when there is none). *)
Definition sinceLast (cmd : string) (msgs : list irc.Message) : list irc.Message :=
  fold_left (fun acc m => if String.eqb (irc.Command m) cmd then [] else (acc ++ [m])%list)
            msgs [].

(** The texts of the MOTD line messages among [msgs], in arrival order. *)
Definition motdLines (msgs : list irc.Message) : list string :=
  map irc.LastParam
      (List.filter (fun m => String.eqb (irc.Command m) irc.RPL_MOTD) msgs).

(** The lines in the MOTD buffer. *)
Definition motdContent (h : ircHandler) : list string :=
  MOTD.Content (motdBuffer h).

(** What one message does to the buffered MOTD lines. *)
Definition motdStep (content : list string) (m : irc.Message) : list string :=
  if String.eqb (irc.Command m) irc.RPL_MOTD then (content ++ [irc.LastParam m])%list
  else if String.eqb (irc.Command m) irc.RPL_ENDOFMOTD then []
  else content.

(** A handler registered under [cmd] leaves the buffered MOTD lines alone,
    unless [cmd] is the MOTD line or the end marker. *)
Definition keepsMotdContent (cmd : string) (f : irc.Message -> M unit) : Prop :=
  cmd <> irc.RPL_MOTD -> cmd <> irc.RPL_ENDOFMOTD ->
  forall msg, respects motdContent (fun _ => True) (f msg).

(** ** The connection log *)

(** The lines [i.log] prints for a connection error and for a successful
    connection. *)
Definition errorLine (env : Env) (e : string) : Effect :=
  Do (Println ["[IRC]"; UserID env; Host env; "Connection error:" ++ e]).

Definition connectedLine (env : Env) : Effect :=
  Do (Println ["[IRC]"; UserID env; Host env; "Connected"]).

Definition connectionEvents (env : Env) (state : irc.ConnectionState) : list Effect :=
  [Do (sendJSON "connection_update" (PConnectionUpdate (Host env) state));
   Do (setConnectionState (Host env) state)].

(** The error text of a log line, when the effect is a logged connection
    error. *)
Definition loggedError (e : Effect) : option string :=
  match e with
  | Do (Println [_; _; _; text]) =>
      if String.prefix "Connection error:" text
      then Some (String.substring 17 (String.length text - 17) text)
      else None
  | _ => None
  end.

(** The connection errors logged in a trace, oldest first. *)
Fixpoint loggedErrors (tr : list Effect) : list string :=
  match tr with
  | [] => []
  | e :: tr' =>
      match loggedError e with
      | Some text => text :: loggedErrors tr'
      | None => loggedErrors tr'
      end
  end.

(** The text of the most recently logged connection error. *)
Definition lastLoggedError (tr : list Effect) : option string :=
  last (loggedErrors tr).

(** No two neighbours of the list are equal. *)
Definition noRepeat (l : list string) : Prop :=
  forall i a b, l !! i = Some a -> l !! S i = Some b -> a <> b.

(** An effect that is not a logged connection error. *)
Definition quiet (e : Effect) : Prop := loggedError e = None.

(** A handler that logs no connection error. *)
Definition neverLogs (cmd : string) (f : irc.Message -> M unit) : Prop :=
  forall msg, respects (fun _ : ircHandler => tt) quiet (f msg).

(** The input is the closing of the message stream. *)
Definition isClosed (i : Env * Handler.Input) : bool :=
  match i.2 with
  | Handler.Closed => true
  | _ => false
  end.

(** ** Messages *)

(** The storage target of a delivered message: the sender for a private
    message, the addressed channel otherwise. *)
Definition effectiveTarget (env : Env) (msg : irc.Message) (target : string) : string :=
  if Is env target then irc.Sender msg else target.

(** The storage call that persists a delivered message. *)
Definition persist (env : Env) (msg : irc.Message) (id to : string) : Effect :=
  Go (LogMessage (storage.mkMessage id (Host env) (irc.Sender msg) to
                    (irc.LastParam msg))).

(** A message was handed to storage. *)
Definition persisted (tr : list Effect) : Prop :=
  exists m, Go (LogMessage m) ∈ tr \/ Do (LogMessage m) ∈ tr.

(** ** DCC status messages *)

(** The status message of a DCC transfer, as sent to the client. *)
Definition dccMessage (env : Env) (content : string) : Effect :=
  Do (sendJSON "pm" (PMessage (Message.mk "" (Host env) "@dcc" "" content))).

(** What a logged status message adds: the open conversation and the
    stored message, both from the sender [@dcc]. *)
Definition dccLogged (env : Env) (content : string) : list Effect :=
  [Do (AddOpenDM (Host env) "@dcc");
   Do (LogMessage (storage.mkMessage "" (Host env) "@dcc" "" content))].

(** scheme://host/downloads/user/file, from the session's settings. *)
Definition downloadURL (env : Env) (h : ircHandler) (file : string) : string :=
  state_String "scheme" h ++ "://" ++ state_String "host" h
    ++ "/downloads/" ++ Username env ++ "/" ++ file.

(** A decimal digit. *)
Definition isDigit (c : ascii) : Prop :=
  In c ["0"; "1"; "2"; "3"; "4"; "5"; "6"; "7"; "8"; "9"]%char.

(** A string of decimal digits. *)
Definition allDigits (s : string) : Prop :=
  Forall isDigit (list_ascii_of_string s).

(** A decimal numeral with exactly one digit after the point. *)
Definition oneDecimal (s : string) : Prop :=
  exists sign int d,
    s = sign ++ int ++ "." ++ String d ""
    /\ (sign = "" \/ sign = "-") /\ int <> "" /\ allDigits int /\ isDigit d.

(** ** Channel list *)

Definition listEntry (msg : irc.Message) (name count : string) : storage.ChannelListItem :=
  storage.mkItem name (fst (strconv.Atoi count)) (irc.LastParam msg).

(** The accumulator a list entry is added to: the active one, or a fresh
    one when none is active and a refresh was requested. *)
Definition accumulator (env : Env) (h : ircHandler) : option storage.ChannelListIndex :=
  match listBuffer h with
  | Some idx => Some idx
  | None =>
      if state_Bool (updateChanlistKey (Host env)) h
      then Some storage.NewMapChannelListIndex else None
  end.

(** * Example inputs *)

(** An environment, a few messages and a few states to run the handler on. *)

Definition exampleEnv : Env :=
  mkEnv "irc.example.org" (String.eqb "me") [("NETWORK", "Example")]
        (fun k => if String.eqb k "NETWORK" then "Example" else "")
        (fun _ => None) (fun m => String.eqb (irc.Sender m) "irc.example.org")
        (fun _ => None) (fun _ => None) (fun _ => []) (fun _ => []) (fun _ => [])
        "alice" "7" true false (fun u f => "downloads/" ++ u ++ "/" ++ f)
        (fun _ => false) (fun _ => None) (fun n => "guid").

Definition unknownNick : irc.Message :=
  irc.mkMessage "irc.example.org" "401" ["me"; "#nowhere"; "No such nick/channel"].

Definition nickInUse : irc.Message :=
  irc.mkMessage "irc.example.org" irc.ERR_NICKNAMEINUSE
    ["*"; "me"; "Nickname is already in use"].

Definition erroneousNick : irc.Message :=
  irc.mkMessage "irc.example.org" irc.ERR_ERRONEUSNICKNAME
    ["*"; "bad nick"; "Erroneous Nickname"].

Definition whoisUserMsg : irc.Message :=
  irc.mkMessage "irc.example.org" irc.RPL_WHOISUSER
    ["me"; "bob"; "~bob"; "host.example.net"; "*"; "Bob B."].

Definition whoisServerMsg : irc.Message :=
  irc.mkMessage "irc.example.org" irc.RPL_WHOISSERVER
    ["me"; "bob"; "irc.example.org"; "Example server"].

Definition whoisEndMsg : irc.Message :=
  irc.mkMessage "irc.example.org" irc.RPL_ENDOFWHOIS
    ["me"; "bob"; "End of /WHOIS list."].

Definition motdStartMsg (title : string) : irc.Message :=
  irc.mkMessage "irc.example.org" irc.RPL_MOTDSTART ["me"; title].

Definition motdLineMsg (line : string) : irc.Message :=
  irc.mkMessage "irc.example.org" irc.RPL_MOTD ["me"; line].

Definition motdEndMsg : irc.Message :=
  irc.mkMessage "irc.example.org" irc.RPL_ENDOFMOTD ["me"; "End of /MOTD command."].

Definition refused : irc.ConnectionState :=
  irc.mkConnectionState false (Some "connection refused").

Definition connected : irc.ConnectionState :=
  irc.mkConnectionState true None.

Definition privmsgToMe : irc.Message :=
  irc.mkMessage "bob" irc.PRIVMSG ["me"; "hello there"].

Definition privmsgToChannel : irc.Message :=
  irc.mkMessage "bob" irc.PRIVMSG ["#rocq"; "hello all"].

(** 50.5 percent done, 2.75 seconds to go. *)
Definition halfway : irc.DownloadProgress :=
  irc.mkProgress "notes.txt" None
    (S754_finite false 7107243161944064 (-47)) "1.2 MB/s" "3.4 MB"
    (S754_finite false 6192449487634432 (-51)).

Definition finished : irc.DownloadProgress :=
  irc.mkProgress "notes.txt" None (float64.of_Z 100) "0 B/s" "0 B" (float64.of_Z 0).

Definition starting : irc.DownloadProgress :=
  irc.mkProgress "notes.txt" None (float64.of_Z 0) "0 B/s" "1.0 MB"
    (S754_infinity false).

(** A percentage that is not a number, as 0/0 is, and no end in sight. *)
Definition undefinedProgress : irc.DownloadProgress :=
  irc.mkProgress "notes.txt" None S754_nan "0 B/s" "0 B" (S754_infinity false).

Definition failed : irc.DownloadProgress :=
  irc.mkProgress "notes.txt" (Some "connection reset") (float64.of_Z 100) "" ""
    (float64.of_Z 0).

Definition listEntryMsg : irc.Message :=
  irc.mkMessage "irc.example.org" irc.RPL_LIST ["me"; "#rocq"; "42"; "Proofs"].

Definition listEndMsg : irc.Message :=
  irc.mkMessage "irc.example.org" irc.RPL_LISTEND ["me"; "End of /LIST"].

Definition listing : ircHandler :=
  set_listBuffer (Some storage.NewMapChannelListIndex) newIRCHandler.

Definition offer : irc.DCCSend := irc.mkDCCSend "notes.txt" "192.0.2.7" "5000" 1024.

Definition offerMsg : irc.Message :=
  irc.mkMessage "bob" irc.PRIVMSG ["me"; "DCC SEND notes.txt 3221225991 5000 1024"].

Definition configured : ircHandler :=
  set_stateVars (<["scheme" := VString "https"]>
                   (<["host" := VString "chat.example.org"]> ∅)) newIRCHandler.


Definition shortWhoisUser : irc.Message :=
  irc.mkMessage "irc.example.org" irc.RPL_WHOISUSER ["me"; "bob"; "~bob"].

Definition noCommand : irc.Message := irc.mkMessage "irc.example.org" "" [].

Definition welcomeMsg : irc.Message :=
  irc.mkMessage "irc.example.org" irc.RPL_WELCOME ["me"; "Welcome to Example"].

Definition listEntryOf (name : string) : irc.Message :=
  irc.mkMessage "irc.example.org" irc.RPL_LIST ["me"; name; "3"; "topic"].

(** * Vocabulary of the further properties *)

(** The commands with a registered handler. *)
Definition registeredCommands (env : Env) : list string :=
  (Handler.handlerTable env).*1.

(** A handler registered under [cmd] leaves the view [P] of the state
    alone, unless [cmd] is one of [except]. *)
Definition keeps {X : Type} (P : ircHandler -> X) (except : list string)
    (cmd : string) (f : irc.Message -> M unit) : Prop :=
  cmd ∉ except ->
  forall msg, irc.Command msg = cmd -> respects P (fun _ => True) (f msg).

(** The commands whose handlers write the WHOIS accumulator, the MOTD
    buffer, the list accumulator, the session's settings and the
    identifier supply. *)
Definition whoisCommands : list string :=
  [irc.RPL_WHOISUSER; irc.RPL_WHOISSERVER; irc.RPL_WHOISCHANNELS;
   irc.RPL_ENDOFWHOIS].

Definition motdCommands : list string :=
  [irc.RPL_MOTDSTART; irc.RPL_MOTD; irc.RPL_ENDOFMOTD].

Definition listCommands : list string :=
  [irc.RPL_WELCOME; irc.RPL_LIST; irc.RPL_LISTEND].

Definition messageCommands : list string := [irc.PRIVMSG; irc.NOTICE].

Definition pingMsg : irc.Message :=
  irc.mkMessage "irc.example.org" "PING" ["irc.example.org"].

Definition unknownError : irc.Message :=
  irc.mkMessage "irc.example.org" "499" ["me"; "#rocq"; "Something failed"].

Definition partMsg : irc.Message :=
  irc.mkMessage "me" irc.PART ["#rocq"; "bye"].

Definition partMsg3 : irc.Message :=
  irc.mkMessage "bob" irc.PART ["#rocq"; "bye"; "extra"].

Definition joinMsg : irc.Message :=
  irc.mkMessage "me" irc.JOIN ["#rocq"; "#ocaml"].

Definition emptyJoin : irc.Message := irc.mkMessage "bob" irc.JOIN [].

Definition forwardMsg : irc.Message :=
  irc.mkMessage "irc.example.org" irc.ERR_FORWARD
    ["me"; "#old"; "#new"; "Forwarding to another channel"].

Definition shortForward : irc.Message :=
  irc.mkMessage "irc.example.org" irc.ERR_FORWARD ["me"; "#old"].

Definition topicChange : irc.Message :=
  irc.mkMessage "bob" irc.TOPIC ["#rocq"; "Proofs welcome"].

Definition topicReply : irc.Message :=
  irc.mkMessage "irc.example.org" irc.RPL_TOPIC ["me"; "#rocq"; "Proofs welcome"].

Definition noTopicReply : irc.Message :=
  irc.mkMessage "irc.example.org" irc.RPL_NOTOPIC ["me"; "#rocq"; "No topic is set"].

Definition yourHost : irc.Message :=
  irc.mkMessage "irc.example.org" irc.RPL_YOURHOST
    ["me"; "Your host is"; "irc.example.org"].

Definition nickMsg : irc.Message := irc.mkMessage "me" irc.NICK ["me"].

Definition errorMsg : irc.Message :=
  irc.mkMessage "irc.example.org" irc.ERROR ["Closing link"].

(** The informational replies other than the welcome. *)
Definition infoCommands : list string :=
  [irc.RPL_YOURHOST; irc.RPL_CREATED; irc.RPL_LUSERCLIENT; irc.RPL_LUSEROP;
   irc.RPL_LUSERUNKNOWN; irc.RPL_LUSERCHANNELS; irc.RPL_LUSERME].

(** The informational message every info reply ends with. *)
Definition infoMessage (env : Env) (msg : irc.Message) (rest : list string) : Effect :=
  Do (sendJSON "pm"
        (PMessage (Message.mk "" (Host env) (irc.Sender msg) ""
                     (strings.Join rest " ")))).

(** A cache that holds a fresh index for the example host. *)
Definition cached : ircHandler :=
  set_channelIndexes
    (<["irc.example.org" := mkEntry (storage.Finish storage.NewMapChannelListIndex) false]> ∅)
    listing.

(** The body returns: it does not panic, whatever state it starts in. *)
Definition returns {A : Type} (m : M A) : Prop :=
  forall h, value (m h) <> None.

(** The commands whose handlers read no parameter by position, or only
    behind a length check. *)
Definition totalCommands : list string :=
  [irc.NICK; irc.MODE; irc.QUIT; irc.ERROR; irc.RPL_ISUPPORT;
   irc.RPL_WHOISCHANNELS; irc.RPL_ENDOFWHOIS; irc.RPL_MOTDSTART; irc.RPL_MOTD;
   irc.RPL_ENDOFMOTD; irc.RPL_LISTEND; irc.ERR_ERRONEUSNICKNAME; irc.ERR_FORWARD].

Definition isupportMsg : irc.Message :=
  irc.mkMessage "irc.example.org" irc.RPL_ISUPPORT
    ["me"; "NETWORK=Example"; "are supported by this server"].

(** An environment whose storage knows the server, without a name. *)
Definition unnamedServerEnv : Env :=
  mkEnv "irc.example.org" (String.eqb "me") [("NETWORK", "Example")]
        (fun k => if String.eqb k "NETWORK" then "Example" else "")
        (fun _ => Some (irc.mkCTCP "VERSION" ""))
        (fun m => String.eqb (irc.Sender m) "irc.example.org")
        (fun _ => None) (fun _ => None) (fun _ => []) (fun _ => []) (fun _ => [])
        "alice" "7" true true (fun u f => "downloads/" ++ u ++ "/" ++ f)
        (fun _ => false)
        (fun _ => Some (storage.mkServer "" "irc.example.org:6697"))
        (fun n => "guid").

Definition noParams : irc.Message := irc.mkMessage "bob" irc.QUIT [].

Definition namesEndMsg : irc.Message :=
  irc.mkMessage "irc.example.org" irc.RPL_ENDOFNAMES
    ["me"; "#rocq"; "End of /NAMES list."].

Definition topicReplies : list string :=
  [irc.RPL_TOPIC; irc.RPL_NOTOPIC; irc.RPL_ENDOFNAMES].

Definition messageCommandsList : list string := [irc.PRIVMSG; irc.NOTICE].

(** An environment with DCC enabled and offers accepted automatically. *)
Definition autogetEnv : Env :=
  mkEnv "irc.example.org" (String.eqb "me") [] (fun _ => "")
        (fun _ => None) (fun _ => false) (fun _ => None) (fun _ => None)
        (fun _ => []) (fun _ => []) (fun _ => [])
        "alice" "7" true true (fun u f => "downloads/" ++ u ++ "/" ++ f)
        (fun _ => false) (fun _ => None) (fun n => "guid").

(** A second offer of the same file name from another sender. *)
Definition offerAgain : irc.DCCSend := irc.mkDCCSend "notes.txt" "198.51.100.3" "6000" 2048.



(** The channels one whois-channels reply lists. *)
Definition whoisChannelsOf (msg : irc.Message) : list string :=
  strings.Split (strings.TrimRight (irc.LastParam msg) " ") " ".

Definition whoisChannelsMsg (chans : string) : irc.Message :=
  irc.mkMessage "irc.example.org" irc.RPL_WHOISCHANNELS ["me"; "bob"; chans].

(** A state change that reports the error already recorded, connected. *)
Definition refusedButConnected : irc.ConnectionState :=
  irc.mkConnectionState true (Some "connection refused").

(** * The file server *)

(** [s] ends with [suffix]. *)
Definition endsWith (s suffix : string) : Prop := exists pre, s = pre ++ suffix.

(** The targets pushed, in order. *)
Definition pushesOf (ops : list FileServer.Op) : list string :=
  flat_map (fun op => match op with
                      | FileServer.Push target _ => [target]
                      | _ => []
                      end) ops.

(** The cookies set, in order. *)
Definition cookiesOf (ops : list FileServer.Op) : list FileServer.Op :=
  flat_map (fun op => match op with
                      | FileServer.SetCookie _ _ _ _ _ => [op]
                      | _ => []
                      end) ops.

(** The value a header has when the handler is done: the last one set
    under that key. *)
Definition headerOf (key : string) (ops : list FileServer.Op) : option string :=
  fold_left (fun acc op => match op with
                           | FileServer.SetHeader k v =>
                               if String.eqb k key then Some v else acc
                           | _ => acc
                           end) ops None.

(** The bodies written, in order. *)
Definition bodiesOf (ops : list FileServer.Op) : list string :=
  flat_map (fun op => match op with
                      | FileServer.WriteBody data => [data]
                      | _ => []
                      end) ops.

(** The status codes written, in order; with none the status is 200. *)
Definition statusesOf (ops : list FileServer.Op) : list Z :=
  flat_map (fun op => match op with
                      | FileServer.WriteHeader code => [code]
                      | _ => []
                      end) ops.

(** The assets whose hash differs from the hash at the same position of
    [old]; an asset beyond the end of [old] is not among them. *)
Fixpoint changedAssets (assets old : list FileServer.h2PushAsset)
  : list FileServer.h2PushAsset :=
  match assets, old with
  | asset :: assets', o :: old' =>
      (if String.eqb (FileServer.hash asset) (FileServer.hash o) then []
       else [asset]) ++ changedAssets assets' old'
  | _, _ => []
  end.

(** The text has no dot. *)
Definition dotless (s : string) : Prop :=
  "."%char ∉ list_ascii_of_string s.

Definition noSuchChannel : irc.Message :=
  irc.mkMessage "irc.example.org" "403" ["me"; "#nowhere"; "No such channel."].

Definition stylesheet : FileServer.h2PushAsset :=
  FileServer.mkPushAsset "/main.0a1b2c3d.css" "0a1b2c3d".
Definition vendors : FileServer.h2PushAsset :=
  FileServer.mkPushAsset "/vendors~main.11223344.js" "11223344".
Definition mainScript : FileServer.h2PushAsset :=
  FileServer.mkPushAsset "/main.55667788.js" "55667788".
Definition oldMainScript : FileServer.h2PushAsset :=
  FileServer.mkPushAsset "/main.99aabbcc.js" "99aabbcc".

Definition exampleManifest : list string :=
  ["main.0a1b2c3d.css"; "runtime.deadbeef.js"; "main.55667788.js"].

Definition exampleGlobals : FileServer.Globals :=
  FileServer.mkGlobals
    (FileServer.manifestFiles exampleManifest ["runtime.deadbeef.js"; ""; "sw.js"] [])
    "main.0a1b2c3d.css" ["vendors~main.11223344.js"; "main.55667788.js"]
    "runtime" "c2hh" "boot runtime" "c3dz" "worker"
    [stylesheet; vendors; mainScript]
    (FileServer.pushCookieValue [stylesheet; vendors; mainScript] "")
    "" true.

(** Every asset is present; the gzip copy of any file reads as "plain". *)
Definition exampleAssets (name : string) : option string := Some "brotli".
Definition exampleGunzip (data : string) : FileServer.Gunzip :=
  FileServer.Data "plain".

(** No asset is present. *)
Definition noAssets (name : string) : option string := None.

Definition runtimeFile : FileServer.File :=
  FileServer.mkFile "runtime.deadbeef.js" "runtime.deadbeef.js.br" "gz" ""
    "text/javascript" FileServer.longCacheControl true.



Definition getRuntime : FileServer.Request :=
  FileServer.mkRequest "/runtime.deadbeef.js" false true "chat.example.org"
    ["gzip, deflate, br"] None.

Definition returning : FileServer.Request :=
  FileServer.mkRequest "/" false true "chat.example.org" ["gzip, deflate, br"]
    (Some (FileServer.pushCookieValue [stylesheet; vendors; oldMainScript] "")).

(** * Properties *)

(** ** Reading results *)

Lemma bind_ret_l {A B} (a : A) (k : A -> M B) h : bind (ret a) k h = k a h.
Proof. unfold bind, ret. by destruct (k a h). Qed.

Lemma bind_ret_r {A} (m : M A) h : bind m ret h = m h.
Proof.
  unfold bind, ret. destruct (m h) as [[a|] h1 t1]; [|reflexivity].
  by rewrite app_nil_r.
Qed.

Lemma bind_assoc {A B C} (m : M A) (k : A -> M B) (k' : B -> M C) h :
  bind (bind m k) k' h = bind m (fun a => bind (k a) k') h.
Proof.
  unfold bind. destruct (m h) as [[a|] h1 t1]; [|reflexivity].
  destruct (k a h1) as [[b|] h2 t2]; [|reflexivity].
  destruct (k' b h2) as [v h3 t3]. by rewrite app_assoc.
Qed.

(** A panic ends the body where it happens: what follows is not run. *)
Lemma bind_panic {A B} (m : M A) (k : A -> M B) h :
  value (m h) = None ->
  bind m k h = mkResult None (final (m h)) (trace (m h)).
Proof.
  intros Hv. unfold bind. destruct (m h) as [v h1 t1]. simpl in *. by subst v.
Qed.

Lemma index_ok (l : list string) i x h :
  l !! i = Some x -> index l i h = mkResult (Some x) h [].
Proof. intros Hl. unfold index. rewrite Hl. reflexivity. Qed.

Lemma index_panic (l : list string) i h :
  l !! i = None -> index l i h = mkResult None h [].
Proof. intros Hl. unfold index. rewrite Hl. reflexivity. Qed.

Lemma index_any_from_range i s chars :
  strings.index_any_from i s chars = (-1)%Z
  \/ (i <= strings.index_any_from i s chars)%Z.
Proof.
  revert i. induction s as [|c s IH]; intros i; simpl; [by left|].
  destruct (strings.contains_byte chars c); [right; lia|].
  destruct (IH (i + 1)%Z) as [->| ?]; [by left | right; lia].
Qed.

Lemma contains_byte_channel c :
  strings.contains_byte "&#+!" c = true <-> In c ["&"; "#"; "+"; "!"]%char.
Proof.
  unfold strings.contains_byte. simpl.
  rewrite !orb_true_iff, !Ascii.eqb_eq. intuition congruence.
Qed.

Lemma isChannel_spec s : isChannel s = true <-> channelShaped s.
Proof.
  unfold isChannel, strings.IndexAny, channelShaped.
  destruct s as [|c s]; simpl.
  - split; [discriminate | intros (? & ? & ? & _); discriminate].
  - destruct (strings.contains_byte "&#+!" c) eqn:Hc.
    + split; [intros _ | reflexivity].
      exists c, s. split; [reflexivity | by apply contains_byte_channel].
    + split.
      * intros H0. apply Z.eqb_eq in H0.
        destruct (index_any_from_range (0 + 1) s "&#+!"); lia.
      * intros (c' & s' & [= <- <-] & Hin).
        apply contains_byte_channel in Hin. congruence.
Qed.

Lemma isChannel_false s : isChannel s = false <-> ~ channelShaped s.
Proof. rewrite <- isChannel_spec. destruct (isChannel s); intuition congruence. Qed.

Lemma firstChannel_spec l : firstShaped l (Handler.firstChannel l "").
Proof.
  induction l as [|p l IH]; simpl.
  - right. split; [reflexivity|]. intros j q Hj. by rewrite lookup_nil in Hj.
  - destruct (isChannel p) eqn:Hp.
    + left. exists 0%nat. split; [reflexivity|]. split; [by apply isChannel_spec|].
      intros j q Hj. lia.
    + apply isChannel_false in Hp. destruct IH as [(i & Hi & Hs & Hlt)|[-> Hall]].
      * left. exists (S i). split; [exact Hi|]. split; [exact Hs|].
        intros [|j] q Hj Hq; simpl in Hq; [by injection Hq as <-|].
        apply (Hlt j q); [lia | exact Hq].
      * right. split; [reflexivity|].
        intros [|j] q Hq; simpl in Hq; [by injection Hq as <-|]. by apply (Hall j q).
Qed.

Lemma dispatchMessage_eq env msg h :
  irc.Command msg <> "" ->
  Handler.dispatchMessage env msg h =
    let r := registered env msg h in
    mkResult (value r) (final r) (conversion env msg ++ trace r).
Proof.
  intros Hne. unfold Handler.dispatchMessage, conversion, registered, errorTarget.
  generalize (Handler.handlers env !! irc.Command msg) as hd.
  destruct (irc.Command msg) as [|c rest] eqn:Hc; [done|]. intros hd.
  unfold bind, first_byte, when, Handler.send, emit, ret.
  destruct (Ascii.eqb c "4" && negb (isExcludedError (String c rest)));
    (destruct hd as [f|]; [destruct (f msg h) as [[[]|] h1 t1]|]); reflexivity.
Qed.

Lemma dispatchMessage_empty env msg h :
  irc.Command msg = "" ->
  Handler.dispatchMessage env msg h = mkResult None h [].
Proof. intros Hc. unfold Handler.dispatchMessage. rewrite Hc. reflexivity. Qed.

Lemma errorTarget_spec params : errorTargetOf params (errorTarget params).
Proof.
  unfold errorTarget, errorTargetOf.
  destruct (2 <? length params)%nat eqn:Hlen.
  - apply Nat.ltb_lt in Hlen. right. split; [exact Hlen|].
    destruct (firstChannel_spec (drop 1 params)) as [(i & Hi & Hs & Hlt)|[Ht Hall]].
    + left. exists (1 + i)%nat. rewrite lookup_drop in Hi.
      split; [lia|]. split; [exact Hi|]. split; [exact Hs|].
      intros j q Hj Hq. apply (Hlt (j - 1)%nat q); [lia|].
      rewrite lookup_drop. replace (1 + (j - 1))%nat with j by lia. exact Hq.
    + right. split; [exact Ht|]. intros j q Hj Hq.
      apply (Hall (j - 1)%nat q). rewrite lookup_drop.
      replace (1 + (j - 1))%nat with j by lia. exact Hq.
  - apply Nat.ltb_ge in Hlen. left. split; [exact Hlen | reflexivity].
Qed.
Lemma isExcludedError_spec cmd :
  isExcludedError cmd = true <-> cmd ∈ excludedErrors.
Proof.
  unfold isExcludedError, excludedErrors. simpl.
  rewrite !elem_of_cons, elem_of_nil.
  repeat match goal with
         | |- context [String.eqb cmd ?x] =>
             destruct (String.eqb_spec cmd x) as [->|?]; [by intuition|]
         end.
  intuition discriminate.
Qed.

Lemma table_keys env :
  (Handler.handlerTable env).*1 =
    [irc.NICK; irc.JOIN; irc.PART; irc.MODE; irc.PRIVMSG; irc.NOTICE; irc.QUIT;
     irc.TOPIC; irc.ERROR; irc.RPL_WELCOME; irc.RPL_YOURHOST; irc.RPL_CREATED;
     irc.RPL_ISUPPORT; irc.RPL_LUSERCLIENT; irc.RPL_LUSEROP; irc.RPL_LUSERUNKNOWN;
     irc.RPL_LUSERCHANNELS; irc.RPL_LUSERME; irc.RPL_WHOISUSER; irc.RPL_WHOISSERVER;
     irc.RPL_WHOISCHANNELS; irc.RPL_ENDOFWHOIS; irc.RPL_NOTOPIC; irc.RPL_TOPIC;
     irc.RPL_ENDOFNAMES; irc.RPL_MOTDSTART; irc.RPL_MOTD; irc.RPL_ENDOFMOTD;
     irc.RPL_LIST; irc.RPL_LISTEND; irc.ERR_ERRONEUSNICKNAME; irc.ERR_FORWARD].
Proof. reflexivity. Qed.

(** The keys of the map literal are pairwise distinct. *)
Lemma table_NoDup env : NoDup (Handler.handlerTable env).*1.
Proof. rewrite table_keys. compute_done. Qed.

Lemma handlers_lookup env cmd (f : irc.Message -> M unit) :
  (cmd, f) ∈ Handler.handlerTable env -> Handler.handlers env !! cmd = Some f.
Proof. apply elem_of_list_to_map_1, table_NoDup. Qed.

Lemma handlers_lookup_None env cmd :
  cmd ∉ (Handler.handlerTable env).*1 -> Handler.handlers env !! cmd = None.
Proof. apply not_elem_of_list_to_map_1. Qed.

Ltac in_table :=
  unfold Handler.handlerTable;
  repeat first [apply list_elem_of_here | apply list_elem_of_further].

Lemma handlers_unregistered env cmd :
  cmd ∈ [irc.ERR_NICKNAMEINUSE; irc.ERR_NICKCOLLISION; irc.ERR_UNAVAILRESOURCE] ->
  Handler.handlers env !! cmd = None.
Proof.
  intros Hin. apply handlers_lookup_None. rewrite table_keys.
  rewrite !elem_of_cons, elem_of_nil in Hin.
  destruct Hin as [->|[->|[->|[]]]]; compute_done.
Qed.

Lemma handlers_forward env :
  Handler.handlers env !! irc.ERR_FORWARD = Some (Handler.forward env).
Proof. apply handlers_lookup. in_table. Qed.

Lemma handlers_badNick env :
  Handler.handlers env !! irc.ERR_ERRONEUSNICKNAME = Some (Handler.badNick env).
Proof. apply handlers_lookup. in_table. Qed.

Lemma forward_trace env msg h :
  trace (Handler.forward env msg h) = []
  \/ exists p, trace (Handler.forward env msg h)
               = [Do (sendJSON "channel_forward" (PForward p))].
Proof.
  unfold Handler.forward, bind, index, Handler.send, emit.
  destruct (2 <? length (irc.Params msg))%nat; [|by left].
  destruct (irc.Params msg !! 1%nat); simpl; [|by left].
  destruct (irc.Params msg !! 2%nat); simpl; [|by left].
  right. eexists. reflexivity.
Qed.

(** C1, as amended.  A message whose command begins with the digit 4 and
    is not an excluded identifier makes [dispatchMessage] emit, before
    anything else, an "error" event with the connection's host as server
    and the message's last parameter as text; its target is empty unless
    the message has more than two parameters, and is then the first
    channel-shaped parameter after the first one (empty when there is
    none).  For the four excluded identifiers no "error" event is
    emitted. *)
Theorem dispatch_error_conversion env msg h :
  (forall rest,
     irc.Command msg = String "4" rest ->
     isExcludedError (irc.Command msg) = false ->
     exists t tail,
       errorTargetOf (irc.Params msg) t /\
       trace (Handler.dispatchMessage env msg h)
       = Do (sendJSON "error"
               (PError (IRCError.mk (Host env) t (irc.LastParam msg)))) :: tail)
  /\ (irc.Command msg ∈ excludedErrors ->
      ~ emitsEvent "error" (trace (Handler.dispatchMessage env msg h))).
Proof.
  split.
  - intros rest Hc Hex.
    exists (errorTarget (irc.Params msg)), (trace (registered env msg h)).
    split; [apply errorTarget_spec|].
    rewrite dispatchMessage_eq by (rewrite Hc; discriminate).
    unfold conversion. rewrite Hc in *. rewrite Hex. reflexivity.
  - intros Hin.
    assert (Hconv : conversion env msg = []).
    { unfold conversion. apply isExcludedError_spec in Hin as Hex.
      destruct (irc.Command msg); [reflexivity|]. rewrite Hex.
      by rewrite andb_false_r. }
    assert (Hne : irc.Command msg <> "").
    { intros Heq. rewrite Heq in Hin. unfold excludedErrors in Hin.
      rewrite !elem_of_cons, elem_of_nil in Hin. intuition discriminate. }
    rewrite (dispatchMessage_eq _ _ _ Hne). cbv zeta. cbn [trace].
    rewrite Hconv, app_nil_l.
    unfold registered, excludedErrors in *.
    rewrite !elem_of_cons, elem_of_nil in Hin.
    destruct Hin as [Hc|[Hc|[Hc|[Hc|[]]]]]; rewrite Hc.
    1-3: rewrite handlers_unregistered
           by (rewrite !elem_of_cons; auto);
         intros (p & [H|H]); cbn [ret trace] in H; by apply elem_of_nil in H.
    rewrite handlers_forward.
    destruct (forward_trace env msg h) as [->|(q & ->)];
      intros (p & [H|H]).
    1-2: by apply elem_of_nil in H.
    1-2: apply list_elem_of_singleton in H; discriminate.
Qed.

Lemma dispatch_error_conversion_witness :
  (exists t tail,
     errorTargetOf (irc.Params unknownNick) t /\
     trace (Handler.dispatchMessage exampleEnv unknownNick newIRCHandler)
     = Do (sendJSON "error"
             (PError (IRCError.mk (Host exampleEnv) t
                        (irc.LastParam unknownNick)))) :: tail)
  /\ ~ emitsEvent "error"
         (trace (Handler.dispatchMessage exampleEnv nickInUse newIRCHandler)).
Proof.
  split.
  - apply (proj1 (dispatch_error_conversion exampleEnv unknownNick newIRCHandler)
             "01"); reflexivity.
  - apply (proj2 (dispatch_error_conversion exampleEnv nickInUse newIRCHandler)).
    unfold excludedErrors. simpl. apply list_elem_of_here.
Defined.

(** C1 as written fails: the target is not searched for in a message of
    two parameters, and never in the first parameter.  In both messages
    the first channel-shaped parameter is [#nowhere], and the event does
    not carry it. *)
Lemma dispatch_error_target_counterexample :
  let short := irc.mkMessage "irc.example.org" "403" ["me"; "#nowhere"] in
  let first :=
    irc.mkMessage "irc.example.org" "403" ["#nowhere"; "x"; "No such channel"] in
  (isExcludedError (irc.Command short) = false
   /\ firstShapedParam (irc.Params short) "#nowhere"
   /\ trace (Handler.dispatchMessage exampleEnv short newIRCHandler)
      = [Do (sendJSON "error"
               (PError (IRCError.mk "irc.example.org" "" "#nowhere")))]
   /\ ~ exists tail,
         trace (Handler.dispatchMessage exampleEnv short newIRCHandler)
         = Do (sendJSON "error"
                 (PError (IRCError.mk "irc.example.org" "#nowhere"
                            (irc.LastParam short)))) :: tail)
  /\ (isExcludedError (irc.Command first) = false
      /\ firstShapedParam (irc.Params first) "#nowhere"
      /\ trace (Handler.dispatchMessage exampleEnv first newIRCHandler)
         = [Do (sendJSON "error"
                  (PError (IRCError.mk "irc.example.org" "" "No such channel")))]
      /\ ~ exists tail,
            trace (Handler.dispatchMessage exampleEnv first newIRCHandler)
            = Do (sendJSON "error"
                    (PError (IRCError.mk "irc.example.org" "#nowhere"
                               (irc.LastParam first)))) :: tail).
Proof.
  assert (Hshaped : channelShaped "#nowhere").
  { exists "#"%char, "nowhere". split; [reflexivity | simpl; tauto]. }
  cbv zeta. split; (split; [reflexivity|]); (split; [|split]).
  - exists 1%nat. split; [reflexivity|]. split; [exact Hshaped|].
    intros [|[|j]] q Hj; [|lia..]. intros [= <-] (c & rest & [= <- <-] & Hin).
    simpl in Hin. intuition discriminate.
  - vm_compute. reflexivity.
  - intros (tail & Ht). vm_compute in Ht. discriminate.
  - exists 0%nat. split; [reflexivity|]. split; [exact Hshaped|]. intros j q Hj. lia.
  - vm_compute. reflexivity.
  - intros (tail & Ht). vm_compute in Ht. discriminate.
Qed.

(** C10.  A message with the erroneous-nickname code produces two events
    in this order, the generic "error" event and then "nick_fail" from
    the registered handler; and for every message with a command, what
    [dispatchMessage] does is the error conversion followed by exactly
    what ordinary dispatch does: the conversion suppresses nothing. *)
Theorem badNick_after_error env msg h :
  (irc.Command msg = irc.ERR_ERRONEUSNICKNAME ->
   Handler.dispatchMessage env msg h =
     mkResult (Some tt) h
       [Do (sendJSON "error"
              (PError (IRCError.mk (Host env) (errorTarget (irc.Params msg))
                         (irc.LastParam msg))));
        Do (sendJSON "nick_fail" (PNickFail (NickFail.mk (Host env))))])
  /\ (irc.Command msg <> "" ->
      value (Handler.dispatchMessage env msg h) = value (registered env msg h)
      /\ final (Handler.dispatchMessage env msg h) = final (registered env msg h)
      /\ trace (Handler.dispatchMessage env msg h)
         = (conversion env msg ++ trace (registered env msg h))%list).
Proof.
  split.
  - intros Hc. rewrite dispatchMessage_eq by (rewrite Hc; discriminate).
    unfold conversion, registered. rewrite Hc, handlers_badNick. reflexivity.
  - intros Hne. rewrite (dispatchMessage_eq _ _ _ Hne). auto.
Qed.

Lemma badNick_after_error_witness :
  Handler.dispatchMessage exampleEnv erroneousNick newIRCHandler =
    mkResult (Some tt) newIRCHandler
      [Do (sendJSON "error"
             (PError (IRCError.mk "irc.example.org" "" "Erroneous Nickname")));
       Do (sendJSON "nick_fail" (PNickFail (NickFail.mk "irc.example.org")))]
  /\ trace (Handler.dispatchMessage exampleEnv erroneousNick newIRCHandler)
     = (conversion exampleEnv erroneousNick
          ++ trace (registered exampleEnv erroneousNick newIRCHandler))%list.
Proof.
  split.
  - exact (proj1 (badNick_after_error exampleEnv erroneousNick newIRCHandler)
             eq_refl).
  - apply (proj2 (badNick_after_error exampleEnv erroneousNick newIRCHandler)).
    discriminate.
Defined.

(** ** Frame rules *)

Section Frame.

Context {X : Type} (P : ircHandler -> X) (Q : Effect -> Prop).

Lemma respects_ret {A} (a : A) : respects P Q (ret a).
Proof. intros h. split; [reflexivity | constructor]. Qed.

Lemma respects_panic {A} : respects P Q (@panic A).
Proof. intros h. split; [reflexivity | constructor]. Qed.

Lemma respects_get : respects P Q get.
Proof. intros h. split; [reflexivity | constructor]. Qed.

Lemma respects_emit e : Q e -> respects P Q (emit e).
Proof. intros He h. split; [reflexivity | by repeat constructor]. Qed.

Lemma respects_modify f : (forall h, P (f h) = P h) -> respects P Q (modify f).
Proof. intros Hf h. split; [apply Hf | constructor]. Qed.

Lemma respects_bind {A B} (m : M A) (k : A -> M B) :
  respects P Q m -> (forall a, respects P Q (k a)) -> respects P Q (bind m k).
Proof.
  intros Hm Hk h. unfold bind. specialize (Hm h).
  destruct (m h) as [[a|] h1 t1]; [|exact Hm].
  specialize (Hk a h1). destruct (k a h1) as [v h2 t2]. simpl in *.
  destruct Hm as [Hm1 Hm2], Hk as [Hk1 Hk2].
  split; [congruence | by apply Forall_app].
Qed.

Lemma respects_index l i : respects P Q (index l i).
Proof.
  unfold index. destruct (l !! i); [apply respects_ret | apply respects_panic].
Qed.

Lemma respects_slice l i : respects P Q (slice_from l i).
Proof.
  unfold slice_from. destruct (i <=? length l)%nat;
    [apply respects_ret | apply respects_panic].
Qed.

Lemma respects_first_byte s : respects P Q (first_byte s).
Proof. destruct s; [apply respects_panic | apply respects_ret]. Qed.

Lemma respects_when b m : respects P Q m -> respects P Q (when b m).
Proof. intros Hm. destruct b; [exact Hm | apply respects_ret]. Qed.

End Frame.

Ltac frame_step :=
  lazymatch goal with
  | |- respects _ _ (bind _ _) => apply respects_bind; [|intros ?]
  | |- respects _ _ (ret _) => apply respects_ret
  | |- respects _ _ panic => apply respects_panic
  | |- respects _ _ get => apply respects_get
  | |- respects _ _ (index _ _) => apply respects_index
  | |- respects _ _ (slice_from _ _) => apply respects_slice
  | |- respects _ _ (first_byte _) => apply respects_first_byte
  | |- respects _ _ (when _ _) => apply respects_when
  | |- respects _ _ (emit _) => apply respects_emit
  | |- respects _ _ (Handler.send _ _) => apply respects_emit
  | |- respects _ _ (Handler.log _ _) => apply respects_emit
  | |- respects _ _ (state_Set _ _) => apply respects_modify; intros ?
  | |- respects _ _ (setPendingDCC _ _) => apply respects_modify; intros ?
  | |- respects _ _ (deletePendingDCC _) => apply respects_modify; intros ?
  | |- respects _ _ (channelIndexes_Set _ _) => apply respects_modify; intros ?
  | |- respects _ _ (modify _) => apply respects_modify; intros ?
  | |- respects _ _ (if ?b then _ else _) => destruct b
  | |- respects _ _ (match ?x with _ => _ end) => destruct x
  end.

Ltac unfold_handlers :=
  unfold Handler.nick, Handler.join, Handler.part, Handler.mode, Handler.message,
    Handler.deliver, Handler.quit, Handler.info, Handler.features,
    Handler.whoisUser, Handler.whoisServer, Handler.whoisChannels, Handler.whoisEnd,
    Handler.topic, Handler.noTopic, Handler.namesEnd, Handler.motdStart,
    Handler.motd, Handler.motdEnd, Handler.list, Handler.listEnd, Handler.badNick,
    Handler.forward, Handler.error, Handler.sendDCCInfo, Handler.progressed,
    Handler.connectionChanged.

Ltac frame :=
  unfold_handlers; cbv beta zeta;
  repeat (first [frame_step | progress unfold_handlers]; cbv beta zeta).

(** Every handler in the table satisfies [R] when each entry does. *)
Lemma table_cases env cmd f (R : string -> (irc.Message -> M unit) -> Prop) :
  Forall (fun cf => R cf.1 cf.2) (Handler.handlerTable env) ->
  Handler.handlers env !! cmd = Some f -> R cmd f.
Proof.
  intros Hall Hl. unfold Handler.handlers in Hl.
  apply elem_of_list_to_map_2 in Hl.
  rewrite Forall_forall in Hall. apply (Hall _ Hl).
Qed.

Ltac each_handler :=
  unfold Handler.handlerTable;
  repeat apply Forall_cons_2; try apply Forall_nil_2; cbn [fst snd].

Lemma dispatchMessage_respects {X} (P : ircHandler -> X) (Q : Effect -> Prop)
    env msg :
  (forall p, Q (Do (sendJSON "error" p))) ->
  (forall f, Handler.handlers env !! irc.Command msg = Some f ->
             respects P Q (f msg)) ->
  respects P Q (Handler.dispatchMessage env msg).
Proof.
  intros HQ Hf. unfold Handler.dispatchMessage.
  destruct (Handler.handlers env !! irc.Command msg) as [f|] eqn:Hl.
  - specialize (Hf f eq_refl). frame; auto.
  - frame; auto.
Qed.

(** ** WHOIS *)

Lemma handlers_whoisUser env :
  Handler.handlers env !! irc.RPL_WHOISUSER = Some Handler.whoisUser.
Proof. apply handlers_lookup. in_table. Qed.

Lemma handlers_whoisEnd env :
  Handler.handlers env !! irc.RPL_ENDOFWHOIS = Some Handler.whoisEnd.
Proof. apply handlers_lookup. in_table. Qed.

Lemma whoisEnd_eq msg h :
  Handler.whoisEnd msg h =
    mkResult (Some tt) (set_whois WhoisReply.zero h)
      (if String.eqb (whoisNick h) "" then []
       else [Do (sendJSON "whois" (PWhois (whois h)))]).
Proof.
  unfold Handler.whoisEnd, whoisNick, bind, get, when, Handler.send, emit, modify, ret.
  destruct (String.eqb (WhoisReply.Nick (whois h)) ""); reflexivity.
Qed.

Lemma whoisUser_eq msg h p1 p2 p3 p5 :
  irc.Params msg !! 1%nat = Some p1 -> irc.Params msg !! 2%nat = Some p2 ->
  irc.Params msg !! 3%nat = Some p3 -> irc.Params msg !! 5%nat = Some p5 ->
  Handler.whoisUser msg h =
    mkResult (Some tt)
      (set_whois (WhoisReply.mk p1 p2 p3 p5 (WhoisReply.Server (whois h))
                    (WhoisReply.Channels (whois h))) h) [].
Proof.
  intros H1 H2 H3 H5.
  unfold Handler.whoisUser, bind, index, modify, ret. rewrite H1, H2, H3, H5.
  reflexivity.
Qed.

Lemma handlers_keep_whoisNick env :
  Forall (fun cf => keepsWhoisNick cf.1 cf.2) (Handler.handlerTable env).
Proof.
  each_handler; unfold keepsWhoisNick; intros Hu He msg; try congruence;
    frame; done.
Qed.

Lemma dispatch_keeps_whoisNick env msg h :
  irc.Command msg <> irc.RPL_WHOISUSER ->
  irc.Command msg <> irc.RPL_ENDOFWHOIS ->
  whoisNick (final (Handler.dispatchMessage env msg h)) = whoisNick h.
Proof.
  intros Hu He.
  apply (dispatchMessage_respects whoisNick (fun _ => True) env msg (fun _ => I)).
  intros f Hf.
  exact (table_cases env _ f keepsWhoisNick (handlers_keep_whoisNick env)
           Hf Hu He msg).
Qed.

Lemma progressed_respects {X} (P : ircHandler -> X) env progress :
  respects P (fun _ => True) (Handler.progressed env progress).
Proof. frame; done. Qed.

Lemma connectionChanged_respects {X} (P : ircHandler -> X) env l state :
  respects P (fun _ => True) (Handler.connectionChanged env l state).
Proof. frame; done. Qed.

Lemma dispatch_whoisEnd env msg h :
  irc.Command msg = irc.RPL_ENDOFWHOIS ->
  Handler.dispatchMessage env msg h = Handler.whoisEnd msg h.
Proof.
  intros Hc. rewrite dispatchMessage_eq by (rewrite Hc; discriminate).
  unfold conversion, registered. rewrite Hc, handlers_whoisEnd.
  cbv zeta. by destruct (Handler.whoisEnd msg h).
Qed.

Lemma dispatch_whoisUser env msg h :
  irc.Command msg = irc.RPL_WHOISUSER ->
  Handler.dispatchMessage env msg h = Handler.whoisUser msg h.
Proof.
  intros Hc. rewrite dispatchMessage_eq by (rewrite Hc; discriminate).
  unfold conversion, registered. rewrite Hc, handlers_whoisUser.
  cbv zeta. by destruct (Handler.whoisUser msg h).
Qed.

(** An invariant of the state that every message of [inputs] maintains is
    maintained by the run loop, however the loop ends. *)
Lemma run_invariant (I : ircHandler -> Prop) inputs :
  (forall env msg h, (env, Handler.Received msg) ∈ inputs -> I h ->
                     I (final (Handler.dispatchMessage env msg h))) ->
  forall l h, I h -> I (final (Handler.run l inputs h)).
Proof.
  induction inputs as [|[env i] inputs IH]; intros Hstep l h Hh; [exact Hh|].
  assert (Hrest : forall env msg h, (env, Handler.Received msg) ∈ inputs -> I h ->
                    I (final (Handler.dispatchMessage env msg h))).
  { intros env' msg h' Hin. apply Hstep. by right. }
  specialize (IH Hrest).
  destruct i as [msg| |state|progress]; cbn [Handler.run]; unfold bind.
  - assert (Hk := Hstep env msg h ltac:(by left) Hh).
    destruct (Handler.dispatchMessage env msg h) as [[[]|] h1 t1];
      cbn [final] in *; [|exact Hk].
    specialize (IH l h1 Hk). by destruct (Handler.run l inputs h1).
  - exact Hh.
  - destruct (connectionChanged_respects (fun h => h) env l state h) as [Hk _].
    destruct (Handler.connectionChanged env l state h) as [[l1|] h1 t1];
      cbn [final] in *; subst h1; [|exact Hh].
    specialize (IH l1 h Hh). by destruct (Handler.run l1 inputs h).
  - destruct (progressed_respects (fun h => h) env progress h) as [Hk _].
    destruct (Handler.progressed env progress h) as [[[]|] h1 t1];
      cbn [final] in *; subst h1; [|exact Hh].
    specialize (IH l h Hh). by destruct (Handler.run l inputs h).
Qed.

Lemma run_keeps_whoisNick inputs l h :
  without [irc.RPL_WHOISUSER; irc.RPL_ENDOFWHOIS] inputs ->
  whoisNick (final (Handler.run l inputs h)) = whoisNick h.
Proof.
  intros Hw.
  apply (run_invariant (fun h' => whoisNick h' = whoisNick h)); [|reflexivity].
  intros env msg h1 Hin Hh1.
  assert (Hc : irc.Command msg ∉ [irc.RPL_WHOISUSER; irc.RPL_ENDOFWHOIS]).
  { apply (Hw (env, Handler.Received msg)); [exact Hin | reflexivity]. }
  rewrite !not_elem_of_cons in Hc. destruct Hc as (Hu & He & _).
  by rewrite dispatch_keeps_whoisNick.
Qed.

Lemma run_keeps_no_whoisNick inputs l h :
  without [irc.RPL_WHOISUSER] inputs ->
  whoisNick h = "" ->
  whoisNick (final (Handler.run l inputs h)) = "".
Proof.
  intros Hw. apply (run_invariant (fun h' => whoisNick h' = "")).
  intros env msg h1 Hin Hh1.
  assert (Hc : irc.Command msg ∉ [irc.RPL_WHOISUSER]).
  { apply (Hw (env, Handler.Received msg)); [exact Hin | reflexivity]. }
  rewrite !not_elem_of_cons in Hc. destruct Hc as (Hu & _).
  destruct (String.eqb_spec (irc.Command msg) irc.RPL_ENDOFWHOIS) as [He|He].
  - rewrite dispatch_whoisEnd, whoisEnd_eq by exact He. reflexivity.
  - by rewrite dispatch_keeps_whoisNick.
Qed.

(** C2.  An end-of-WHOIS message always returns and leaves the WHOIS
    accumulator empty; it emits a "whois" event, carrying the
    accumulator, exactly when the accumulator's nick is not empty.  After
    a whois-user message, and whatever else arrives before the end marker,
    that nick is the message's nick parameter as it was received, and it
    is the nick of the event the end marker emits; with no whois-user
    message since the accumulator's nick was last empty, the end marker
    emits nothing. *)
Theorem whois_end_marker :
  (forall env msg h,
     irc.Command msg = irc.RPL_ENDOFWHOIS ->
     let r := Handler.dispatchMessage env msg h in
     value r = Some tt
     /\ final r = set_whois WhoisReply.zero h
     /\ whois (final r) = WhoisReply.zero
     /\ trace r = (if String.eqb (whoisNick h) "" then []
                   else [Do (sendJSON "whois" (PWhois (whois h)))])
     /\ (emitsEvent "whois" (trace r) <-> whoisNick h <> ""))
  /\ (forall env env' user nick l inputs h endMsg,
        irc.Command user = irc.RPL_WHOISUSER ->
        (6 <= length (irc.Params user))%nat ->
        irc.Params user !! 1%nat = Some nick ->
        without [irc.RPL_WHOISUSER; irc.RPL_ENDOFWHOIS] inputs ->
        irc.Command endMsg = irc.RPL_ENDOFWHOIS ->
        let h2 := final (Handler.run l inputs
                           (final (Handler.dispatchMessage env user h))) in
        WhoisReply.Nick (whois h2) = nick
        /\ (nick <> "" ->
            trace (Handler.dispatchMessage env' endMsg h2)
            = [Do (sendJSON "whois" (PWhois (whois h2)))]))
  /\ (forall env l inputs h endMsg,
        whoisNick h = "" ->
        without [irc.RPL_WHOISUSER] inputs ->
        irc.Command endMsg = irc.RPL_ENDOFWHOIS ->
        let h2 := final (Handler.run l inputs h) in
        whoisNick h2 = ""
        /\ trace (Handler.dispatchMessage env endMsg h2) = []).
Proof.
  split; [|split].
  - intros env msg h Hc r. subst r.
    rewrite dispatch_whoisEnd, whoisEnd_eq by exact Hc. cbn [value final trace].
    repeat split.
    + destruct (String.eqb_spec (whoisNick h) "") as [Hn|Hn]; [|done].
      intros (p & [H|H]); by apply elem_of_nil in H.
    + intros Hn. destruct (String.eqb_spec (whoisNick h) "") as [|_]; [done|].
      exists (PWhois (whois h)). left. apply list_elem_of_here.
  - intros env env' user nick l inputs h endMsg Hc Hlen Hnick Hw He h2.
    assert (Hn : whoisNick h2 = nick).
    { subst h2. rewrite run_keeps_whoisNick by exact Hw.
      destruct (lookup_lt_is_Some_2 (irc.Params user) 2) as [p2 H2]; [lia|].
      destruct (lookup_lt_is_Some_2 (irc.Params user) 3) as [p3 H3]; [lia|].
      destruct (lookup_lt_is_Some_2 (irc.Params user) 5) as [p5 H5]; [lia|].
      rewrite dispatch_whoisUser by exact Hc.
      by rewrite (whoisUser_eq user h nick p2 p3 p5). }
    split; [exact Hn|]. intros Hne.
    rewrite dispatch_whoisEnd, whoisEnd_eq by exact He. cbn [trace].
    rewrite Hn. by destruct (String.eqb_spec nick "").
  - intros env l inputs h endMsg Hn Hw He h2.
    assert (Hn2 : whoisNick h2 = "") by (by apply run_keeps_no_whoisNick).
    split; [exact Hn2|].
    rewrite dispatch_whoisEnd, whoisEnd_eq by exact He. cbn [trace].
    by rewrite Hn2.
Qed.

Lemma whois_end_marker_witness :
  (let h2 := final (Handler.run None
                      [(exampleEnv, Handler.Received whoisServerMsg)]
                      (final (Handler.dispatchMessage exampleEnv whoisUserMsg
                                newIRCHandler))) in
   WhoisReply.Nick (whois h2) = "bob"
   /\ ("bob" <> "" ->
       trace (Handler.dispatchMessage exampleEnv whoisEndMsg h2)
       = [Do (sendJSON "whois" (PWhois (whois h2)))]))
  /\ (let h2 := final (Handler.run None
                         [(exampleEnv, Handler.Received whoisServerMsg)]
                         newIRCHandler) in
      whoisNick h2 = ""
      /\ trace (Handler.dispatchMessage exampleEnv whoisEndMsg h2) = [])
  /\ value (Handler.dispatchMessage exampleEnv whoisEndMsg newIRCHandler) = Some tt.
Proof.
  split; [|split].
  - apply (proj1 (proj2 whois_end_marker) exampleEnv exampleEnv whoisUserMsg "bob");
      [reflexivity | simpl; lia | reflexivity | | reflexivity].
    intros i c Hi Hc. apply list_elem_of_singleton in Hi. subst i.
    injection Hc as <-. rewrite !not_elem_of_cons. repeat split; try discriminate.
    apply not_elem_of_nil.
  - apply (proj2 (proj2 whois_end_marker)); [reflexivity | | reflexivity].
    intros i c Hi Hc. apply list_elem_of_singleton in Hi. subst i.
    injection Hc as <-. rewrite !not_elem_of_cons. split; [discriminate|].
    apply not_elem_of_nil.
  - apply (proj1 whois_end_marker exampleEnv whoisEndMsg newIRCHandler eq_refl).
Defined.

(** ** MOTD *)

Lemma dispatch_registered env msg (f : irc.Message -> M unit) h :
  Handler.handlers env !! irc.Command msg = Some f ->
  conversion env msg = [] ->
  irc.Command msg <> "" ->
  Handler.dispatchMessage env msg h = f msg h.
Proof.
  intros Hf Hconv Hne. rewrite (dispatchMessage_eq _ _ _ Hne).
  unfold registered. rewrite Hf, Hconv. cbv zeta. by destruct (f msg h).
Qed.

Lemma dispatch_motdStart env msg h :
  irc.Command msg = irc.RPL_MOTDSTART ->
  Handler.dispatchMessage env msg h =
    mkResult (Some tt)
      (set_motdBuffer (MOTD.mk (Host env) (irc.LastParam msg) (motdContent h)) h) [].
Proof.
  intros Hc.
  rewrite (dispatch_registered env msg (Handler.motdStart env)).
  - reflexivity.
  - rewrite Hc. apply handlers_lookup. in_table.
  - unfold conversion. rewrite Hc. reflexivity.
  - rewrite Hc. discriminate.
Qed.

Lemma dispatch_motd env msg h :
  irc.Command msg = irc.RPL_MOTD ->
  Handler.dispatchMessage env msg h =
    mkResult (Some tt)
      (set_motdBuffer (MOTD.mk (MOTD.Server (motdBuffer h))
                         (MOTD.Title (motdBuffer h))
                         (motdContent h ++ [irc.LastParam msg])) h) [].
Proof.
  intros Hc.
  rewrite (dispatch_registered env msg Handler.motd).
  - reflexivity.
  - rewrite Hc. apply handlers_lookup. in_table.
  - unfold conversion. rewrite Hc. reflexivity.
  - rewrite Hc. discriminate.
Qed.

Lemma dispatch_motdEnd env msg h :
  irc.Command msg = irc.RPL_ENDOFMOTD ->
  Handler.dispatchMessage env msg h =
    mkResult (Some tt) (set_motdBuffer MOTD.zero h)
      [Do (sendJSON "motd" (PMOTD (motdBuffer h)))].
Proof.
  intros Hc.
  rewrite (dispatch_registered env msg Handler.motdEnd).
  - reflexivity.
  - rewrite Hc. apply handlers_lookup. in_table.
  - unfold conversion. rewrite Hc. reflexivity.
  - rewrite Hc. discriminate.
Qed.

Lemma handlers_keep_motdContent env :
  Forall (fun cf => keepsMotdContent cf.1 cf.2) (Handler.handlerTable env).
Proof.
  each_handler; unfold keepsMotdContent; intros Hu He msg; try congruence;
    frame; done.
Qed.

Lemma dispatch_motdStep env msg h :
  motdContent (final (Handler.dispatchMessage env msg h))
  = motdStep (motdContent h) msg.
Proof.
  unfold motdStep.
  destruct (String.eqb_spec (irc.Command msg) irc.RPL_MOTD) as [Hl|Hl];
    [by rewrite dispatch_motd|].
  destruct (String.eqb_spec (irc.Command msg) irc.RPL_ENDOFMOTD) as [He|He];
    [by rewrite dispatch_motdEnd|].
  apply (dispatchMessage_respects motdContent (fun _ => True) env msg (fun _ => I)).
  intros f Hf.
  exact (table_cases env _ f keepsMotdContent (handlers_keep_motdContent env)
           Hf Hl He msg).
Qed.

Lemma run_received_motdContent ems : forall l h l',
  value (Handler.run l (received ems) h) = Some l' ->
  motdContent (final (Handler.run l (received ems) h))
  = fold_left motdStep (map snd ems) (motdContent h).
Proof.
  induction ems as [|[env msg] ems IH]; intros l h l' Hv; [reflexivity|].
  cbn [received map Handler.run fst snd fold_left] in *.
  fold (received ems) in *. unfold bind in *.
  pose proof (dispatch_motdStep env msg h) as Hs.
  destruct (Handler.dispatchMessage env msg h) as [[[]|] h1 t1];
    cbn [final value] in *; [|discriminate].
  specialize (IH l h1 l').
  destruct (Handler.run l (received ems) h1) as [v2 h2 t2].
  cbn [final value] in *. rewrite IH by exact Hv. by rewrite Hs.
Qed.

Lemma sinceLast_snoc cmd msgs m :
  sinceLast cmd (msgs ++ [m])
  = if String.eqb (irc.Command m) cmd then [] else (sinceLast cmd msgs ++ [m])%list.
Proof. unfold sinceLast. by rewrite fold_left_app. Qed.

Lemma motdLines_snoc msgs m :
  motdLines (msgs ++ [m])
  = (motdLines msgs
       ++ (if String.eqb (irc.Command m) irc.RPL_MOTD then [irc.LastParam m] else []))%list.
Proof.
  unfold motdLines. rewrite List.filter_app, map_app. simpl.
  by destruct (String.eqb (irc.Command m) irc.RPL_MOTD).
Qed.

Lemma motdStep_sinceLast msgs :
  fold_left motdStep msgs [] = motdLines (sinceLast irc.RPL_ENDOFMOTD msgs).
Proof.
  induction msgs as [|m msgs IH] using rev_ind; [reflexivity|].
  rewrite fold_left_app, sinceLast_snoc. cbn [fold_left]. rewrite IH.
  unfold motdStep.
  destruct (String.eqb_spec (irc.Command m) irc.RPL_MOTD) as [Hl|Hl].
  - rewrite Hl. change (irc.RPL_MOTD =? irc.RPL_ENDOFMOTD) with false.
    cbv iota. rewrite motdLines_snoc, Hl. reflexivity.
  - destruct (String.eqb (irc.Command m) irc.RPL_ENDOFMOTD); [reflexivity|].
    rewrite motdLines_snoc.
    destruct (String.eqb_spec (irc.Command m) irc.RPL_MOTD); [done|].
    by rewrite app_nil_r.
Qed.

(** C7, as amended.  A start message sets the buffer's server and title
    and keeps the lines already buffered; a line message appends its last
    parameter; an end message always emits exactly one "motd" event
    carrying the buffer, and leaves the buffer empty.  Over any run of
    messages that starts with no buffered lines, the buffered content is,
    in arrival order, the last parameters of the line messages received
    since the last end message (or since the beginning when there was
    none), so that many lines are in the event of the next end message. *)
Theorem motd_flush :
  (forall env msg h,
     irc.Command msg = irc.RPL_MOTDSTART ->
     Handler.dispatchMessage env msg h =
       mkResult (Some tt)
         (set_motdBuffer (MOTD.mk (Host env) (irc.LastParam msg) (motdContent h)) h)
         [])
  /\ (forall env msg h,
        irc.Command msg = irc.RPL_MOTD ->
        Handler.dispatchMessage env msg h =
          mkResult (Some tt)
            (set_motdBuffer (MOTD.mk (MOTD.Server (motdBuffer h))
                               (MOTD.Title (motdBuffer h))
                               (motdContent h ++ [irc.LastParam msg])) h) [])
  /\ (forall env msg h,
        irc.Command msg = irc.RPL_ENDOFMOTD ->
        Handler.dispatchMessage env msg h =
          mkResult (Some tt) (set_motdBuffer MOTD.zero h)
            [Do (sendJSON "motd" (PMOTD (motdBuffer h)))])
  /\ (forall ems l h l',
        motdContent h = [] ->
        value (Handler.run l (received ems) h) = Some l' ->
        motdContent (final (Handler.run l (received ems) h))
        = motdLines (sinceLast irc.RPL_ENDOFMOTD (map snd ems))).
Proof.
  split; [|split; [|split]].
  - apply dispatch_motdStart.
  - apply dispatch_motd.
  - apply dispatch_motdEnd.
  - intros ems l h l' Hempty Hv.
    rewrite (run_received_motdContent ems l h l' Hv), Hempty.
    apply motdStep_sinceLast.
Qed.

Lemma motd_flush_witness :
  Handler.dispatchMessage exampleEnv (motdStartMsg "- server message") newIRCHandler
  = mkResult (Some tt)
      (set_motdBuffer (MOTD.mk "irc.example.org" "- server message" []) newIRCHandler)
      []
  /\ motdContent
       (final (Handler.run None
                 (received [(exampleEnv, motdStartMsg "t");
                            (exampleEnv, motdLineMsg "a");
                            (exampleEnv, motdLineMsg "b")])
                 newIRCHandler))
     = ["a"; "b"].
Proof.
  split.
  - exact (proj1 motd_flush exampleEnv (motdStartMsg "- server message")
             newIRCHandler eq_refl).
  - exact (proj2 (proj2 (proj2 motd_flush))
             [(exampleEnv, motdStartMsg "t"); (exampleEnv, motdLineMsg "a");
              (exampleEnv, motdLineMsg "b")]
             None newIRCHandler None eq_refl eq_refl).
Defined.

(** C7 as written fails: lines that arrived before the start message are
    still in the event, so its content is not the lines "since the last
    start". *)
Lemma motd_since_start_counterexample :
  let msgs := [motdLineMsg "a"; motdStartMsg "t"; motdLineMsg "b"] in
  let h := final (Handler.run None (received (map (pair exampleEnv) msgs))
                    newIRCHandler) in
  let content := ["a"; "b"] in
  trace (Handler.dispatchMessage exampleEnv motdEndMsg h)
  = [Do (sendJSON "motd" (PMOTD (MOTD.mk "irc.example.org" "t" content)))]
  /\ motdLines (sinceLast irc.RPL_MOTDSTART msgs) = ["b"]
  /\ length content <> length (motdLines (sinceLast irc.RPL_MOTDSTART msgs)).
Proof. vm_compute. repeat split; discriminate. Qed.

(** ** Connection-state logging *)

Lemma substring_all s : String.substring 0 (String.length s) s = s.
Proof. induction s as [|c s IH]; simpl; [reflexivity | by rewrite IH]. Qed.

Lemma prefix_append p e : String.prefix p (p +:+ e) = true.
Proof.
  induction p as [|c p IH].
  - by destruct e.
  - change (String c p +:+ e) with (String c (p +:+ e)). cbn [String.prefix].
    destruct (ascii_dec c c); [exact IH | congruence].
Qed.

Lemma substring_append p e :
  String.substring (String.length p) (String.length (p +:+ e) - String.length p)
    (p +:+ e) = e.
Proof.
  induction p as [|c p IH].
  - change ("" +:+ e) with e. cbn [String.length]. rewrite Nat.sub_0_r.
    apply substring_all.
  - change (String c p +:+ e) with (String c (p +:+ e)).
    cbn [String.length String.substring Nat.sub]. exact IH.
Qed.

Lemma loggedError_errorLine env e : loggedError (errorLine env e) = Some e.
Proof.
  unfold loggedError, errorLine.
  rewrite prefix_append.
  change 17%nat with (String.length "Connection error:").
  by rewrite substring_append.
Qed.

Lemma loggedError_connectedLine env : loggedError (connectedLine env) = None.
Proof. reflexivity. Qed.

Lemma loggedErrors_app t1 t2 :
  loggedErrors (t1 ++ t2) = (loggedErrors t1 ++ loggedErrors t2)%list.
Proof.
  induction t1 as [|e t1 IH]; simpl; [reflexivity|].
  destruct (loggedError e); simpl; by rewrite IH.
Qed.

Lemma loggedErrors_quiet tr : Forall quiet tr -> loggedErrors tr = [].
Proof.
  induction 1 as [|e tr He _ IH]; simpl; [reflexivity|].
  unfold quiet in He. by rewrite He.
Qed.

Lemma connectionChanged_eq env l state h :
  Handler.connectionChanged env l state h =
    match irc.Error state with
    | Some e =>
        if bool_decide (l = Some e) then
          mkResult (Some l) h
            (connectionEvents env state
               ++ if irc.Connected state then [connectedLine env] else [])
        else
          mkResult (Some (Some e)) h (connectionEvents env state ++ [errorLine env e])
    | None =>
        mkResult (Some l) h
          (connectionEvents env state
             ++ if irc.Connected state then [connectedLine env] else [])
    end.
Proof.
  unfold Handler.connectionChanged, Handler.log, Handler.send, bind, emit, ret.
  destruct (irc.Error state) as [e|]; [destruct l as [e'|]|].
  - destruct (String.eqb_spec e e') as [->|Hne].
    + rewrite bool_decide_eq_true_2 by reflexivity.
      by destruct (irc.Connected state).
    + rewrite bool_decide_eq_false_2 by congruence. reflexivity.
  - rewrite bool_decide_eq_false_2 by discriminate. reflexivity.
  - by destruct (irc.Connected state).
Qed.

Lemma handlers_never_log env :
  Forall (fun cf => neverLogs cf.1 cf.2) (Handler.handlerTable env).
Proof. each_handler; unfold neverLogs; intros msg; frame; reflexivity. Qed.

Lemma dispatch_logs_nothing env msg h :
  loggedErrors (trace (Handler.dispatchMessage env msg h)) = [].
Proof.
  apply loggedErrors_quiet.
  apply (dispatchMessage_respects (fun _ => tt) quiet env msg); [reflexivity|].
  intros f Hf.
  exact (table_cases env _ f neverLogs (handlers_never_log env) Hf msg).
Qed.

Lemma progressed_logs_nothing env progress h :
  loggedErrors (trace (Handler.progressed env progress h)) = [].
Proof.
  apply loggedErrors_quiet.
  assert (H : respects (fun _ => tt) quiet (Handler.progressed env progress))
    by (frame; reflexivity).
  apply H.
Qed.

Lemma connectionChanged_logs env l state h :
  loggedErrors (trace (Handler.connectionChanged env l state h))
  = match irc.Error state with
    | Some e => if bool_decide (l = Some e) then [] else [e]
    | None => []
    end.
Proof.
  rewrite connectionChanged_eq.
  destruct (irc.Error state) as [e|]; [case_bool_decide|]; cbn [trace];
    rewrite loggedErrors_app; cbn [connectionEvents loggedErrors loggedError].
  - by destruct (irc.Connected state).
  - by rewrite loggedError_errorLine.
  - by destruct (irc.Connected state).
Qed.

Lemma connectionChanged_value env l state h :
  value (Handler.connectionChanged env l state h)
  = Some (match irc.Error state with
          | Some e => Some e
          | None => l
          end)
  /\ final (Handler.connectionChanged env l state h) = h.
Proof.
  rewrite connectionChanged_eq.
  destruct (irc.Error state) as [e|]; [case_bool_decide|]; cbn [value final];
    split; congruence.
Qed.

(** [lastConnErr] is the text of the most recently logged error. *)
Lemma run_lastConnErr inputs : forall l h l',
  value (Handler.run l inputs h) = Some l' ->
  l' = match lastLoggedError (trace (Handler.run l inputs h)) with
       | Some e => Some e
       | None => l
       end.
Proof.
  unfold lastLoggedError.
  induction inputs as [|[env i] inputs IH]; intros l h l' Hv.
  - by injection Hv as <-.
  - destruct i as [msg| |state|progress]; cbn [Handler.run] in *; unfold bind in *.
    + pose proof (dispatch_logs_nothing env msg h) as Hq.
      destruct (Handler.dispatchMessage env msg h) as [[[]|] h1 t1];
        cbn [trace value] in *; [|discriminate].
      specialize (IH l h1 l').
      destruct (Handler.run l inputs h1) as [v2 h2 t2]; cbn [trace value] in *.
      rewrite loggedErrors_app, Hq. by apply IH.
    + by injection Hv as <-.
    + pose proof (connectionChanged_logs env l state h) as Hq.
      destruct (connectionChanged_value env l state h) as [Hval _].
      destruct (Handler.connectionChanged env l state h) as [[l1|] h1 t1];
        cbn [trace value] in *; [|discriminate].
      injection Hval as Hl1.
      specialize (IH l1 h1 l').
      destruct (Handler.run l1 inputs h1) as [v2 h2 t2]; cbn [trace value] in *.
      rewrite loggedErrors_app, Hq. specialize (IH Hv). subst l1.
      destruct (irc.Error state) as [e|]; [case_bool_decide as Hd|]; simpl.
      * rewrite Hd. exact IH.
      * rewrite IH. destruct (loggedErrors t2) as [|x xs] eqn:Hx; [reflexivity|].
        rewrite last_cons_cons.
        destruct (last (x :: xs)) eqn:Hlast; [reflexivity|].
        by apply last_None in Hlast.
      * exact IH.
    + pose proof (progressed_logs_nothing env progress h) as Hq.
      destruct (Handler.progressed env progress h) as [[[]|] h1 t1];
        cbn [trace value] in *; [|discriminate].
      specialize (IH l h1 l').
      destruct (Handler.run l inputs h1) as [v2 h2 t2]; cbn [trace value] in *.
      rewrite loggedErrors_app, Hq. by apply IH.
Qed.

Lemma noRepeat_short l : (length l <= 1)%nat -> noRepeat l.
Proof.
  intros Hl i a b Ha Hb. apply lookup_lt_Some in Hb. lia.
Qed.

Lemma noRepeat_cons a b xs : a <> b -> noRepeat (b :: xs) -> noRepeat (a :: b :: xs).
Proof.
  intros Hab Hxs [|i] x y Hx Hy; simpl in *.
  - congruence.
  - by apply (Hxs i).
Qed.

Lemma run_noRepeat inputs : forall l h,
  noRepeat (option_list l ++ loggedErrors (trace (Handler.run l inputs h))).
Proof.
  induction inputs as [|[env i] inputs IH]; intros l h.
  - apply noRepeat_short. destruct l; simpl; lia.
  - destruct i as [msg| |state|progress]; cbn [Handler.run]; unfold bind.
    + pose proof (dispatch_logs_nothing env msg h) as Hq.
      destruct (Handler.dispatchMessage env msg h) as [[[]|] h1 t1];
        cbn [trace] in *.
      * specialize (IH l h1). destruct (Handler.run l inputs h1) as [v2 h2 t2].
        cbn [trace] in *. by rewrite loggedErrors_app, Hq.
      * rewrite Hq. apply noRepeat_short. destruct l; simpl; lia.
    + apply noRepeat_short. destruct l; simpl; lia.
    + pose proof (connectionChanged_logs env l state h) as Hq.
      destruct (connectionChanged_value env l state h) as [Hval _].
      destruct (Handler.connectionChanged env l state h) as [[l1|] h1 t1];
        cbn [trace value] in *; [|discriminate].
      injection Hval as Hl1. specialize (IH l1 h1).
      destruct (Handler.run l1 inputs h1) as [v2 h2 t2]. cbn [trace] in *.
      rewrite loggedErrors_app, Hq. subst l1.
      destruct (irc.Error state) as [e|]; [case_bool_decide as Hd|]; simpl.
      * by rewrite Hd.
      * destruct l as [e'|]; simpl in *; [|exact IH].
        apply noRepeat_cons; [congruence | exact IH].
      * exact IH.
    + pose proof (progressed_logs_nothing env progress h) as Hq.
      destruct (Handler.progressed env progress h) as [[[]|] h1 t1];
        cbn [trace] in *.
      * specialize (IH l h1). destruct (Handler.run l inputs h1) as [v2 h2 t2].
        cbn [trace] in *. by rewrite loggedErrors_app, Hq.
      * rewrite Hq. apply noRepeat_short. destruct l; simpl; lia.
Qed.

(** A run that came through [pre] goes on with what follows. *)
Lemma run_app pre post : forall l h l1,
  value (Handler.run l pre h) = Some l1 ->
  forallb (fun i => negb (isClosed i)) pre = true ->
  Handler.run l (pre ++ post) h =
    let r := Handler.run l pre h in
    let r' := Handler.run l1 post (final r) in
    mkResult (value r') (final r') (trace r ++ trace r').
Proof.
  induction pre as [|[env i] pre IH]; intros l h l1 Hv Hc.
  - injection Hv as <-. simpl. by destruct (Handler.run l post h).
  - cbn [forallb] in Hc. apply andb_true_iff in Hc as [Hi Hc].
    destruct i as [msg| |state|progress]; [| discriminate | |];
      cbn [app Handler.run] in *; unfold bind in *.
    + destruct (Handler.dispatchMessage env msg h) as [[[]|] h1 t1];
        [|discriminate].
      specialize (IH l h1 l1). cbv zeta in IH.
      destruct (Handler.run l (pre ++ post) h1) as [v3 h3 t3].
      destruct (Handler.run l pre h1) as [v2 h2 t2]. cbn [value final trace] in *.
      specialize (IH Hv Hc). destruct (Handler.run l1 post h2) as [v4 h4 t4].
      cbn [value final trace] in *. injection IH as -> -> ->.
      by rewrite app_assoc.
    + destruct (Handler.connectionChanged env l state h) as [[l2|] h1 t1];
        [|discriminate].
      specialize (IH l2 h1 l1). cbv zeta in IH.
      destruct (Handler.run l2 (pre ++ post) h1) as [v3 h3 t3].
      destruct (Handler.run l2 pre h1) as [v2 h2 t2]. cbn [value final trace] in *.
      specialize (IH Hv Hc). destruct (Handler.run l1 post h2) as [v4 h4 t4].
      cbn [value final trace] in *. injection IH as -> -> ->.
      by rewrite app_assoc.
    + destruct (Handler.progressed env progress h) as [[[]|] h1 t1];
        [|discriminate].
      specialize (IH l h1 l1). cbv zeta in IH.
      destruct (Handler.run l (pre ++ post) h1) as [v3 h3 t3].
      destruct (Handler.run l pre h1) as [v2 h2 t2]. cbn [value final trace] in *.
      specialize (IH Hv Hc). destruct (Handler.run l1 post h2) as [v4 h4 t4].
      cbn [value final trace] in *. injection IH as -> -> ->.
      by rewrite app_assoc.
Qed.

(** C8.  A state change that carries an error logs it exactly when its
    text differs from [lastConnErr] (or none is recorded), and then
    records it; [lastConnErr] is, throughout the run loop, the text of the
    most recently logged error.  So after any inputs, a state change with
    an error adds an error line to the log if and only if its text differs
    from the most recently logged one, and no two successive error lines
    of the log carry the same text.  A state change without an error that
    reports connected always logs the success line. *)
Theorem connection_logging :
  (forall env l state h e,
     irc.Error state = Some e ->
     (l <> Some e ->
      Handler.connectionChanged env l state h
      = mkResult (Some (Some e)) h
          (connectionEvents env state ++ [errorLine env e]))
     /\ (l = Some e ->
         value (Handler.connectionChanged env l state h) = Some l
         /\ loggedErrors (trace (Handler.connectionChanged env l state h)) = []))
  /\ (forall env l state h,
        irc.Error state = None -> irc.Connected state = true ->
        Handler.connectionChanged env l state h
        = mkResult (Some l) h (connectionEvents env state ++ [connectedLine env]))
  /\ (forall inputs h l',
        value (Handler.run None inputs h) = Some l' ->
        l' = lastLoggedError (trace (Handler.run None inputs h)))
  /\ (forall pre env state e h l',
        value (Handler.run None pre h) = Some l' ->
        forallb (fun i => negb (isClosed i)) pre = true ->
        irc.Error state = Some e ->
        loggedErrors
          (trace (Handler.run None (pre ++ [(env, Handler.ConnectionChanged state)]) h))
        = (loggedErrors (trace (Handler.run None pre h))
           ++ if bool_decide (lastLoggedError (trace (Handler.run None pre h)) = Some e)
              then [] else [e])%list)
  /\ (forall inputs h,
        noRepeat (loggedErrors (trace (Handler.run None inputs h)))).
Proof.
  split; [|split; [|split; [|split]]].
  - intros env l state h e He. rewrite connectionChanged_eq, He. split.
    + intros Hne. by rewrite bool_decide_eq_false_2.
    + intros Heq. rewrite bool_decide_eq_true_2 by exact Heq. cbn [value trace].
      split; [reflexivity|]. rewrite loggedErrors_app.
      by destruct (irc.Connected state).
  - intros env l state h He Hc. by rewrite connectionChanged_eq, He, Hc.
  - intros inputs h l' Hv. rewrite (run_lastConnErr inputs None h l' Hv).
    by destruct (lastLoggedError _).
  - intros pre env state e h l' Hv Hc He.
    rewrite (run_app pre _ None h l' Hv Hc). cbv zeta. cbn [trace Handler.run].
    rewrite loggedErrors_app. f_equal.
    assert (Hl : l' = lastLoggedError (trace (Handler.run None pre h))).
    { rewrite (run_lastConnErr pre None h l' Hv) at 1.
      by destruct (lastLoggedError _). }
    rewrite <- Hl.
    pose proof (connectionChanged_logs env l' state (final (Handler.run None pre h)))
      as Hq.
    unfold bind.
    destruct (Handler.connectionChanged env l' state _) as [[l2|] h2 t2];
      cbn [ret trace] in *; rewrite ?app_nil_r, Hq, He; reflexivity.
  - intros inputs h. apply (run_noRepeat inputs None h).
Qed.

Lemma connection_logging_witness :
  Handler.connectionChanged exampleEnv None refused newIRCHandler
  = mkResult (Some (Some "connection refused")) newIRCHandler
      (connectionEvents exampleEnv refused
         ++ [errorLine exampleEnv "connection refused"])
  /\ loggedErrors
       (trace (Handler.connectionChanged exampleEnv (Some "connection refused")
                 refused newIRCHandler)) = []
  /\ Handler.connectionChanged exampleEnv (Some "connection refused") connected
       newIRCHandler
     = mkResult (Some (Some "connection refused")) newIRCHandler
         (connectionEvents exampleEnv connected ++ [connectedLine exampleEnv])
  /\ loggedErrors
       (trace (Handler.run None
                 ([(exampleEnv, Handler.ConnectionChanged refused)]
                    ++ [(exampleEnv, Handler.ConnectionChanged refused)])
                 newIRCHandler))
     = ["connection refused"].
Proof.
  split; [|split; [|split]].
  - apply (proj1 (proj1 connection_logging exampleEnv None refused newIRCHandler
                    "connection refused" eq_refl)).
    discriminate.
  - apply (proj2 (proj1 connection_logging exampleEnv (Some "connection refused")
                    refused newIRCHandler "connection refused" eq_refl)).
    reflexivity.
  - apply (proj1 (proj2 connection_logging)); reflexivity.
  - exact (proj1 (proj2 (proj2 (proj2 connection_logging)))
             [(exampleEnv, Handler.ConnectionChanged refused)] exampleEnv refused
             "connection refused" newIRCHandler (Some "connection refused")
             eq_refl eq_refl eq_refl).
Defined.

(** ** Messages and notices *)

Lemma deliver_eq env msg h target rest :
  irc.Params msg = target :: rest ->
  Handler.deliver env msg h =
    let id := NewGuid env (guids h) in
    mkResult (Some tt) (set_guids (S (guids h)) h)
      ((if Is env target then
          Do (sendJSON "pm"
                (PMessage (Message.mk id (Host env) (irc.Sender msg) ""
                             (irc.LastParam msg))))
            :: (if IsFromServer env msg then []
                else [Do (AddOpenDM (Host env) (irc.Sender msg))])
        else
          [Do (sendJSON "message"
                 (PMessage (Message.mk id (Host env) (irc.Sender msg) target
                              (irc.LastParam msg))))])
       ++ (if negb (String.eqb (effectiveTarget env msg target) "*")
              && negb (IsFromServer env msg)
           then [persist env msg id (effectiveTarget env msg target)]
           else [])).
Proof.
  intros Hp.
  unfold Handler.deliver, effectiveTarget, persist, bind, get, modify, index,
    Handler.send, emit, when, ret.
  rewrite Hp. cbn [lookup list_lookup].
  destruct (Is env target), (IsFromServer env msg); cbn;
    try destruct (String.eqb _ "*"); reflexivity.
Qed.

Lemma message_delivers env msg :
  (ToCTCP env msg = None
   \/ exists c, ToCTCP env msg = Some c /\ irc.ctcp_Command c = "ACTION") ->
  Handler.message env msg = Handler.deliver env msg.
Proof.
  unfold Handler.message. intros [->|(c & -> & Hc)]; [reflexivity|].
  by rewrite Hc.
Qed.

(** C3.  A message or notice that is not CTCP, or is a CTCP action, and
    has a target parameter: when the target is the session's own
    identity a "pm" event is emitted, the sender is registered as an open
    conversation unless the message is from the server, and the storage
    target is the sender; otherwise a "message" event with the target
    channel is emitted and no "pm" event.  The message is persisted
    exactly when the storage target is not [*] and the message is not
    from the server. *)
Theorem message_routing env msg h target rest :
  irc.Params msg = target :: rest ->
  (ToCTCP env msg = None
   \/ exists c, ToCTCP env msg = Some c /\ irc.ctcp_Command c = "ACTION") ->
  let r := Handler.message env msg h in
  let id := NewGuid env (guids h) in
  let to := effectiveTarget env msg target in
  let stored := if negb (String.eqb to "*") && negb (IsFromServer env msg)
                then [persist env msg id to] else [] in
  value r = Some tt
  /\ final r = set_guids (S (guids h)) h
  /\ (Is env target = true ->
      to = irc.Sender msg
      /\ trace r
         = (Do (sendJSON "pm"
                  (PMessage (Message.mk id (Host env) (irc.Sender msg) ""
                               (irc.LastParam msg))))
              :: (if IsFromServer env msg then []
                  else [Do (AddOpenDM (Host env) (irc.Sender msg))])
              ++ stored)%list)
  /\ (Is env target = false ->
      to = target
      /\ trace r
         = Do (sendJSON "message"
                 (PMessage (Message.mk id (Host env) (irc.Sender msg) target
                              (irc.LastParam msg))))
             :: stored
      /\ ~ emitsEvent "pm" (trace r))
  /\ (persisted (trace r) <-> to <> "*" /\ IsFromServer env msg = false).
Proof.
  intros Hp Hctcp r id to stored. subst r.
  rewrite (message_delivers env msg Hctcp), (deliver_eq env msg h target rest Hp).
  cbv zeta. cbn [value final trace]. fold id. fold to. fold stored.
  assert (Hstored : forall e, e ∈ stored -> e = persist env msg id to
                                          /\ to <> "*" /\ IsFromServer env msg = false).
  { intros e He. subst stored.
    destruct (String.eqb_spec to "*") as [|Hne]; [by apply elem_of_nil in He|].
    destruct (IsFromServer env msg); [by apply elem_of_nil in He|].
    apply list_elem_of_singleton in He. auto. }
  assert (Hyes : to <> "*" -> IsFromServer env msg = false ->
                 stored = [persist env msg id to]).
  { intros Hne Hfs. subst stored. rewrite Hfs.
    by destruct (String.eqb_spec to "*"). }
  split; [reflexivity|]. split; [reflexivity|].
  unfold effectiveTarget in to.
  destruct (Is env target) eqn:HIs; (split; [|split]); try discriminate.
  - intros _. split; reflexivity.
  - split.
    + intros (m & [H|H]).
      * apply elem_of_cons in H as [H|H]; [discriminate|].
        apply elem_of_app in H as [H|H]; [|apply Hstored in H as [_ H]; exact H].
        destruct (IsFromServer env msg); [by apply elem_of_nil in H|].
        apply list_elem_of_singleton in H. discriminate.
      * apply elem_of_cons in H as [H|H]; [discriminate|].
        apply elem_of_app in H as [H|H].
        -- destruct (IsFromServer env msg); [by apply elem_of_nil in H|].
           apply list_elem_of_singleton in H. discriminate.
        -- apply Hstored in H as [H _]. discriminate.
    + intros [Hne Hfs]. rewrite (Hyes Hne Hfs).
      eexists. left. apply elem_of_cons. right. apply elem_of_app. right.
      apply list_elem_of_here.
  - intros _. split; [reflexivity|]. split; [reflexivity|].
    intros (p & [H|H]); cbn [app] in H;
      (apply elem_of_cons in H as [H|H]; [discriminate|]);
      apply Hstored in H as [H _]; discriminate.
  - cbn [app]. split.
    + intros (m & [H|H]);
        (apply elem_of_cons in H as [H|H]; [discriminate|]);
        apply Hstored in H as [H1 H2]; [exact H2 | discriminate].
    + intros [Hne Hfs]. rewrite (Hyes Hne Hfs).
      eexists. left. apply elem_of_cons. right. apply list_elem_of_here.
Qed.

Lemma message_routing_witness :
  trace (Handler.message exampleEnv privmsgToMe newIRCHandler)
  = [Do (sendJSON "pm" (PMessage (Message.mk "guid" "irc.example.org" "bob" ""
                                    "hello there")));
     Do (AddOpenDM "irc.example.org" "bob");
     Go (LogMessage (storage.mkMessage "guid" "irc.example.org" "bob" "bob"
                       "hello there"))]
  /\ trace (Handler.message exampleEnv privmsgToChannel newIRCHandler)
     = [Do (sendJSON "message" (PMessage (Message.mk "guid" "irc.example.org" "bob"
                                            "#rocq" "hello all")));
        Go (LogMessage (storage.mkMessage "guid" "irc.example.org" "bob" "#rocq"
                          "hello all"))].
Proof.
  split.
  - apply (message_routing exampleEnv privmsgToMe newIRCHandler "me" ["hello there"]
             eq_refl (or_introl eq_refl)).
    reflexivity.
  - apply (message_routing exampleEnv privmsgToChannel newIRCHandler "#rocq"
             ["hello all"] eq_refl (or_introl eq_refl)).
    reflexivity.
Defined.

(** ** DCC progress *)

(** Go's [==] against the two constants of the progress policy. *)
Lemma eqb_100 x :
  float64.eqb x (float64.of_Z 100) = true <-> x = float64.of_Z 100.
Proof.
  split; [|intros ->; reflexivity].
  destruct x as [s|s| |s m e]; try discriminate; try (destruct s; discriminate).
  unfold float64.eqb, SFeqb.
  change (float64.of_Z 100) with (S754_finite false 7036874417766400 (-46)).
  unfold SFcompare. destruct s; [discriminate|].
  destruct (Z.compare_spec e (-46)) as [->| |]; try discriminate.
  destruct (PosDef.Pos.compare_cont Eq m 7036874417766400) eqn:Hm;
    try discriminate.
  intros _. f_equal. apply (Pos.compare_eq m _ Hm).
Qed.

Lemma eqb_0 x :
  float64.eqb x (float64.of_Z 0) = true <-> exists s, x = S754_zero s.
Proof.
  split; [|intros [s ->]; reflexivity].
  destruct x as [s|s| |s m e]; try discriminate;
    try (destruct s; discriminate); eauto.
Qed.

Lemma tenths_nearest m e :
  (e < 0)%Z ->
  (2 * Z.abs (10 * Z.pos m - Z.of_N (fmt.tenths m e) * 2 ^ (- e)) <= 2 ^ (- e))%Z.
Proof.
  intros He. unfold fmt.tenths.
  destruct (Z.leb_spec 0 e) as [|_]; [lia|].
  set (den := (2 ^ (- e))%Z). set (num := (10 * Z.pos m)%Z).
  assert (Hden : (0 < den)%Z) by (apply Z.pow_pos_nonneg; lia).
  pose proof (Z.div_mod num den ltac:(lia)) as Hdm.
  pose proof (Z.mod_pos_bound num den Hden) as Hr.
  assert (Hq : (0 <= num / den)%Z) by (apply Z.div_pos; lia).
  destruct (Z.compare_spec (2 * (num mod den)) den) as [Heq|Hlt|Hgt].
  - destruct (Z.odd (num / den)); rewrite Z2N.id by lia; nia.
  - rewrite Z2N.id by lia. nia.
  - rewrite Z2N.id by lia. nia.
Qed.

Lemma string_of_uint_digits d : allDigits (NilEmpty.string_of_uint d).
Proof.
  unfold allDigits.
  induction d; simpl; constructor; try exact IHd; unfold isDigit; simpl; tauto.
Qed.

Lemma decimal_digits n : allDigits (fmt.decimal n) /\ fmt.decimal n <> "".
Proof.
  unfold fmt.decimal, NilZero.string_of_uint.
  destruct (N.to_uint n) eqn:Hd.
  1: { split; [|discriminate]. repeat constructor. }
  all: split; [apply string_of_uint_digits | discriminate].
Qed.

Lemma decimal_digit n :
  (n < 10)%N -> exists d, fmt.decimal n = String d "" /\ isDigit d.
Proof.
  intros Hn.
  assert (Hcases : n ∈ [0; 1; 2; 3; 4; 5; 6; 7; 8; 9]%N).
  { rewrite !elem_of_cons. lia. }
  rewrite !elem_of_cons, elem_of_nil in Hcases.
  unfold isDigit.
  repeat (destruct Hcases as [->|Hcases];
          [eexists; split; [reflexivity | simpl; tauto]|]).
  destruct Hcases.
Qed.

Lemma fixed1_oneDecimal neg q : oneDecimal (fmt.fixed1 neg q).
Proof.
  unfold fmt.fixed1.
  destruct (decimal_digit (q mod 10)) as (d & Hd & Hdig);
    [apply N.mod_lt; discriminate|].
  destruct (decimal_digits (q / 10)) as [Hall Hne].
  exists (if neg then "-" else ""), (fmt.decimal (q / 10)), d.
  rewrite Hd. split; [reflexivity|].
  split; [destruct neg; auto|]. auto.
Qed.

Lemma f1_oneDecimal x : float64.is_finite x = true -> oneDecimal (fmt.f1 x).
Proof.
  destruct x as [s|s| |s m e]; simpl; try discriminate; intros _;
    apply fixed1_oneDecimal.
Qed.

Lemma append_empty_r s : s ++ "" = s.
Proof.
  induction s as [|c s IH]; [reflexivity|].
  change (String c s ++ "") with (String c (s ++ "")). by rewrite IH.
Qed.


Lemma Sprintf_finished a b c d :
  fmt.Sprintf "Download finished, get it here: %s://%s/downloads/%s/%s"
    [AStr a; AStr b; AStr c; AStr d]
  = "Download finished, get it here: "
      ++ a ++ "://" ++ b ++ "/downloads/" ++ c ++ "/" ++ d.
Proof.
  cbn [fmt.Sprintf fmt.verb_s]. rewrite append_empty_r. reflexivity.
Qed.

Lemma sendDCCInfo_eq env format logged a h :
  Handler.sendDCCInfo env format logged a h =
    mkResult (Some tt) h
      (dccMessage env (fmt.Sprintf format a)
         :: if logged then dccLogged env (fmt.Sprintf format a) else []).
Proof. unfold Handler.sendDCCInfo. by destruct logged. Qed.

Lemma list_ascii_of_string_append a b :
  list_ascii_of_string (a ++ b)
  = (list_ascii_of_string a ++ list_ascii_of_string b)%list.
Proof.
  induction a as [|c a IH]; [reflexivity|].
  change (String c a ++ b) with (String c (a ++ b)). cbn. by rewrite IH.
Qed.

Lemma oneDecimal_point s :
  oneDecimal s -> exists a d, list_ascii_of_string s = (a ++ ["."%char; d])%list.
Proof.
  intros (sign & int & d & -> & _).
  exists (list_ascii_of_string sign ++ list_ascii_of_string int)%list, d.
  rewrite !list_ascii_of_string_append. cbn. by rewrite <- app_assoc.
Qed.

Lemma f1_words x :
  float64.is_finite x = false ->
  fmt.f1 x ∈ ["NaN"; "+Inf"; "-Inf"] /\ ~ oneDecimal (fmt.f1 x).
Proof.
  destruct x as [s|[|]| |s m e]; try discriminate; intros _; cbn [fmt.f1];
    (split; [rewrite !elem_of_cons; auto|]); intros Hd;
    apply oneDecimal_point in Hd as (a & d & Ha); cbn in Ha;
    destruct a as [|x [|y [|z [|w [|v a]]]]]; cbn in Ha; discriminate Ha.
Qed.

Lemma f1_oneDecimal_iff x :
  oneDecimal (fmt.f1 x) <-> float64.is_finite x = true.
Proof.
  split; [|apply f1_oneDecimal].
  destruct (float64.is_finite x) eqn:Hf; [done|].
  intros Hd. by destruct (proj2 (f1_words x Hf)).
Qed.

(** C4.  Every progress notification produces exactly one status message
    from [@dcc] and changes nothing.  With an error it is the failure
    text, whatever the percentage; otherwise at 100 percent the completion
    text with the download URL; otherwise at 0 percent the start text;
    otherwise the progress text.  In the progress text the percentage and
    the time left are each printed with exactly one digit after the point
    if and only if the value is finite; a value that is not a number or
    is infinite is printed as the word NaN, +Inf or -Inf.  The first three
    are also registered as an open conversation and stored as a message
    from [@dcc]; the progress text is only sent. *)
Theorem dcc_progress env progress h :
  let r := Handler.progressed env progress h in
  let file := irc.dp_File progress in
  let perc := irc.dp_PercCompletion progress in
  let eta := irc.dp_SecondsToGo progress in
  value r = Some tt /\ final r = h
  /\ (forall e,
        irc.dp_Error progress = Some e ->
        let content := file ++ ": Download failed (" ++ e ++ ")" in
        trace r = dccMessage env content :: dccLogged env content)
  /\ (irc.dp_Error progress = None ->
      float64.eqb perc (float64.of_Z 100) = true ->
      let content := "Download finished, get it here: " ++ downloadURL env h file in
      trace r = dccMessage env content :: dccLogged env content)
  /\ (irc.dp_Error progress = None ->
      float64.eqb perc (float64.of_Z 100) = false ->
      float64.eqb perc (float64.of_Z 0) = true ->
      let content := file ++ ": Starting download" in
      trace r = dccMessage env content :: dccLogged env content)
  /\ (irc.dp_Error progress = None ->
      float64.eqb perc (float64.of_Z 100) = false ->
      float64.eqb perc (float64.of_Z 0) = false ->
      trace r
      = [dccMessage env
           (file ++ ": " ++ fmt.f1 perc ++ "%, " ++ irc.dp_Speed progress ++ ", "
              ++ irc.dp_BytesRemaining progress ++ " remaining, "
              ++ fmt.f1 eta ++ "s left")]
      /\ (oneDecimal (fmt.f1 perc) <-> float64.is_finite perc = true)
      /\ (oneDecimal (fmt.f1 eta) <-> float64.is_finite eta = true)
      /\ (float64.is_finite perc = false -> fmt.f1 perc ∈ ["NaN"; "+Inf"; "-Inf"])
      /\ (float64.is_finite eta = false -> fmt.f1 eta ∈ ["NaN"; "+Inf"; "-Inf"])).
Proof.
  intros r file perc eta. subst r file perc eta.
  unfold Handler.progressed.
  destruct (irc.dp_Error progress) as [e|].
  { rewrite sendDCCInfo_eq.
    repeat split; try discriminate; intros; simplify_eq; reflexivity. }
  destruct (float64.eqb (irc.dp_PercCompletion progress) (float64.of_Z 100)).
  { unfold bind, get. rewrite sendDCCInfo_eq, Sprintf_finished.
    repeat split; try discriminate; intros; reflexivity. }
  destruct (float64.eqb (irc.dp_PercCompletion progress) (float64.of_Z 0)).
  { rewrite sendDCCInfo_eq.
    repeat split; try discriminate; intros; reflexivity. }
  rewrite sendDCCInfo_eq.
  split; [reflexivity|]. split; [reflexivity|].
  split; [discriminate|]. split; [discriminate|]. split; [discriminate|].
  intros _ _ _. split; [reflexivity|].
  split; [apply f1_oneDecimal_iff|]. split; [apply f1_oneDecimal_iff|].
  split; intros Hf; apply (f1_words _ Hf).
Qed.

Lemma dcc_progress_witness :
  (float64.valid (irc.dp_PercCompletion halfway) = true
   /\ float64.valid (irc.dp_SecondsToGo halfway) = true)
  /\ trace (Handler.progressed exampleEnv failed configured)
     = dccMessage exampleEnv "notes.txt: Download failed (connection reset)"
         :: dccLogged exampleEnv "notes.txt: Download failed (connection reset)"
  /\ trace (Handler.progressed exampleEnv finished configured)
     = dccMessage exampleEnv
         "Download finished, get it here: https://chat.example.org/downloads/alice/notes.txt"
         :: dccLogged exampleEnv
              "Download finished, get it here: https://chat.example.org/downloads/alice/notes.txt"
  /\ trace (Handler.progressed exampleEnv starting configured)
     = dccMessage exampleEnv "notes.txt: Starting download"
         :: dccLogged exampleEnv "notes.txt: Starting download"
  /\ trace (Handler.progressed exampleEnv halfway configured)
     = [dccMessage exampleEnv
          "notes.txt: 50.5%, 1.2 MB/s, 3.4 MB remaining, 2.8s left"]
  /\ oneDecimal (fmt.f1 (irc.dp_PercCompletion halfway))
  /\ oneDecimal (fmt.f1 (irc.dp_SecondsToGo halfway)).
Proof.
  split; [split; reflexivity|].
  split; [|split; [|split; [|split; [|split]]]].
  - exact (proj1 (proj2 (proj2 (dcc_progress exampleEnv failed configured)))
             "connection reset" eq_refl).
  - exact (proj1 (proj2 (proj2 (proj2 (dcc_progress exampleEnv finished configured))))
             eq_refl eq_refl).
  - exact (proj1 (proj2 (proj2 (proj2 (proj2
             (dcc_progress exampleEnv starting configured)))))
             eq_refl eq_refl eq_refl).
  - exact (proj1 (proj2 (proj2 (proj2 (proj2 (proj2
             (dcc_progress exampleEnv halfway configured)))))
             eq_refl eq_refl eq_refl)).
  - apply (proj2 (proj2 (proj2 (proj2 (proj2
             (dcc_progress exampleEnv halfway configured)))))
             eq_refl eq_refl eq_refl).
    reflexivity.
  - apply (proj2 (proj2 (proj2 (proj2 (proj2
             (dcc_progress exampleEnv halfway configured)))))
             eq_refl eq_refl eq_refl).
    reflexivity.
Defined.

(** C4 as written fails: a float64 percentage need not be finite.  A
    notification without error whose percentage is not a number is
    neither at 100 nor at 0, so it takes the progress text, where the
    percentage and the time left are printed as words and not with one
    digit after the point. *)
Lemma dcc_progress_nan_counterexample :
  float64.valid (irc.dp_PercCompletion undefinedProgress) = true
  /\ float64.valid (irc.dp_SecondsToGo undefinedProgress) = true
  /\ irc.dp_Error undefinedProgress = None
  /\ Handler.progressed exampleEnv undefinedProgress newIRCHandler
     = mkResult (Some tt) newIRCHandler
         [dccMessage exampleEnv
            "notes.txt: NaN%, 0 B/s, 0 B remaining, +Infs left"]
  /\ ~ oneDecimal (fmt.f1 (irc.dp_PercCompletion undefinedProgress))
  /\ ~ oneDecimal (fmt.f1 (irc.dp_SecondsToGo undefinedProgress)).
Proof.
  split; [reflexivity|]. split; [reflexivity|]. split; [reflexivity|].
  split; [reflexivity|].
  split; apply f1_words; reflexivity.
Qed.

(** ** Channel list *)

Lemma list_eq env msg h :
  Handler.list env msg h =
    match accumulator env h with
    | None => mkResult (Some tt) h []
    | Some idx =>
        match irc.Params msg !! 2%nat, irc.Params msg !! 1%nat with
        | Some count, Some name =>
            mkResult (Some tt)
              (set_listBuffer (Some (storage.Add idx (listEntry msg name count))) h)
              []
        | _, _ =>
            mkResult None (set_listBuffer (Some idx) h) []
        end
    end.
Proof.
  unfold Handler.list, accumulator, listEntry, bind, get, when, modify, index, ret, panic.
  destruct h as [w m lb sv pd ci g]. cbn [listBuffer].
  destruct lb as [idx|]; cbn [bool_decide decide_rel andb].
  - rewrite bool_decide_eq_false_2 by discriminate. cbn [andb listBuffer].
    destruct (irc.Params msg !! 2%nat); [|reflexivity].
    destruct (irc.Params msg !! 1%nat); reflexivity.
  - rewrite bool_decide_eq_true_2 by reflexivity. cbn [andb].
    destruct (state_Bool _ _); cbn [listBuffer set_listBuffer]; [|reflexivity].
    destruct (irc.Params msg !! 2%nat); [|reflexivity].
    destruct (irc.Params msg !! 1%nat); reflexivity.
Qed.

Lemma dispatch_list env msg h :
  irc.Command msg = irc.RPL_LIST ->
  Handler.dispatchMessage env msg h = Handler.list env msg h.
Proof.
  intros Hc. apply dispatch_registered.
  - rewrite Hc. apply handlers_lookup. in_table.
  - unfold conversion. rewrite Hc. reflexivity.
  - rewrite Hc. discriminate.
Qed.

Lemma dispatch_listEnd env msg h :
  irc.Command msg = irc.RPL_LISTEND ->
  Handler.dispatchMessage env msg h = Handler.listEnd env msg h.
Proof.
  intros Hc. apply dispatch_registered.
  - rewrite Hc. apply handlers_lookup. in_table.
  - unfold conversion. rewrite Hc. reflexivity.
  - rewrite Hc. discriminate.
Qed.

(** C5.  A list entry with its name and count parameters is added to the
    active accumulator, or to a fresh one when none is active and the
    host's refresh flag is set; with no accumulator and no flag it is
    ignored; no event is emitted either way.  A list end with an active
    accumulator clears the flag, hands the accumulator to a goroutine and
    empties the session's reference; the goroutine finishes the
    accumulator and stores it in the cache under the connection's host,
    whatever was stored there before.  A list end with no accumulator
    changes nothing. *)
Theorem channel_list env msg h :
  (irc.Command msg = irc.RPL_LIST ->
   (accumulator env h = None ->
    Handler.dispatchMessage env msg h = mkResult (Some tt) h [])
   /\ (forall idx name count,
         accumulator env h = Some idx ->
         irc.Params msg !! 1%nat = Some name ->
         irc.Params msg !! 2%nat = Some count ->
         Handler.dispatchMessage env msg h
         = mkResult (Some tt)
             (set_listBuffer (Some (storage.Add idx (listEntry msg name count))) h)
             []))
  /\ (irc.Command msg = irc.RPL_LISTEND ->
      (listBuffer h = None ->
       Handler.dispatchMessage env msg h = mkResult (Some tt) h [])
      /\ (forall idx,
            listBuffer h = Some idx ->
            let r := Handler.dispatchMessage env msg h in
            value r = Some tt
            /\ trace r = [Spawn (PublishIndex (Host env) idx)]
            /\ final r
               = set_listBuffer None
                   (set_stateVars
                      (<[updateChanlistKey (Host env) := VBool false]> (stateVars h))
                      h)
            /\ listBuffer (final r) = None
            /\ state_Bool (updateChanlistKey (Host env)) (final r) = false
            /\ forall h',
                 let p := Handler.runGoroutine env (PublishIndex (Host env) idx) h' in
                 value p = Some tt /\ trace p = []
                 /\ channelIndexes (final p) !! Host env
                    = Some (mkEntry (storage.Finish idx) false)
                 /\ forall k, k <> Host env ->
                      channelIndexes (final p) !! k = channelIndexes h' !! k)).
Proof.
  split.
  - intros Hc. rewrite (dispatch_list env msg h Hc), list_eq. split.
    + by intros ->.
    + intros idx name count -> H1 H2. by rewrite H1, H2.
  - intros Hc. rewrite (dispatch_listEnd env msg h Hc).
    unfold Handler.listEnd, bind, get, state_Set, modify, emit. split.
    + by intros ->.
    + intros idx ->. cbn. repeat split.
      * unfold state_Bool. cbn. by rewrite lookup_insert_eq.
      * by rewrite lookup_insert_eq.
      * intros k Hk. by rewrite lookup_insert_ne.
Qed.

Lemma channel_list_witness :
  Handler.dispatchMessage exampleEnv listEntryMsg listing
  = mkResult (Some tt)
      (set_listBuffer
         (Some (storage.mkIndex [storage.mkItem "#rocq" 42 "Proofs"] false))
         listing) []
  /\ Handler.dispatchMessage exampleEnv listEntryMsg newIRCHandler
     = mkResult (Some tt) newIRCHandler []
  /\ trace (Handler.dispatchMessage exampleEnv listEndMsg listing)
     = [Spawn (PublishIndex "irc.example.org" storage.NewMapChannelListIndex)]
  /\ Handler.dispatchMessage exampleEnv listEndMsg newIRCHandler
     = mkResult (Some tt) newIRCHandler [].
Proof.
  split; [|split; [|split]].
  - exact (proj2 (proj1 (channel_list exampleEnv listEntryMsg listing) eq_refl)
             storage.NewMapChannelListIndex "#rocq" "42" eq_refl eq_refl eq_refl).
  - exact (proj1 (proj1 (channel_list exampleEnv listEntryMsg newIRCHandler) eq_refl)
             eq_refl).
  - apply (proj2 (proj2 (channel_list exampleEnv listEndMsg listing) eq_refl)
             storage.NewMapChannelListIndex eq_refl).
  - exact (proj1 (proj2 (channel_list exampleEnv listEndMsg newIRCHandler) eq_refl)
             eq_refl).
Defined.

(** ** DCC offers *)




(** ** Positions read without a bounds check *)

Lemma whoisUser_value msg h :
  value (Handler.whoisUser msg h) = Some tt <-> (6 <= length (irc.Params msg))%nat.
Proof.
  split.
  - unfold Handler.whoisUser, bind, index, modify, ret, panic.
    destruct (irc.Params msg !! 1%nat); [|discriminate].
    destruct (irc.Params msg !! 2%nat); [|discriminate].
    destruct (irc.Params msg !! 3%nat); [|discriminate].
    destruct (irc.Params msg !! 5%nat) eqn:H5; [|discriminate].
    intros _. apply lookup_lt_Some in H5. lia.
  - intros Hlen.
    destruct (lookup_lt_is_Some_2 (irc.Params msg) 1) as [p1 H1]; [lia|].
    destruct (lookup_lt_is_Some_2 (irc.Params msg) 2) as [p2 H2]; [lia|].
    destruct (lookup_lt_is_Some_2 (irc.Params msg) 3) as [p3 H3]; [lia|].
    destruct (lookup_lt_is_Some_2 (irc.Params msg) 5) as [p5 H5]; [lia|].
    by rewrite (whoisUser_eq msg h p1 p2 p3 p5).
Qed.

Lemma join_value env msg h :
  value (Handler.join env msg h) = Some tt <-> (1 <= length (irc.Params msg))%nat.
Proof.
  unfold Handler.join, bind, index, when, Handler.send, emit, ret, panic.
  destruct (irc.Params msg) as [|p ps]; cbn.
  - split; [discriminate | lia].
  - destruct (Is env (irc.Sender msg)); cbn; split; (reflexivity || lia).
Qed.

Lemma part_value env msg h :
  value (Handler.part env msg h) = Some tt <-> (1 <= length (irc.Params msg))%nat.
Proof.
  unfold Handler.part, bind, index, when, Handler.send, emit, ret, panic.
  destruct (irc.Params msg) as [|p [|q [|q' ps]]]; cbn.
  - split; [discriminate | lia].
  - destruct (Is env (irc.Sender msg)); cbn; split; (reflexivity || lia).
  - destruct (Is env (irc.Sender msg)); cbn; split; (reflexivity || lia).
  - destruct (Is env (irc.Sender msg)); cbn; split; (reflexivity || lia).
Qed.

Lemma info_value env msg h :
  value (Handler.info env msg h) = Some tt <-> (1 <= length (irc.Params msg))%nat.
Proof.
  unfold Handler.info, bind, index, slice_from, when, get, modify, Handler.send,
    emit, ret, panic.
  destruct (irc.Params msg) as [|p ps]; cbn.
  - destruct (String.eqb (irc.Command msg) irc.RPL_WELCOME); cbn;
      split; (discriminate || lia).
  - destruct (String.eqb (irc.Command msg) irc.RPL_WELCOME); cbn;
      [destruct (channelIndexes_needsUpdate (Host env) h); cbn|];
      split; (reflexivity || lia).
Qed.

Lemma list_value env msg h :
  value (Handler.list env msg h) = Some tt
  <-> (3 <= length (irc.Params msg))%nat \/ accumulator env h = None.
Proof.
  rewrite list_eq. destruct (accumulator env h) as [idx|]; [|by intuition].
  destruct (irc.Params msg !! 2%nat) as [count|] eqn:H2.
  - pose proof (lookup_lt_Some _ _ _ H2) as Hlen.
    destruct (lookup_lt_is_Some_2 (irc.Params msg) 1) as [name H1]; [lia|].
    rewrite H1. cbn. split; [intros _; left; lia | reflexivity].
  - apply lookup_ge_None in H2. cbn.
    split; [discriminate | intros [?|?]; [lia | discriminate]].
Qed.

(** C9.  [dispatchMessage] reads the first byte of the command and
    panics on an empty command.  Indexing a parameter list at or beyond
    its length yields no value: the body panics.  The whois-user handler
    reads parameters 1, 2, 3 and 5 and returns exactly when the message
    has six parameters or more; join, part and the info handler return
    exactly when it has at least one; the list-entry handler reads
    parameters 1 and 2 whenever there is an accumulator to add to, so it
    returns in every state exactly when the message has three or more. *)
Theorem unchecked_positions env msg h :
  (irc.Command msg = "" ->
   Handler.dispatchMessage env msg h = mkResult None h [])
  /\ (forall i, (length (irc.Params msg) <= i)%nat ->
        irc.Params msg !! i = None
        /\ index (irc.Params msg) i h = mkResult None h [])
  /\ (value (Handler.whoisUser msg h) = Some tt
      <-> (6 <= length (irc.Params msg))%nat)
  /\ ((6 <= length (irc.Params msg))%nat ->
      exists p1 p2 p3 p5,
        irc.Params msg !! 1%nat = Some p1 /\ irc.Params msg !! 2%nat = Some p2
        /\ irc.Params msg !! 3%nat = Some p3 /\ irc.Params msg !! 5%nat = Some p5
        /\ whois (final (Handler.whoisUser msg h))
           = WhoisReply.mk p1 p2 p3 p5 (WhoisReply.Server (whois h))
               (WhoisReply.Channels (whois h)))
  /\ (value (Handler.join env msg h) = Some tt
      <-> (1 <= length (irc.Params msg))%nat)
  /\ (value (Handler.part env msg h) = Some tt
      <-> (1 <= length (irc.Params msg))%nat)
  /\ (value (Handler.info env msg h) = Some tt
      <-> (1 <= length (irc.Params msg))%nat)
  /\ (value (Handler.list env msg h) = Some tt
      <-> (3 <= length (irc.Params msg))%nat \/ accumulator env h = None)
  /\ ((forall h', value (Handler.list env msg h') = Some tt)
      <-> (3 <= length (irc.Params msg))%nat).
Proof.
  split; [apply dispatchMessage_empty|].
  split.
  { intros i Hi. apply lookup_ge_None_2 in Hi. split; [exact Hi|].
    by apply index_panic. }
  split; [apply whoisUser_value|].
  split.
  { intros Hlen.
    destruct (lookup_lt_is_Some_2 (irc.Params msg) 1) as [p1 H1]; [lia|].
    destruct (lookup_lt_is_Some_2 (irc.Params msg) 2) as [p2 H2]; [lia|].
    destruct (lookup_lt_is_Some_2 (irc.Params msg) 3) as [p3 H3]; [lia|].
    destruct (lookup_lt_is_Some_2 (irc.Params msg) 5) as [p5 H5]; [lia|].
    exists p1, p2, p3, p5. by rewrite (whoisUser_eq msg h p1 p2 p3 p5). }
  split; [apply join_value|].
  split; [apply part_value|].
  split; [apply info_value|].
  split; [apply list_value|].
  split.
  - intros Hall. specialize (Hall listing).
    apply list_value in Hall as [Hlen|Hacc]; [exact Hlen | discriminate].
  - intros Hlen h'. apply list_value. by left.
Qed.

Lemma unchecked_positions_witness :
  Handler.dispatchMessage exampleEnv noCommand newIRCHandler
  = mkResult None newIRCHandler []
  /\ index (irc.Params shortWhoisUser) 3 newIRCHandler = mkResult None newIRCHandler []
  /\ value (Handler.whoisUser whoisUserMsg newIRCHandler) = Some tt
  /\ value (Handler.list exampleEnv listEntryMsg listing) = Some tt.
Proof.
  split; [|split; [|split]].
  - exact (proj1 (unchecked_positions exampleEnv noCommand newIRCHandler) eq_refl).
  - apply (proj1 (proj2 (unchecked_positions exampleEnv shortWhoisUser newIRCHandler))).
    simpl. lia.
  - apply (proj1 (proj2 (proj2
             (unchecked_positions exampleEnv whoisUserMsg newIRCHandler)))).
    simpl. lia.
  - apply (proj2 (proj2 (proj2 (proj2 (proj2 (proj2 (proj2 (proj2
             (unchecked_positions exampleEnv listEntryMsg listing))))))))).
    simpl. lia.
Defined.

(** ** The welcome scenario *)

(** A welcome for a host without a cached list asks for the list and
    starts an accumulator; three entries and the list end publish an index
    of three items and clear the accumulator. *)
Example welcome_then_list :
  let r := Handler.run None
             (received [(exampleEnv, welcomeMsg);
                        (exampleEnv, listEntryOf "#a");
                        (exampleEnv, listEntryOf "#b");
                        (exampleEnv, listEntryOf "#c");
                        (exampleEnv, listEndMsg)])
             newIRCHandler in
  let idx := storage.mkIndex
               [storage.mkItem "#a" 3 "topic"; storage.mkItem "#b" 3 "topic";
                storage.mkItem "#c" 3 "topic"] false in
  value r = Some None
  /\ Do client_List ∈ trace r
  /\ last (trace r) = Some (Spawn (PublishIndex "irc.example.org" idx))
  /\ listBuffer (final r) = None
  /\ channelIndexes
       (final (Handler.runGoroutine exampleEnv (PublishIndex "irc.example.org" idx)
                 (final r))) !! "irc.example.org"
     = Some (mkEntry (storage.Finish idx) false).
Proof.
  cbv zeta. split; [by vm_compute|]. split; [|by vm_compute].
  vm_compute. apply list_elem_of_further, list_elem_of_here.
Qed.

(** * Further properties of the handler *)

(** ** Commands without a handler *)

(** X1.  A message whose command has no registered handler is ignored:
    [dispatchMessage] returns, changes nothing, and emits nothing but the
    "error" event of the conversion when the command begins with 4 and is
    not excluded. *)
Theorem unregistered_command env msg h c rest :
  irc.Command msg = String c rest ->
  irc.Command msg ∉ registeredCommands env ->
  Handler.dispatchMessage env msg h
  = mkResult (Some tt) h
      (if Ascii.eqb c "4" && negb (isExcludedError (irc.Command msg))
       then [Do (sendJSON "error"
                   (PError (IRCError.mk (Host env) (errorTarget (irc.Params msg))
                              (irc.LastParam msg))))]
       else []).
Proof.
  intros Hc Hn. rewrite dispatchMessage_eq by (rewrite Hc; discriminate).
  unfold registered, conversion.
  rewrite (handlers_lookup_None env _ Hn), Hc. cbn [ret value final trace].
  by rewrite app_nil_r.
Qed.

Lemma unregistered_command_witness :
  Handler.dispatchMessage exampleEnv pingMsg newIRCHandler
  = mkResult (Some tt) newIRCHandler []
  /\ Handler.dispatchMessage exampleEnv unknownError newIRCHandler
     = mkResult (Some tt) newIRCHandler
         [Do (sendJSON "error"
                (PError (IRCError.mk "irc.example.org" "#rocq" "Something failed")))].
Proof.
  split.
  - apply (unregistered_command exampleEnv pingMsg newIRCHandler "P" "ING");
      [reflexivity|].
    unfold registeredCommands. rewrite table_keys. compute_done.
  - apply (unregistered_command exampleEnv unknownError newIRCHandler "4" "99");
      [reflexivity|].
    unfold registeredCommands. rewrite table_keys. compute_done.
Defined.

(** ** What a message can change *)

Ltac keeps_all :=
  each_handler; unfold keeps; cbn [fst snd]; intros Hne msg Hc;
  first [ exfalso; apply Hne; compute_done
        | frame; done
        | unfold Handler.info;
          destruct (String.eqb_spec (irc.Command msg) irc.RPL_WELCOME) as [He|_];
          [rewrite Hc in He; discriminate|];
          cbn [when]; frame; done ].

Lemma handlers_keep_pendingDCC env :
  Forall (fun cf => keeps pendingDCC [] cf.1 cf.2) (Handler.handlerTable env).
Proof. keeps_all. Qed.

Lemma handlers_keep_channelIndexes env :
  Forall (fun cf => keeps channelIndexes [] cf.1 cf.2) (Handler.handlerTable env).
Proof. keeps_all. Qed.

Lemma handlers_keep_stateVars env :
  Forall (fun cf => keeps stateVars [irc.RPL_LISTEND] cf.1 cf.2)
         (Handler.handlerTable env).
Proof. keeps_all. Qed.

Lemma handlers_keep_guids env :
  Forall (fun cf => keeps guids messageCommands cf.1 cf.2) (Handler.handlerTable env).
Proof. keeps_all. Qed.

Lemma handlers_keep_whois env :
  Forall (fun cf => keeps whois whoisCommands cf.1 cf.2) (Handler.handlerTable env).
Proof. keeps_all. Qed.

Lemma handlers_keep_motdBuffer env :
  Forall (fun cf => keeps motdBuffer motdCommands cf.1 cf.2)
         (Handler.handlerTable env).
Proof. keeps_all. Qed.

Lemma handlers_keep_listBuffer env :
  Forall (fun cf => keeps listBuffer listCommands cf.1 cf.2)
         (Handler.handlerTable env).
Proof. keeps_all. Qed.

Lemma dispatch_keeps {X} (P : ircHandler -> X) except env msg h :
  Forall (fun cf => keeps P except cf.1 cf.2) (Handler.handlerTable env) ->
  irc.Command msg ∉ except ->
  P (final (Handler.dispatchMessage env msg h)) = P h.
Proof.
  intros Hall Hne.
  apply (dispatchMessage_respects P (fun _ => True) env msg (fun _ => I)).
  intros f Hf.
  exact (table_cases env _ f (keeps P except) Hall Hf Hne msg eq_refl).
Qed.

(** X2.  Whatever the message and however its handling ends,
    [dispatchMessage] never touches the pending DCC offers or the
    channel-list cache; it changes the session's settings only for a
    list end, draws an identifier only for PRIVMSG and NOTICE, and writes
    the WHOIS accumulator, the MOTD buffer and the list accumulator only
    for the commands of those replies (the list accumulator also for the
    welcome). *)
Theorem dispatch_footprint env msg h :
  let h' := final (Handler.dispatchMessage env msg h) in
  pendingDCC h' = pendingDCC h
  /\ channelIndexes h' = channelIndexes h
  /\ (irc.Command msg <> irc.RPL_LISTEND -> stateVars h' = stateVars h)
  /\ (irc.Command msg ∉ messageCommands -> guids h' = guids h)
  /\ (irc.Command msg ∉ whoisCommands -> whois h' = whois h)
  /\ (irc.Command msg ∉ motdCommands -> motdBuffer h' = motdBuffer h)
  /\ (irc.Command msg ∉ listCommands -> listBuffer h' = listBuffer h).
Proof.
  cbv zeta. repeat split.
  - apply (dispatch_keeps pendingDCC []), not_elem_of_nil.
    apply handlers_keep_pendingDCC.
  - apply (dispatch_keeps channelIndexes []), not_elem_of_nil.
    apply handlers_keep_channelIndexes.
  - intros Hne. apply (dispatch_keeps stateVars [irc.RPL_LISTEND]).
    + apply handlers_keep_stateVars.
    + by apply not_elem_of_cons; split; [|apply not_elem_of_nil].
  - apply dispatch_keeps, handlers_keep_guids.
  - apply dispatch_keeps, handlers_keep_whois.
  - apply dispatch_keeps, handlers_keep_motdBuffer.
  - apply dispatch_keeps, handlers_keep_listBuffer.
Qed.

Lemma dispatch_footprint_witness :
  stateVars (final (Handler.dispatchMessage exampleEnv listEntryMsg listing))
  = stateVars listing
  /\ whois (final (Handler.dispatchMessage exampleEnv privmsgToMe newIRCHandler))
     = whois newIRCHandler
  /\ listBuffer (final (Handler.dispatchMessage exampleEnv whoisUserMsg listing))
     = listBuffer listing.
Proof.
  split; [|split].
  - apply (dispatch_footprint exampleEnv listEntryMsg listing). discriminate.
  - apply (dispatch_footprint exampleEnv privmsgToMe newIRCHandler).
    unfold whoisCommands. compute_done.
  - apply (dispatch_footprint exampleEnv whoisUserMsg listing).
    unfold listCommands. compute_done.
Defined.

(** ** The end of the run loop *)

Lemma run_closed_cut pre env post : forall l h,
  Handler.run l (pre ++ (env, Handler.Closed) :: post) h
  = Handler.run l (pre ++ [(env, Handler.Closed)]) h.
Proof.
  induction pre as [|[env' i] pre IH]; intros l h; [reflexivity|].
  destruct i as [msg| |state|progress]; cbn [app Handler.run]; unfold bind.
  - destruct (Handler.dispatchMessage env' msg h) as [[[]|] h1 t1];
      [by rewrite IH | reflexivity].
  - reflexivity.
  - destruct (Handler.connectionChanged env' l state h) as [[l1|] h1 t1];
      [by rewrite IH | reflexivity].
  - destruct (Handler.progressed env' progress h) as [[[]|] h1 t1];
      [by rewrite IH | reflexivity].
Qed.

(** X3.  The closing of the message stream ends the loop: inputs after it
    are never handled, and when the loop gets there the last thing it
    does is to deregister the connection's host. *)
Theorem run_ends_at_closed pre env post l h :
  Handler.run l (pre ++ (env, Handler.Closed) :: post) h
  = Handler.run l (pre ++ [(env, Handler.Closed)]) h
  /\ (forall l1,
        value (Handler.run l pre h) = Some l1 ->
        forallb (fun i => negb (isClosed i)) pre = true ->
        Handler.run l (pre ++ (env, Handler.Closed) :: post) h
        = mkResult (Some l1) (final (Handler.run l pre h))
            (trace (Handler.run l pre h) ++ [Do (deleteIRC (Host env))])).
Proof.
  split; [apply run_closed_cut|].
  intros l1 Hv Hc. rewrite run_closed_cut, (run_app pre _ l h l1 Hv Hc).
  reflexivity.
Qed.

Lemma run_ends_at_closed_witness :
  Handler.run None
    ([(exampleEnv, Handler.Received motdEndMsg)]
       ++ (exampleEnv, Handler.Closed) :: [(exampleEnv, Handler.Received motdEndMsg)])
    newIRCHandler
  = mkResult (Some None)
      (final (Handler.run None [(exampleEnv, Handler.Received motdEndMsg)]
                newIRCHandler))
      (trace (Handler.run None [(exampleEnv, Handler.Received motdEndMsg)]
                newIRCHandler)
         ++ [Do (deleteIRC "irc.example.org")]).
Proof.
  apply (proj2 (run_ends_at_closed [(exampleEnv, Handler.Received motdEndMsg)]
                  exampleEnv [(exampleEnv, Handler.Received motdEndMsg)]
                  None newIRCHandler));
    reflexivity.
Defined.

(** ** The events of the single-message handlers *)

Ltac dispatch_to f :=
  match goal with
  | Hc : irc.Command ?msg = _ |- context [Handler.dispatchMessage ?env ?msg ?h] =>
      rewrite (dispatch_registered env msg f h);
      [ | rewrite Hc; apply handlers_lookup; in_table
        | unfold conversion; rewrite Hc; reflexivity
        | rewrite Hc; discriminate ]
  end.

Ltac run_body :=
  unfold bind, index, slice_from, when, Handler.send, emit, get, modify, ret, panic.

(** X4.  A PART with its channel parameter emits one "part" event, whose
    reason is the second parameter only when the message has exactly two
    parameters; the stored membership is removed only when the leaver is
    the session's own identity, and the part is always logged. *)
Theorem part_event env msg h channel rest :
  irc.Command msg = irc.PART ->
  irc.Params msg = channel :: rest ->
  Handler.dispatchMessage env msg h
  = mkResult (Some tt) h
      (Do (sendJSON "part"
             (PPart (Part.mk (Host env) (irc.Sender msg) channel
                       (match rest with [reason] => reason | _ => "" end))))
         :: (if Is env (irc.Sender msg)
             then [Go (RemoveChannel (Host env) channel)] else [])
         ++ [Go (LogEvent (Host env) "part" [irc.Sender msg] [channel])]).
Proof.
  intros Hc Hp. dispatch_to (Handler.part env).
  unfold Handler.part. run_body. rewrite Hp.
  destruct rest as [|reason [|x rest]]; cbn;
    destruct (Is env (irc.Sender msg)); reflexivity.
Qed.

Lemma part_event_witness :
  Handler.dispatchMessage exampleEnv partMsg newIRCHandler
  = mkResult (Some tt) newIRCHandler
      [Do (sendJSON "part" (PPart (Part.mk "irc.example.org" "me" "#rocq" "bye")));
       Go (RemoveChannel "irc.example.org" "#rocq");
       Go (LogEvent "irc.example.org" "part" ["me"] ["#rocq"])]
  /\ Handler.dispatchMessage exampleEnv partMsg3 newIRCHandler
     = mkResult (Some tt) newIRCHandler
         [Do (sendJSON "part" (PPart (Part.mk "irc.example.org" "bob" "#rocq" "")));
          Go (LogEvent "irc.example.org" "part" ["bob"] ["#rocq"])].
Proof.
  split.
  - exact (part_event exampleEnv partMsg newIRCHandler "#rocq" ["bye"]
             eq_refl eq_refl).
  - exact (part_event exampleEnv partMsg3 newIRCHandler "#rocq" ["bye"; "extra"]
             eq_refl eq_refl).
Defined.

(** X5.  A JOIN emits one "join" event listing every parameter as a
    channel, but only the first parameter is queried, replayed, stored and
    logged: for the session's own join the topic is asked again, the last
    50 messages are requested and the membership is stored, in that order.
    A JOIN without parameters has emitted its event when the body
    panics. *)
Theorem join_event env msg h :
  irc.Command msg = irc.JOIN ->
  (forall channel rest,
     irc.Params msg = channel :: rest ->
     Handler.dispatchMessage env msg h
     = mkResult (Some tt) h
         (Do (sendJSON "join"
                (PJoin (Join.mk (Host env) (irc.Sender msg) (channel :: rest))))
            :: (if Is env (irc.Sender msg)
                then [Do (client_Topic channel);
                      Do (sendLastMessages (Host env) channel 50);
                      Go (AddChannel (storage.mkChannel (Host env) channel))]
                else [])
            ++ [Go (LogEvent (Host env) "join" [irc.Sender msg] [channel])]))
  /\ (irc.Params msg = [] ->
      Handler.dispatchMessage env msg h
      = mkResult None h
          [Do (sendJSON "join" (PJoin (Join.mk (Host env) (irc.Sender msg) [])))]).
Proof.
  intros Hc. split.
  - intros channel rest Hp. dispatch_to (Handler.join env).
    unfold Handler.join. run_body. rewrite Hp. cbn.
    destruct (Is env (irc.Sender msg)); reflexivity.
  - intros Hp. dispatch_to (Handler.join env).
    unfold Handler.join. run_body. rewrite Hp. reflexivity.
Qed.

Lemma join_event_witness :
  Handler.dispatchMessage exampleEnv joinMsg newIRCHandler
  = mkResult (Some tt) newIRCHandler
      [Do (sendJSON "join"
             (PJoin (Join.mk "irc.example.org" "me" ["#rocq"; "#ocaml"])));
       Do (client_Topic "#rocq");
       Do (sendLastMessages "irc.example.org" "#rocq" 50);
       Go (AddChannel (storage.mkChannel "irc.example.org" "#rocq"));
       Go (LogEvent "irc.example.org" "join" ["me"] ["#rocq"])]
  /\ Handler.dispatchMessage exampleEnv emptyJoin newIRCHandler
     = mkResult None newIRCHandler
         [Do (sendJSON "join" (PJoin (Join.mk "irc.example.org" "bob" [])))].
Proof.
  split.
  - exact (proj1 (join_event exampleEnv joinMsg newIRCHandler eq_refl)
             "#rocq" ["#ocaml"] eq_refl).
  - exact (proj2 (join_event exampleEnv emptyJoin newIRCHandler eq_refl) eq_refl).
Defined.

(** X6.  A forward reply never panics and never produces an "error"
    event: with more than two parameters it emits one "channel_forward"
    event from the second and third parameter, with fewer it is dropped
    without a trace. *)
Theorem forward_event env msg h :
  irc.Command msg = irc.ERR_FORWARD ->
  Handler.dispatchMessage env msg h
  = mkResult (Some tt) h
      (match irc.Params msg with
       | _ :: old :: new :: _ =>
           [Do (sendJSON "channel_forward"
                  (PForward (ChannelForward.mk (Host env) old new)))]
       | _ => []
       end).
Proof.
  intros Hc. dispatch_to (Handler.forward env).
  unfold Handler.forward. run_body.
  destruct (irc.Params msg) as [|p0 [|old [|new rest]]]; reflexivity.
Qed.

Lemma forward_event_witness :
  Handler.dispatchMessage exampleEnv forwardMsg newIRCHandler
  = mkResult (Some tt) newIRCHandler
      [Do (sendJSON "channel_forward"
             (PForward (ChannelForward.mk "irc.example.org" "#old" "#new")))]
  /\ Handler.dispatchMessage exampleEnv shortForward newIRCHandler
     = mkResult (Some tt) newIRCHandler [].
Proof.
  split.
  - exact (forward_event exampleEnv forwardMsg newIRCHandler eq_refl).
  - exact (forward_event exampleEnv shortForward newIRCHandler eq_refl).
Defined.

(** X7.  The three topic messages share the "topic" event.  A live TOPIC
    reads the channel from the first parameter, names the sender as the
    author and is logged before the event is sent; a topic reply reads the
    channel from the second parameter, names no author and is not logged;
    a no-topic reply carries neither topic nor author. *)
Theorem topic_events env msg h channel :
  (irc.Command msg = irc.TOPIC ->
   irc.Params msg !! 0%nat = Some channel ->
   Handler.dispatchMessage env msg h
   = mkResult (Some tt) h
       [Go (LogEvent (Host env) "topic" [irc.Sender msg; irc.LastParam msg]
              [channel]);
        Do (sendJSON "topic"
              (PTopic (Topic.mk (Host env) channel (irc.LastParam msg)
                         (irc.Sender msg))))])
  /\ (irc.Command msg = irc.RPL_TOPIC ->
      irc.Params msg !! 1%nat = Some channel ->
      Handler.dispatchMessage env msg h
      = mkResult (Some tt) h
          [Do (sendJSON "topic"
                 (PTopic (Topic.mk (Host env) channel (irc.LastParam msg) "")))])
  /\ (irc.Command msg = irc.RPL_NOTOPIC ->
      irc.Params msg !! 1%nat = Some channel ->
      Handler.dispatchMessage env msg h
      = mkResult (Some tt) h
          [Do (sendJSON "topic" (PTopic (Topic.mk (Host env) channel "" "")))]).
Proof.
  split; [|split]; intros Hc Hp.
  - dispatch_to (Handler.topic env). unfold Handler.topic. run_body.
    rewrite Hc, Hp. reflexivity.
  - dispatch_to (Handler.topic env). unfold Handler.topic. run_body.
    rewrite Hc, Hp. reflexivity.
  - dispatch_to (Handler.noTopic env). unfold Handler.noTopic. run_body.
    rewrite Hp. reflexivity.
Qed.

Lemma topic_events_witness :
  Handler.dispatchMessage exampleEnv topicChange newIRCHandler
  = mkResult (Some tt) newIRCHandler
      [Go (LogEvent "irc.example.org" "topic" ["bob"; "Proofs welcome"] ["#rocq"]);
       Do (sendJSON "topic"
             (PTopic (Topic.mk "irc.example.org" "#rocq" "Proofs welcome" "bob")))]
  /\ Handler.dispatchMessage exampleEnv topicReply newIRCHandler
     = mkResult (Some tt) newIRCHandler
         [Do (sendJSON "topic"
                (PTopic (Topic.mk "irc.example.org" "#rocq" "Proofs welcome" "")))]
  /\ Handler.dispatchMessage exampleEnv noTopicReply newIRCHandler
     = mkResult (Some tt) newIRCHandler
         [Do (sendJSON "topic" (PTopic (Topic.mk "irc.example.org" "#rocq" "" "")))].
Proof.
  split; [|split].
  - exact (proj1 (topic_events exampleEnv topicChange newIRCHandler "#rocq")
             eq_refl eq_refl).
  - exact (proj1 (proj2 (topic_events exampleEnv topicReply newIRCHandler "#rocq"))
             eq_refl eq_refl).
  - exact (proj2 (proj2 (topic_events exampleEnv noTopicReply newIRCHandler "#rocq"))
             eq_refl eq_refl).
Defined.

(** X8.  An informational reply with at least one parameter emits one
    informational "pm" event whose text joins the parameters after the
    first with single spaces, and changes nothing.  The welcome first
    emits a "nick" event for the first parameter; when the host's cached
    channel list is absent or stale it replaces the list accumulator by a
    fresh one, whatever it held, and asks the server for the list;
    otherwise it leaves the accumulator alone and asks nothing; it then
    stores the nick and emits the informational event. *)
Theorem info_events env msg h new rest :
  irc.Params msg = new :: rest ->
  (irc.Command msg ∈ infoCommands ->
   Handler.dispatchMessage env msg h
   = mkResult (Some tt) h [infoMessage env msg rest])
  /\ (irc.Command msg = irc.RPL_WELCOME ->
      Handler.dispatchMessage env msg h
      = mkResult (Some tt)
          (if channelIndexes_needsUpdate (Host env) h
           then set_listBuffer (Some storage.NewMapChannelListIndex) h else h)
          (Do (sendJSON "nick" (PNick (Nick.mk (Host env) "" new)))
             :: (if channelIndexes_needsUpdate (Host env) h
                 then [Do client_List] else [])
             ++ [Go (SetNick new (Host env)); infoMessage env msg rest])).
Proof.
  intros Hp. split.
  - unfold infoCommands. rewrite !elem_of_cons, elem_of_nil.
    intros [Hc|[Hc|[Hc|[Hc|[Hc|[Hc|[Hc|[]]]]]]]];
      dispatch_to (Handler.info env); unfold Handler.info; run_body;
      rewrite Hc, Hp; reflexivity.
  - intros Hc. dispatch_to (Handler.info env). unfold Handler.info. run_body.
    rewrite Hc, Hp. cbn.
    destruct (channelIndexes_needsUpdate (Host env) h); reflexivity.
Qed.

Lemma info_events_witness :
  Handler.dispatchMessage exampleEnv yourHost newIRCHandler
  = mkResult (Some tt) newIRCHandler
      [infoMessage exampleEnv yourHost ["Your host is"; "irc.example.org"]]
  /\ Handler.dispatchMessage exampleEnv welcomeMsg cached
     = mkResult (Some tt) cached
         [Do (sendJSON "nick" (PNick (Nick.mk "irc.example.org" "" "me")));
          Go (SetNick "me" "irc.example.org");
          infoMessage exampleEnv welcomeMsg ["Welcome to Example"]].
Proof.
  split.
  - apply (proj1 (info_events exampleEnv yourHost newIRCHandler "me"
                    ["Your host is"; "irc.example.org"] eq_refl)).
    unfold infoCommands. compute_done.
  - exact (proj2 (info_events exampleEnv welcomeMsg cached "me"
                    ["Welcome to Example"] eq_refl) eq_refl).
Defined.

(** X9.  NICK and QUIT never panic and change nothing, whatever their
    parameters: each emits its event with the last parameter as new nick
    or reason and logs it against the channels package irc reports; the
    stored nick is updated only when the new nick is the session's own. *)
Theorem nick_and_quit_events env msg h :
  (irc.Command msg = irc.NICK ->
   Handler.dispatchMessage env msg h
   = mkResult (Some tt) h
       (Do (sendJSON "nick"
              (PNick (Nick.mk (Host env) (irc.Sender msg) (irc.LastParam msg))))
          :: (if Is env (irc.LastParam msg)
              then [Go (SetNick (irc.LastParam msg) (Host env))] else [])
          ++ [Go (LogEvent (Host env) "nick" [irc.Sender msg; irc.LastParam msg]
                    (GetNickChannels env msg))]))
  /\ (irc.Command msg = irc.QUIT ->
      Handler.dispatchMessage env msg h
      = mkResult (Some tt) h
          [Do (sendJSON "quit"
                 (PQuit (Quit.mk (Host env) (irc.Sender msg) (irc.LastParam msg))));
           Go (LogEvent (Host env) "quit" [irc.Sender msg; irc.LastParam msg]
                 (GetQuitChannels env msg))]).
Proof.
  split; intros Hc.
  - dispatch_to (Handler.nick env). unfold Handler.nick. run_body.
    destruct (Is env (irc.LastParam msg)); reflexivity.
  - dispatch_to (Handler.quit env). reflexivity.
Qed.

Lemma nick_and_quit_events_witness :
  Handler.dispatchMessage exampleEnv nickMsg newIRCHandler
  = mkResult (Some tt) newIRCHandler
      [Do (sendJSON "nick" (PNick (Nick.mk "irc.example.org" "me" "me")));
       Go (SetNick "me" "irc.example.org");
       Go (LogEvent "irc.example.org" "nick" ["me"; "me"] [])].
Proof.
  exact (proj1 (nick_and_quit_events exampleEnv nickMsg newIRCHandler) eq_refl).
Defined.

(** X10.  The ERROR command is not an error-class numeric: it yields
    exactly one "error" event, without target, from its handler and none
    from the conversion.  A MODE message yields a "mode" event exactly
    when package irc parses a mode change out of it, and is otherwise
    dropped without a trace. *)
Theorem error_and_mode_events env msg h :
  (irc.Command msg = irc.ERROR ->
   Handler.dispatchMessage env msg h
   = mkResult (Some tt) h
       [Do (sendJSON "error"
              (PError (IRCError.mk (Host env) "" (irc.LastParam msg))))])
  /\ (irc.Command msg = irc.MODE ->
      Handler.dispatchMessage env msg h
      = mkResult (Some tt) h
          (match GetMode env msg with
           | Some m => [Do (sendJSON "mode" (PMode m))]
           | None => []
           end)).
Proof.
  split; intros Hc.
  - dispatch_to (Handler.error env). reflexivity.
  - dispatch_to (Handler.mode env). unfold Handler.mode.
    by destruct (GetMode env msg).
Qed.

Lemma error_and_mode_events_witness :
  Handler.dispatchMessage exampleEnv errorMsg newIRCHandler
  = mkResult (Some tt) newIRCHandler
      [Do (sendJSON "error" (PError (IRCError.mk "irc.example.org" "" "Closing link")))].
Proof.
  exact (proj1 (error_and_mode_events exampleEnv errorMsg newIRCHandler) eq_refl).
Defined.

(** X11.  The feature-set reply always emits one "features" event and
    starts the naming goroutine exactly when the NETWORK feature is not
    empty.  The goroutine reads the server record once and writes the
    network name exactly when that read finds the server and finds its
    name empty, under the host of the record it read.  The check rests on
    that one read alone: two goroutines that both read a record without a
    name both write, the later name last. *)
Theorem features_event env msg h :
  (irc.Command msg = irc.RPL_ISUPPORT ->
   Handler.dispatchMessage env msg h
   = mkResult (Some tt) h
       (Do (sendJSON "features"
              (PFeatures (Features.mk (Host env) (FeaturesMap env))))
          :: (if String.eqb (FeaturesString env "NETWORK") "" then []
              else [Spawn (NameServer (FeaturesString env "NETWORK"))])))
  /\ (forall name,
        (forall server,
           GetServer env (Host env) = Some server ->
           storage.srv_Name server = "" ->
           Handler.runGoroutine env (NameServer name) h
           = mkResult (Some tt) h
               [Do (SetServerName name (storage.srv_Host server))])
        /\ (forall server,
              GetServer env (Host env) = Some server ->
              storage.srv_Name server <> "" ->
              Handler.runGoroutine env (NameServer name) h
              = mkResult (Some tt) h [])
        /\ (GetServer env (Host env) = None ->
            Handler.runGoroutine env (NameServer name) h
            = mkResult (Some tt) h []))
  /\ (forall env' first second server server',
        GetServer env (Host env) = Some server ->
        storage.srv_Name server = "" ->
        GetServer env' (Host env') = Some server' ->
        storage.srv_Name server' = "" ->
        (Handler.runGoroutine env (NameServer first) ;;;
         Handler.runGoroutine env' (NameServer second)) h
        = mkResult (Some tt) h
            [Do (SetServerName first (storage.srv_Host server));
             Do (SetServerName second (storage.srv_Host server'))]).
Proof.
  split; [|split].
  - intros Hc. dispatch_to (Handler.features env). unfold Handler.features.
    run_body. by destruct (String.eqb (FeaturesString env "NETWORK") "").
  - intros name. unfold Handler.runGoroutine. repeat split.
    + intros server -> ->. reflexivity.
    + intros server -> Hn.
      by destruct (String.eqb_spec (storage.srv_Name server) "").
    + by intros ->.
  - intros env' first second server server' Hs Hn Hs' Hn'.
    unfold bind, Handler.runGoroutine. by rewrite Hs, Hn, Hs', Hn'.
Qed.

Lemma features_event_witness :
  Handler.dispatchMessage unnamedServerEnv isupportMsg newIRCHandler
  = mkResult (Some tt) newIRCHandler
      [Do (sendJSON "features"
             (PFeatures (Features.mk "irc.example.org" [("NETWORK", "Example")])));
       Spawn (NameServer "Example")]
  /\ Handler.runGoroutine unnamedServerEnv (NameServer "Example") newIRCHandler
     = mkResult (Some tt) newIRCHandler
         [Do (SetServerName "Example" "irc.example.org:6697")]
  /\ Handler.runGoroutine exampleEnv (NameServer "Example") newIRCHandler
     = mkResult (Some tt) newIRCHandler []
  /\ (Handler.runGoroutine unnamedServerEnv (NameServer "Example") ;;;
      Handler.runGoroutine unnamedServerEnv (NameServer "ExampleNet")) newIRCHandler
     = mkResult (Some tt) newIRCHandler
         [Do (SetServerName "Example" "irc.example.org:6697");
          Do (SetServerName "ExampleNet" "irc.example.org:6697")].
Proof.
  split; [|split; [|split]].
  - exact (proj1 (features_event unnamedServerEnv isupportMsg newIRCHandler) eq_refl).
  - exact (proj1 (proj1 (proj2 (features_event unnamedServerEnv isupportMsg
                                  newIRCHandler))
                    "Example")
             (storage.mkServer "" "irc.example.org:6697") eq_refl eq_refl).
  - exact (proj2 (proj2 (proj1 (proj2 (features_event exampleEnv isupportMsg
                                         newIRCHandler))
                           "Example"))
             eq_refl).
  - exact (proj2 (proj2 (features_event unnamedServerEnv isupportMsg newIRCHandler))
             unnamedServerEnv "Example" "ExampleNet"
             (storage.mkServer "" "irc.example.org:6697")
             (storage.mkServer "" "irc.example.org:6697")
             eq_refl eq_refl eq_refl eq_refl).
Defined.

(** ** The CTCP filter *)

(** X12.  A CTCP message that is neither an action nor a DCC SEND is
    dropped without a trace: no event, no identifier drawn, nothing
    stored.  A DCC SEND that package irc cannot parse is not dropped: it
    is delivered like an ordinary message. *)
Theorem ctcp_filter env msg h c :
  ToCTCP env msg = Some c ->
  (irc.ctcp_Command c <> "ACTION" ->
   irc.ctcp_Command c <> "DCC"
   \/ strings.HasPrefix (irc.ctcp_Params c) "SEND" = false ->
   Handler.message env msg h = mkResult (Some tt) h [])
  /\ (irc.ctcp_Command c = "DCC" ->
      strings.HasPrefix (irc.ctcp_Params c) "SEND" = true ->
      ParseDCCSend env c = None ->
      Handler.message env msg h = Handler.deliver env msg h).
Proof.
  intros Hc. unfold Handler.message. rewrite Hc. split.
  - intros Hact Hdcc.
    assert (Hfirst : String.eqb (irc.ctcp_Command c) "DCC"
                     && strings.HasPrefix (irc.ctcp_Params c) "SEND" = false).
    { destruct Hdcc as [Hd| ->]; [|apply andb_false_r].
      by destruct (String.eqb_spec (irc.ctcp_Command c) "DCC"). }
    rewrite Hfirst.
    by destruct (String.eqb_spec (irc.ctcp_Command c) "ACTION").
  - intros -> -> ->. reflexivity.
Qed.

Lemma ctcp_filter_witness :
  Handler.message unnamedServerEnv privmsgToMe newIRCHandler
  = mkResult (Some tt) newIRCHandler [].
Proof.
  apply (proj1 (ctcp_filter unnamedServerEnv privmsgToMe newIRCHandler
                  (irc.mkCTCP "VERSION" "") eq_refl)).
  - discriminate.
  - left. discriminate.
Defined.

(** ** Which messages a handler survives *)

Lemma returns_ret {A} (a : A) : returns (ret a).
Proof. intros h. discriminate. Qed.

Lemma returns_emit e : returns (emit e).
Proof. intros h. discriminate. Qed.

Lemma returns_get : returns get.
Proof. intros h. discriminate. Qed.

Lemma returns_modify f : returns (modify f).
Proof. intros h. discriminate. Qed.

Lemma returns_bind {A B} (m : M A) (k : A -> M B) :
  returns m -> (forall a, returns (k a)) -> returns (bind m k).
Proof.
  intros Hm Hk h. unfold bind. specialize (Hm h).
  destruct (m h) as [[a|] h1 t1]; [|done].
  specialize (Hk a h1). by destruct (k a h1).
Qed.

Lemma returns_when b m : returns m -> returns (when b m).
Proof. intros Hm. destruct b; [exact Hm | apply returns_ret]. Qed.

Ltac returns_step :=
  lazymatch goal with
  | |- returns (bind _ _) => apply returns_bind; [|intros ?]
  | |- returns (ret _) => apply returns_ret
  | |- returns get => apply returns_get
  | |- returns (when _ _) => apply returns_when
  | |- returns (emit _) => apply returns_emit
  | |- returns (Handler.send _ _) => apply returns_emit
  | |- returns (state_Set _ _) => apply returns_modify
  | |- returns (modify _) => apply returns_modify
  | |- returns (if ?b then _ else _) => destruct b
  | |- returns (match ?x with _ => _ end) => destruct x
  end.

Lemma forward_returns env msg : returns (Handler.forward env msg).
Proof.
  intros h. unfold Handler.forward. run_body.
  by destruct (irc.Params msg) as [|p0 [|old [|new rest]]].
Qed.

Lemma value_unit (r : Result unit) : value r <> None -> value r = Some tt.
Proof. by destruct r as [[[]|] ? ?]. Qed.

(** X13.  Thirteen of the registered commands never panic, whatever
    parameters the message carries or lacks: their handlers read
    parameters only through the last-parameter accessor or behind a
    length check. *)
Theorem total_commands env msg h :
  irc.Command msg ∈ totalCommands ->
  value (Handler.dispatchMessage env msg h) = Some tt.
Proof.
  unfold totalCommands. rewrite !elem_of_cons, elem_of_nil.
  intros Hin. apply value_unit.
  assert (Hne : irc.Command msg <> "").
  { intros He. rewrite He in Hin. intuition discriminate. }
  rewrite (dispatchMessage_eq _ _ _ Hne). cbv zeta. cbn [value].
  unfold registered.
  repeat (destruct Hin as [Hc|Hin];
          [rewrite Hc;
           first [ rewrite (handlers_lookup env _ (Handler.forward env))
                     by in_table;
                   apply forward_returns
                 | erewrite handlers_lookup by in_table;
                   revert h;
                   lazymatch goal with
                   | |- forall h, value (?m h) <> None => change (returns m)
                   end;
                   unfold_handlers; cbv beta zeta; repeat returns_step ]|]).
  destruct Hin.
Qed.

Lemma total_commands_witness :
  value (Handler.dispatchMessage exampleEnv noParams newIRCHandler) = Some tt.
Proof.
  apply total_commands. unfold totalCommands. compute_done.
Defined.

(** X14.  The remaining positional reads: the whois-server reply returns
    exactly when the message has three parameters or more, TOPIC exactly
    when it has one, the topic, no-topic and end-of-names replies exactly
    when they have two, and a PRIVMSG or NOTICE that is not CTCP exactly
    when it has one; with fewer the dispatch panics. *)
Theorem remaining_bounds env msg h :
  (irc.Command msg = irc.RPL_WHOISSERVER ->
   value (Handler.dispatchMessage env msg h) = Some tt
   <-> (3 <= length (irc.Params msg))%nat)
  /\ (irc.Command msg = irc.TOPIC ->
      value (Handler.dispatchMessage env msg h) = Some tt
      <-> (1 <= length (irc.Params msg))%nat)
  /\ (irc.Command msg ∈ topicReplies ->
      value (Handler.dispatchMessage env msg h) = Some tt
      <-> (2 <= length (irc.Params msg))%nat)
  /\ (irc.Command msg ∈ messageCommandsList -> ToCTCP env msg = None ->
      value (Handler.dispatchMessage env msg h) = Some tt
      <-> (1 <= length (irc.Params msg))%nat).
Proof.
  repeat split.
  - intros Hv. revert Hv. dispatch_to Handler.whoisServer.
    unfold Handler.whoisServer. run_body.
    destruct (irc.Params msg !! 2%nat) eqn:H2; [|done].
    intros _. apply lookup_lt_Some in H2. lia.
  - dispatch_to Handler.whoisServer. unfold Handler.whoisServer. run_body.
    intros Hlen. destruct (lookup_lt_is_Some_2 (irc.Params msg) 2) as [p ->]; [lia|].
    reflexivity.
  - intros Hv. revert Hv. dispatch_to (Handler.topic env).
    unfold Handler.topic. run_body. rewrite H. cbn.
    destruct (irc.Params msg) as [|p0 rest]; [done|]. cbn. lia.
  - dispatch_to (Handler.topic env). unfold Handler.topic. run_body.
    rewrite H. cbn. destruct (irc.Params msg) as [|p0 rest]; cbn; [lia|done].
  - revert H. unfold topicReplies. rewrite !elem_of_cons, elem_of_nil.
    intros [Hc|[Hc|[Hc|[]]]]; intros Hv; revert Hv;
      [dispatch_to (Handler.topic env); unfold Handler.topic
      |dispatch_to (Handler.noTopic env); unfold Handler.noTopic
      |dispatch_to (Handler.namesEnd env); unfold Handler.namesEnd];
      run_body; rewrite ?Hc; cbn;
      (destruct (irc.Params msg) as [|p0 [|p1 rest]]; [done|done|]); cbn; lia.
  - revert H. unfold topicReplies. rewrite !elem_of_cons, elem_of_nil.
    intros [Hc|[Hc|[Hc|[]]]];
      [dispatch_to (Handler.topic env); unfold Handler.topic
      |dispatch_to (Handler.noTopic env); unfold Handler.noTopic
      |dispatch_to (Handler.namesEnd env); unfold Handler.namesEnd];
      run_body; rewrite ?Hc; cbn;
      (destruct (irc.Params msg) as [|p0 [|p1 rest]]; cbn; [lia|lia|done]).
  - revert H. unfold messageCommandsList. rewrite !elem_of_cons, elem_of_nil.
    intros [Hc|[Hc|[]]]; intros Hv; revert Hv;
      dispatch_to (Handler.message env); unfold Handler.message; rewrite H0;
      unfold Handler.deliver; run_body;
      (destruct (irc.Params msg) as [|p0 rest]; [done|]); cbn; lia.
  - revert H. unfold messageCommandsList. rewrite !elem_of_cons, elem_of_nil.
    intros [Hc|[Hc|[]]];
      dispatch_to (Handler.message env); unfold Handler.message; rewrite H0;
      unfold Handler.deliver; run_body;
      (destruct (irc.Params msg) as [|p0 rest]; cbn; [lia|]); intros _;
      destruct (Is env p0); cbn;
      destruct (IsFromServer env msg); cbn; rewrite ?andb_false_r, ?andb_true_r;
      cbn; try reflexivity;
      match goal with |- context [negb ?b] => destruct b end; reflexivity.
Qed.

Lemma remaining_bounds_witness :
  value (Handler.dispatchMessage exampleEnv whoisServerMsg newIRCHandler) = Some tt
  /\ value (Handler.dispatchMessage exampleEnv namesEndMsg newIRCHandler) = Some tt
  /\ value (Handler.dispatchMessage exampleEnv privmsgToChannel newIRCHandler)
     = Some tt.
Proof.
  split; [|split].
  - apply (proj1 (remaining_bounds exampleEnv whoisServerMsg newIRCHandler) eq_refl).
    simpl. lia.
  - apply (proj1 (proj2 (proj2 (remaining_bounds exampleEnv namesEndMsg
                                  newIRCHandler)))).
    + unfold topicReplies. compute_done.
    + simpl. lia.
  - apply (proj2 (proj2 (proj2 (remaining_bounds exampleEnv privmsgToChannel
                                  newIRCHandler)))).
    + unfold messageCommandsList. compute_done.
    + reflexivity.
    + simpl. lia.
Defined.

(** ** File offers accepted automatically *)

(** X15.  With DCC and automatic download enabled, an offer is never
    shown to the client and never recorded: the goroutine opens the
    download file under the user's name, returns at once when that fails,
    and otherwise downloads and then closes the file.  It sends no event,
    does not sleep and leaves the session state as it was. *)
Theorem dcc_autoget env pack msg h :
  DCC_Enabled env = true -> DCC_Autoget_Enabled env = true ->
  let path := DownloadedFile env (Username env) (irc.File pack) in
  let r := Handler.runGoroutine env (ReceiveDCCSend pack msg) h in
  value r = Some tt /\ final r = h
  /\ trace r = (Do (OpenFile path)
                  :: if OpenFileFails env path then []
                     else [Do (DownloadDCC pack); Do (CloseFile path)])
  /\ (forall name p, Do (sendJSON name p) ∉ trace r)
  /\ (forall d, Do (Sleep d) ∉ trace r).
Proof.
  intros He Ha. cbv zeta. unfold Handler.runGoroutine, Handler.receiveDCCSend.
  rewrite He, Ha. run_body.
  destruct (OpenFileFails env _); cbn; repeat split; intros;
    rewrite ?elem_of_cons, ?elem_of_nil; intuition discriminate.
Qed.

Lemma dcc_autoget_witness :
  trace (Handler.runGoroutine autogetEnv (ReceiveDCCSend offer offerMsg) configured)
  = [Do (OpenFile "downloads/alice/notes.txt"); Do (DownloadDCC offer);
     Do (CloseFile "downloads/alice/notes.txt")].
Proof.
  exact (proj1 (proj2 (proj2 (dcc_autoget autogetEnv offer offerMsg configured
                                eq_refl eq_refl)))).
Defined.

(** X16.  Pending offers are keyed by file name only.  A second offer of
    the same file name replaces the first in the table, and the expiry of
    the first offer then removes the second: after it no offer for that
    file is pending, although the second offer's own 150 seconds have not
    passed. *)
Theorem dcc_same_file env pack1 pack2 msg1 msg2 h :
  irc.File pack1 = irc.File pack2 ->
  let offered :=
    final ((Handler.offerDCC env pack1 msg1 ;;; Handler.offerDCC env pack2 msg2) h) in
  pendingDCC offered !! irc.File pack2 = Some pack2
  /\ pendingDCC (final (Handler.expireDCC pack1 offered)) !! irc.File pack2 = None
  /\ (forall k, k <> irc.File pack2 ->
        pendingDCC (final (Handler.expireDCC pack1 offered)) !! k
        = pendingDCC h !! k).
Proof.
  intros Hf. cbv zeta.
  unfold Handler.offerDCC, Handler.expireDCC, setPendingDCC, deletePendingDCC.
  run_body. cbn -[fmt.Sprintf]. rewrite Hf. repeat split.
  - by rewrite lookup_insert_eq.
  - by rewrite lookup_delete_eq.
  - intros k Hk. by rewrite lookup_delete_ne, !lookup_insert_ne.
Qed.

Lemma dcc_same_file_witness :
  pendingDCC
    (final (Handler.expireDCC offer
              (final ((Handler.offerDCC exampleEnv offer offerMsg ;;;
                       Handler.offerDCC exampleEnv offerAgain offerMsg)
                        configured)))) !! "notes.txt"
  = None.
Proof.
  exact (proj1 (proj2 (dcc_same_file exampleEnv offer offerAgain offerMsg offerMsg
                         configured eq_refl))).
Defined.

(** ** A whole channel listing *)






(** ** A whole WHOIS reply *)

Lemma set_whois_twice a b h : set_whois a (set_whois b h) = set_whois a h.
Proof. by destruct h. Qed.

Lemma dispatch_whoisChannels env msg h :
  irc.Command msg = irc.RPL_WHOISCHANNELS ->
  Handler.dispatchMessage env msg h
  = mkResult (Some tt)
      (set_whois
         (WhoisReply.mk (WhoisReply.Nick (whois h)) (WhoisReply.Username (whois h))
            (WhoisReply.Host (whois h)) (WhoisReply.Realname (whois h))
            (WhoisReply.Server (whois h))
            (WhoisReply.Channels (whois h) ++ whoisChannelsOf msg)) h)
      [].
Proof. intros Hc. dispatch_to Handler.whoisChannels. reflexivity. Qed.

Lemma run_whoisChannels env l endMsg chans : forall h,
  Forall (fun m => irc.Command m = irc.RPL_WHOISCHANNELS) chans ->
  irc.Command endMsg = irc.RPL_ENDOFWHOIS ->
  Handler.run l (received (map (pair env) (chans ++ [endMsg]))) h
  = mkResult (Some l) (set_whois WhoisReply.zero h)
      (if String.eqb (whoisNick h) "" then []
       else [Do (sendJSON "whois"
                   (PWhois
                      (WhoisReply.mk (WhoisReply.Nick (whois h))
                         (WhoisReply.Username (whois h))
                         (WhoisReply.Host (whois h))
                         (WhoisReply.Realname (whois h))
                         (WhoisReply.Server (whois h))
                         (WhoisReply.Channels (whois h)
                            ++ concat (map whoisChannelsOf chans)))))]).
Proof.
  induction chans as [|m ms IH]; intros h Hall He.
  - cbn [app map received fst snd Handler.run concat]. unfold bind.
    rewrite (dispatch_whoisEnd _ _ _ He), whoisEnd_eq. cbn.
    rewrite app_nil_r. unfold whoisNick.
    destruct h as [[nick ? ? ? ? ?] ? ? ? ? ? ?]. cbn.
    rewrite ?app_nil_r. by destruct (String.eqb nick "").
  - apply Forall_cons in Hall as [Hc Hall].
    cbn [app map received fst snd Handler.run concat]. unfold bind at 1.
    rewrite (dispatch_whoisChannels _ _ _ Hc).
    fold (received (map (pair env) (ms ++ [endMsg]))).
    rewrite IH by done. rewrite set_whois_twice. unfold whoisNick.
    destruct h as [[nick ? ? ? ? ?] ? ? ? ? ? ?]. cbn.
    rewrite <- app_assoc. by destruct (String.eqb nick "").
Qed.

(** X18.  A whole WHOIS reply: the user reply, the server reply, any
    number of channel replies and the end marker emit exactly one "whois"
    event, which carries the four fields of the user reply, the server of
    the server reply and the channels of every channel reply in order of
    arrival, after the channels the accumulator already held; the
    accumulator is empty afterwards.  A user reply does not clear channels
    collected before it. *)
Theorem whois_sequence env l user server chans endMsg h nick uname hst real srv :
  irc.Command user = irc.RPL_WHOISUSER ->
  irc.Params user !! 1%nat = Some nick -> irc.Params user !! 2%nat = Some uname ->
  irc.Params user !! 3%nat = Some hst -> irc.Params user !! 5%nat = Some real ->
  irc.Command server = irc.RPL_WHOISSERVER ->
  irc.Params server !! 2%nat = Some srv ->
  Forall (fun m => irc.Command m = irc.RPL_WHOISCHANNELS) chans ->
  irc.Command endMsg = irc.RPL_ENDOFWHOIS ->
  nick <> "" ->
  Handler.run l
    (received (map (pair env) (user :: server :: chans ++ [endMsg]))) h
  = mkResult (Some l) (set_whois WhoisReply.zero h)
      [Do (sendJSON "whois"
             (PWhois
                (WhoisReply.mk nick uname hst real srv
                   (WhoisReply.Channels (whois h)
                      ++ concat (map whoisChannelsOf chans)))))].
Proof.
  intros Hu H1 H2 H3 H5 Hs Hs2 Hall He Hn.
  cbn [app map received fst snd Handler.run]. unfold bind at 1.
  rewrite (dispatch_whoisUser _ _ _ Hu), (whoisUser_eq _ _ _ _ _ _ H1 H2 H3 H5).
  unfold bind at 1.
  assert (Hd : forall h', Handler.dispatchMessage env server h'
                          = Handler.whoisServer server h').
  { intros h'. rename Hs into Hc. by dispatch_to Handler.whoisServer. }
  rewrite Hd. unfold Handler.whoisServer. run_body. rewrite Hs2.
  fold (received (map (pair env) (chans ++ [endMsg]))).
  rewrite run_whoisChannels by done. rewrite !set_whois_twice.
  unfold whoisNick. destruct h. cbn.
  by destruct (String.eqb_spec nick "").
Qed.

Lemma whois_sequence_witness :
  trace (Handler.run None
           (received (map (pair exampleEnv)
                        (whoisUserMsg :: whoisServerMsg
                           :: [whoisChannelsMsg "#rocq @#ocaml "; whoisChannelsMsg "+#go"]
                           ++ [whoisEndMsg])))
           newIRCHandler)
  = [Do (sendJSON "whois"
           (PWhois (WhoisReply.mk "bob" "~bob" "host.example.net" "Bob B."
                      "irc.example.org" ["#rocq"; "@#ocaml"; "+#go"])))].
Proof.
  refine (f_equal trace
            (whois_sequence exampleEnv None whoisUserMsg whoisServerMsg
               [whoisChannelsMsg "#rocq @#ocaml "; whoisChannelsMsg "+#go"]
               whoisEndMsg newIRCHandler "bob" "~bob" "host.example.net" "Bob B."
               "irc.example.org" eq_refl eq_refl eq_refl eq_refl eq_refl eq_refl
               eq_refl _ eq_refl _)).
  - repeat constructor.
  - discriminate.
Defined.

(** ** The success line *)

(** X19.  Every connection state change first sends the update to the
    client and records the state, and never touches the session state.
    The line "Connected" is logged exactly when the state reports
    connected and no error line is logged for it: the state carries no
    error, or it carries the error already recorded.  A new error takes
    the place of the success line even when the state reports connected. *)
Theorem connected_line env l state h :
  let r := Handler.connectionChanged env l state h in
  final r = h
  /\ (exists rest, trace r = (connectionEvents env state ++ rest)%list)
  /\ (connectedLine env ∈ trace r
      <-> irc.Connected state = true
          /\ (irc.Error state = None \/ irc.Error state = l)).
Proof.
  cbv zeta. rewrite connectionChanged_eq.
  destruct (irc.Error state) as [e|] eqn:He.
  - destruct (bool_decide (l = Some e)) eqn:Hl.
    + apply bool_decide_eq_true in Hl. subst l. cbn [final trace].
      split; [done|]. split; [by eexists|].
      destruct (irc.Connected state); cbn.
      * rewrite !elem_of_cons. intuition.
      * rewrite !elem_of_cons, elem_of_nil. unfold connectedLine.
        intuition discriminate.
    + apply bool_decide_eq_false in Hl. cbn [final trace].
      split; [done|]. split; [by eexists|].
      cbn. rewrite !elem_of_cons, elem_of_nil. unfold connectedLine, errorLine.
      split.
      * intros [H|[H|[H|[]]]]; discriminate.
      * intros [_ [H|H]]; [discriminate|]. by subst l.
  - cbn [final trace]. split; [done|]. split; [by eexists|].
    destruct (irc.Connected state); cbn.
    + rewrite !elem_of_cons. intuition.
    + rewrite !elem_of_cons, elem_of_nil. unfold connectedLine.
      intuition discriminate.
Qed.

(** ** Strings *)
Lemma append_cons c p e : String c p +:+ e = String c (p +:+ e).
Proof. reflexivity. Qed.

Lemma length_append a b :
  String.length (a +:+ b) = (String.length a + String.length b)%nat.
Proof.
  induction a as [|c a IH]; [done|]. rewrite append_cons. cbn. by rewrite IH.
Qed.

Lemma append_assoc a b c : (a +:+ b) +:+ c = a +:+ (b +:+ c).
Proof.
  induction a as [|x a IH]; [done|]. rewrite !append_cons. by rewrite IH.
Qed.

Lemma substring_drop p s n :
  String.substring (String.length p) n (p +:+ s) = String.substring 0 n s.
Proof. induction p as [|c p IH]; [done|]. rewrite append_cons. cbn. exact IH. Qed.

Lemma substring_take s e :
  String.substring 0 (String.length s) (s +:+ e) = s.
Proof.
  induction s as [|c s IH]; [by destruct e|]. rewrite append_cons. cbn.
  by rewrite IH.
Qed.

Lemma substring_split s : forall n, (n <= String.length s)%nat ->
  s = String.substring 0 n s
      +:+ String.substring n (String.length s - n) s.
Proof.
  induction s as [|c s IH]; intros [|n] Hn; cbn in *; try lia.
  - done.
  - by rewrite substring_all.
  - rewrite append_cons. f_equal. apply IH. lia.
Qed.

Lemma HasSuffix_spec s suffix :
  strings.HasSuffix s suffix = true <-> exists pre, s = pre +:+ suffix.
Proof.
  unfold strings.HasSuffix. rewrite andb_true_iff, Nat.leb_le, String.eqb_eq.
  split.
  - intros [Hlen Hsub].
    exists (String.substring 0 (String.length s - String.length suffix) s).
    pose proof (substring_split s (String.length s - String.length suffix)) as Hs.
    replace (String.length s - (String.length s - String.length suffix))%nat
      with (String.length suffix) in Hs by lia.
    rewrite Hsub in Hs. apply Hs. lia.
  - intros [pre ->]. rewrite length_append. split; [lia|].
    replace (String.length pre + String.length suffix - String.length suffix)%nat
      with (String.length pre) by lia.
    by rewrite substring_drop, substring_all.
Qed.

Lemma TrimSuffix_append body suffix :
  strings.TrimSuffix (body +:+ suffix) suffix = body.
Proof.
  unfold strings.TrimSuffix.
  assert (H : strings.HasSuffix (body +:+ suffix) suffix = true).
  { apply HasSuffix_spec. by exists body. }
  rewrite H, length_append.
  replace (String.length body + String.length suffix - String.length suffix)%nat
    with (String.length body) by lia.
  apply substring_take.
Qed.

(** ** Formatting an error reply *)

(** X20.  [formatIRCError] never reads a missing parameter: it returns a
    text for every message.  When the last parameter ends in a full stop,
    that one full stop is dropped; with more than two parameters the
    second one is put in front, followed by a space when the text starts
    with a lower-case letter and by a colon and a space otherwise; with
    two parameters or fewer the text stands alone. *)
Theorem formatIRCError_result lower msg body :
  is_Some (formatIRCError lower msg)
  /\ (irc.LastParam msg = body ++ "." ->
      ((length (irc.Params msg) <= 2)%nat -> formatIRCError lower msg = Some body)
      /\ ((2 < length (irc.Params msg))%nat ->
          exists p1, irc.Params msg !! 1%nat = Some p1
                     /\ formatIRCError lower msg
                        = Some (p1 ++ (if lower (body ++ ".") then " " else ": ")
                                   ++ body))).
Proof.
  split.
  - unfold formatIRCError.
    destruct (Nat.ltb_spec 2 (length (irc.Params msg))) as [Hlen|Hlen];
      [|by eexists].
    destruct (lookup_lt_is_Some_2 (irc.Params msg) 1) as [p1 H1]; [lia|].
    rewrite H1. cbn.
    destruct (irc.LastParam msg); [by eexists|].
    destruct (lower _); by eexists.
  - intros Hl. unfold formatIRCError. rewrite Hl, TrimSuffix_append.
    destruct (Nat.ltb_spec 2 (length (irc.Params msg))) as [Hlen|Hlen].
    + destruct (lookup_lt_is_Some_2 (irc.Params msg) 1) as [p1 H1]; [lia|].
      rewrite H1. cbn.
      assert (Hne : exists c r, body +:+ "." = String c r).
      { destruct body; cbn; eauto. }
      destruct Hne as (c & r & Hcr). rewrite Hcr. rewrite <- Hcr.
      destruct (lower (body +:+ ".")); (split; [lia|]); intros _; by exists p1.
    + split; [done|lia].
Qed.

Lemma formatIRCError_result_witness :
  formatIRCError (fun _ => false) noSuchChannel
  = Some "#nowhere: No such channel".
Proof.
  destruct (proj2 (proj2 (formatIRCError_result (fun _ => false) noSuchChannel
                            "No such channel") eq_refl))
    as (p1 & H1 & Hr).
  - simpl. lia.
  - injection H1 as <-. exact Hr.
Defined.

(** ** Serving files *)

(** X21.  An answer of [serveFile] is one of two.  A success writes no
    status and exactly one body, announced by a Content-Length header
    with the decimal length of that very body, under the file's content
    type.  An error is the answer of [http.Error]: status 500, the body a
    single newline, no Content-Length and no Content-Encoding, and the
    content type of the file replaced by text/plain; it is given only
    when the asset is missing or the gzip copy cannot be read.  A
    Content-Encoding header appears only for a compressed file, and it is
    "br" only when the request's Accept-Encoding contains "br" and "gzip"
    only when it contains "gzip" and not "br".  A missing asset is
    answered by the error alone; the error after a failed read still
    carries the file's Cache-Control. *)
Theorem serveFile_response asset gunzip r file ops :
  FileServer.serveFile asset gunzip r file = Some ops ->
  (statusesOf ops = []
   /\ (exists body,
         bodiesOf ops = [body]
         /\ headerOf "Content-Length" ops
            = Some (strconv.Itoa (FileServer.len body)))
   /\ headerOf "Content-Type" ops = Some (FileServer.ContentType file)
   /\ asset (FileServer.Asset file) <> None
   \/ statusesOf ops = [500%Z]
      /\ bodiesOf ops = [FileServer.newline]
      /\ headerOf "Content-Length" ops = None
      /\ headerOf "Content-Encoding" ops = None
      /\ headerOf "Content-Type" ops = Some "text/plain; charset=utf-8"
      /\ (asset (FileServer.Asset file) = None
          \/ gunzip (FileServer.GzipAsset file) = FileServer.ReadError))
  /\ (forall v,
        headerOf "Content-Encoding" ops = Some v ->
        FileServer.Compressed file = true
        /\ (v = "br" /\ strings.Contains (FileServer.acceptEncoding r) "br" = true
            \/ v = "gzip"
               /\ strings.Contains (FileServer.acceptEncoding r) "br" = false
               /\ strings.Contains (FileServer.acceptEncoding r) "gzip" = true))
  /\ (asset (FileServer.Asset file) = None -> ops = FileServer.http_Error "" 500)
  /\ (asset (FileServer.Asset file) <> None ->
      statusesOf ops = [500%Z] ->
      headerOf "Cache-Control" ops
      = if String.eqb (FileServer.CacheControl file) "" then None
        else Some (FileServer.CacheControl file)).
Proof.
  unfold FileServer.serveFile.
  destruct (asset (FileServer.Asset file)) as [data|].
  2: { intros Hops. apply (inj Some) in Hops. subst ops.
       split; [right; repeat split; auto|].
       split; [intros v Hv; discriminate Hv|]. split; [done|]. by intros []. }
  cbv zeta.
  destruct (String.eqb (FileServer.CacheControl file) "");
    destruct (FileServer.Compressed file) eqn:Hcomp;
    destruct (strings.Contains (FileServer.acceptEncoding r) "br") eqn:Hbr;
    destruct (strings.Contains (FileServer.acceptEncoding r) "gzip") eqn:Hgz;
    cbn [andb negb];
    try destruct (gunzip (FileServer.GzipAsset file)) eqn:Hgun;
    intros Hops; try discriminate Hops; apply (inj Some) in Hops; subst ops;
    cbn -[strconv.Itoa FileServer.len];
    (split;
     [ first [ left; split; [reflexivity|]; split; [by eexists|]; by split
             | right; repeat split; auto ]
     | split;
       [ intros v Hv; first [ discriminate Hv | injection Hv as <-; auto 10 ]
       | split; [done|]; intros _ Hs; first [ discriminate Hs | reflexivity ] ] ]).
Qed.

Lemma serveFile_response_witness :
  let ops :=
    [FileServer.SetHeader "Cache-Control" FileServer.longCacheControl;
     FileServer.SetHeader "Content-Type" "text/javascript";
     FileServer.SetHeader "Content-Encoding" "br";
     FileServer.SetHeader "Content-Length" "6";
     FileServer.WriteBody "brotli"] in
  FileServer.serveFile exampleAssets exampleGunzip getRuntime runtimeFile = Some ops
  /\ headerOf "Content-Length" ops = Some "6"
  /\ FileServer.serveFile noAssets exampleGunzip getRuntime runtimeFile
     = Some (FileServer.http_Error "" 500)
  /\ headerOf "Content-Length" (FileServer.http_Error "" 500) = None
  /\ bodiesOf (FileServer.http_Error "" 500) = [FileServer.newline].
Proof.
  intros ops. split; [reflexivity|]. split.
  - destruct (proj1 (serveFile_response exampleAssets exampleGunzip getRuntime
                       runtimeFile ops eq_refl))
      as [(_ & (body & Hb & Hl) & _)|(Hs & _)]; [|discriminate Hs].
    injection Hb as <-. exact Hl.
  - split; [reflexivity|].
    destruct (proj1 (serveFile_response noAssets exampleGunzip getRuntime
                       runtimeFile (FileServer.http_Error "" 500) eq_refl))
      as [(Hs & _)|(_ & Hb & Hl & _)]; [discriminate Hs|].
    split; [exact Hl | exact Hb].
Defined.

Lemma serveFirst_skip g asset gunzip canPush r before rest :
  Forall (fun f => ~ endsWith (FileServer.r_Path r) (FileServer.Path f)) before ->
  FileServer.serveFirst g asset gunzip canPush r (before ++ rest)
  = FileServer.serveFirst g asset gunzip canPush r rest.
Proof.
  induction 1 as [|f before Hf _ IH]; [done|]. cbn.
  destruct (strings.HasSuffix (FileServer.r_Path r) (FileServer.Path f)) eqn:Hs;
    [|exact IH].
  apply HasSuffix_spec in Hs. by destruct Hf.
Qed.

(** X22.  Routing of a request that is neither for the root nor for the
    service worker: it is answered with the first registered file whose
    path ends the request path, whatever comes before it in the request
    path, and with the index page when no registered path ends it. *)
Theorem serveFiles_routing g asset gunzip canPush r :
  FileServer.r_Path r <> "/" -> FileServer.r_Path r <> "/sw.js" ->
  (forall before file after,
     FileServer.files g = (before ++ file :: after)%list ->
     Forall (fun f => ~ endsWith (FileServer.r_Path r) (FileServer.Path f)) before ->
     endsWith (FileServer.r_Path r) (FileServer.Path file) ->
     FileServer.serveFiles g asset gunzip canPush r
     = FileServer.serveFile asset gunzip r file)
  /\ (Forall (fun f => ~ endsWith (FileServer.r_Path r) (FileServer.Path f))
        (FileServer.files g) ->
      FileServer.serveFiles g asset gunzip canPush r
      = Some (FileServer.serveIndex g canPush r)).
Proof.
  intros Hroot Hsw. unfold FileServer.serveFiles.
  destruct (String.eqb_spec (FileServer.r_Path r) "/") as [|_]; [done|].
  destruct (String.eqb_spec (FileServer.r_Path r) "/sw.js") as [|_]; [done|].
  split.
  - intros before file after -> Hbefore Hfile.
    rewrite serveFirst_skip by done. cbn.
    apply HasSuffix_spec in Hfile. by rewrite Hfile.
  - intros Hall. rewrite <- (app_nil_r (FileServer.files g)).
    by rewrite serveFirst_skip.
Qed.

Lemma serveFiles_routing_witness :
  FileServer.serveFiles exampleGlobals exampleAssets exampleGunzip true getRuntime
  = FileServer.serveFile exampleAssets exampleGunzip getRuntime
      (FileServer.mkFile "runtime.deadbeef.js" "runtime.deadbeef.js.br" "" ""
         "text/javascript" FileServer.longCacheControl true).
Proof.
  refine (proj1 (serveFiles_routing exampleGlobals exampleAssets exampleGunzip true
                   getRuntime _ _)
            [FileServer.mkFile "main.0a1b2c3d.css" "main.0a1b2c3d.css.br" "" ""
               "text/css" FileServer.longCacheControl true]
            _ [_] eq_refl _ _).
  - discriminate.
  - discriminate.
  - constructor; [|constructor]. intros Hs. apply HasSuffix_spec in Hs.
    discriminate Hs.
  - by exists "/".
Defined.

(** ** HTTP/2 push *)

Lemma pushCookieValue_app assets : forall value,
  FileServer.pushCookieValue assets value
  = value +:+ FileServer.pushCookieValue assets "".
Proof.
  induction assets as [|a assets IH]; intros value; cbn.
  - by rewrite append_empty_r.
  - change ("" +:+ FileServer.hash a) with (FileServer.hash a).
    rewrite IH, (IH (FileServer.hash a)). by rewrite append_assoc.
Qed.

Lemma pushChanged_short accept cookie assets : forall i,
  (String.length cookie < (i + 1) * 8)%nat ->
  FileServer.pushChanged i assets cookie accept = [].
Proof.
  induction assets as [|a assets IH]; intros i Hlen; [done|]. cbn.
  destruct (Nat.leb_spec ((i + 1) * 8) (String.length cookie)); [lia|].
  cbn. apply IH. lia.
Qed.

Lemma pushChanged_old accept assets : forall i pre old,
  String.length pre = (i * 8)%nat ->
  Forall (fun o => String.length (FileServer.hash o) = 8%nat) old ->
  FileServer.pushChanged i assets (pre +:+ FileServer.pushCookieValue old "") accept
  = map (fun a => FileServer.Push (FileServer.path a) accept)
        (changedAssets assets old).
Proof.
  induction assets as [|a assets IH]; intros i pre old Hpre Hold; [done|].
  destruct old as [|o old].
  - cbn [changedAssets map]. apply pushChanged_short.
    cbn. rewrite append_empty_r. lia.
  - apply Forall_cons in Hold as [Ho Hold].
    cbn [FileServer.pushChanged changedAssets FileServer.pushCookieValue].
    change ("" +:+ FileServer.hash o) with (FileServer.hash o).
    rewrite (pushCookieValue_app old (FileServer.hash o)).
    assert (Hsub : String.substring (i * 8) 8
                     (pre +:+ (FileServer.hash o
                               +:+ FileServer.pushCookieValue old ""))
                   = FileServer.hash o).
    { rewrite <- Hpre, substring_drop, <- Ho. apply substring_take. }
    rewrite Hsub.
    assert (Hlen : ((i + 1) * 8 <=? String.length
                      (pre +:+ (FileServer.hash o
                                +:+ FileServer.pushCookieValue old "")))%nat = true).
    { apply Nat.leb_le. rewrite !length_append. lia. }
    rewrite Hlen. cbn [andb]. rewrite map_app. f_equal.
    + by destruct (String.eqb (FileServer.hash a) (FileServer.hash o)).
    + rewrite <- append_assoc. apply IH; [|done].
      rewrite length_append. lia.
Qed.

Lemma changedAssets_same assets : changedAssets assets assets = [].
Proof.
  induction assets as [|a assets IH]; [done|]. cbn.
  by rewrite String.eqb_refl.
Qed.

Lemma pushesOf_map accept assets :
  pushesOf (map (fun a => FileServer.Push (FileServer.path a) accept) assets)
  = map FileServer.path assets.
Proof.
  unfold pushesOf. induction assets as [|a assets IH]; [done|]. cbn.
  by rewrite IH.
Qed.

Lemma cookiesOf_map accept assets :
  cookiesOf (map (fun a => FileServer.Push (FileServer.path a) accept) assets) = [].
Proof. induction assets as [|a assets IH]; [done|]. exact IH. Qed.

Ltac index_parts g r :=
  unfold FileServer.serveIndex, pushesOf, cookiesOf;
  rewrite !flat_map_app;
  destruct (FileServer.cspEnabled g),
    (negb (String.eqb (FileServer.hstsHeader g) "")),
    (FileServer.r_sw r),
    (strings.Contains (FileServer.acceptEncoding r) "gzip");
  cbn [flat_map app negb];
  rewrite ?app_nil_r;
  fold pushesOf; fold cookiesOf.

(** X23.  What the index page pushes.  A request without a push cookie
    gets every push asset, in order, and the cookie.  A request whose
    cookie was built from an earlier list of assets with eight-byte
    hashes gets exactly the assets whose hash differs from the one at the
    same position of that list, and a new cookie exactly when something
    was pushed; so a cookie built from the current assets pushes nothing
    and sets nothing.  A cookie shorter than eight bytes pushes nothing
    and is never replaced.  A writer that cannot push gets neither pushes
    nor a cookie. *)
Theorem push_plan g r :
  let ops := FileServer.serveIndex g true r in
  (FileServer.r_pushCookie r = None ->
   pushesOf ops = map FileServer.path (FileServer.h2PushAssets g)
   /\ cookiesOf ops = [FileServer.setPushCookie g r])
  /\ (forall old,
        FileServer.r_pushCookie r = Some (FileServer.pushCookieValue old "") ->
        Forall (fun o => String.length (FileServer.hash o) = 8%nat) old ->
        pushesOf ops
        = map FileServer.path (changedAssets (FileServer.h2PushAssets g) old)
        /\ cookiesOf ops
           = (match changedAssets (FileServer.h2PushAssets g) old with
              | [] => []
              | _ :: _ => [FileServer.setPushCookie g r]
              end)
        /\ (old = FileServer.h2PushAssets g ->
            pushesOf ops = [] /\ cookiesOf ops = []))
  /\ (forall cookie,
        FileServer.r_pushCookie r = Some cookie ->
        (String.length cookie < 8)%nat ->
        pushesOf ops = [] /\ cookiesOf ops = [])
  /\ (pushesOf (FileServer.serveIndex g false r) = []
      /\ cookiesOf (FileServer.serveIndex g false r) = []).
Proof.
  cbv zeta. split; [|split; [|split]].
  - intros Hc. split; index_parts g r; rewrite Hc.
    all: unfold pushesOf, cookiesOf; rewrite flat_map_app;
      fold pushesOf; fold cookiesOf;
      rewrite ?pushesOf_map, ?cookiesOf_map; cbn; by rewrite ?app_nil_r.
  - intros old Hc Hold.
    assert (Hp : FileServer.pushChanged 0 (FileServer.h2PushAssets g)
                   (FileServer.pushCookieValue old "") (FileServer.r_AcceptEncoding r)
                 = map (fun a => FileServer.Push (FileServer.path a)
                                   (FileServer.r_AcceptEncoding r))
                       (changedAssets (FileServer.h2PushAssets g) old)).
    { apply (pushChanged_old _ _ 0 "" old); done. }
    assert (H1 : pushesOf (FileServer.serveIndex g true r)
                 = map FileServer.path (changedAssets (FileServer.h2PushAssets g) old)).
    { index_parts g r; rewrite Hc; cbv zeta; rewrite Hp.
      all: unfold pushesOf; rewrite flat_map_app; fold pushesOf;
        rewrite pushesOf_map;
        destruct (changedAssets (FileServer.h2PushAssets g) old); cbn;
        by rewrite ?app_nil_r. }
    assert (H2 : cookiesOf (FileServer.serveIndex g true r)
                 = match changedAssets (FileServer.h2PushAssets g) old with
                   | [] => []
                   | _ :: _ => [FileServer.setPushCookie g r]
                   end).
    { index_parts g r; rewrite Hc; cbv zeta; rewrite Hp.
      all: unfold cookiesOf; rewrite flat_map_app; fold cookiesOf;
        rewrite cookiesOf_map;
        destruct (changedAssets (FileServer.h2PushAssets g) old); cbn;
        by rewrite ?app_nil_r. }
    split; [exact H1|]. split; [exact H2|].
    intros ->. rewrite H1, H2. by rewrite changedAssets_same.
  - intros cookie Hc Hlen.
    split; index_parts g r; rewrite Hc; cbv zeta;
      rewrite pushChanged_short by lia; reflexivity.
  - split; index_parts g r; reflexivity.
Qed.

Lemma push_plan_witness :
  pushesOf (FileServer.serveIndex exampleGlobals true returning)
  = ["/main.55667788.js"]
  /\ cookiesOf (FileServer.serveIndex exampleGlobals true returning)
     = [FileServer.SetCookie "push" "0a1b2c3d1122334455667788" "/" true true].
Proof.
  destruct (proj1 (proj2 (push_plan exampleGlobals returning))
              [stylesheet; vendors; oldMainScript] eq_refl) as (H1 & H2 & _).
  - repeat constructor.
  - split; [exact H1 | exact H2].
Defined.

(** ** The files of the manifest *)








(** ** Push assets *)

Lemma string_of_list_ascii_snoc l c s :
  string_of_list_ascii (l ++ [c]) +:+ s = string_of_list_ascii l +:+ String c s.
Proof. induction l as [|x l IH]; [done|]. cbn. rewrite !append_cons. by rewrite IH. Qed.

Lemma prefix_dot c s :
  String.prefix "." (String c s) = bool_decide (c = "."%char).
Proof.
  change (String.prefix "." (String c s))
    with (if ascii_dec "." c then String.prefix "" s else false).
  destruct (ascii_dec "." c) as [<-|Hne].
  - by destruct s.
  - rewrite bool_decide_eq_false_2; [done|congruence].
Qed.

Lemma split_dotless s : forall cur,
  dotless s ->
  strings.split_from 0 cur s "." = [string_of_list_ascii (rev cur) +:+ s].
Proof.
  unfold dotless. induction s as [|c s IH]; intros cur Hs.
  - cbn. by rewrite append_empty_r.
  - cbn [list_ascii_of_string] in Hs. apply not_elem_of_cons in Hs as [Hc Hs].
    cbn [strings.split_from]. rewrite prefix_dot, bool_decide_eq_false_2 by done.
    rewrite IH by done. cbn [rev]. by rewrite string_of_list_ascii_snoc.
Qed.

Lemma split_at_dot a rest : forall cur,
  dotless a ->
  strings.split_from 0 cur (a +:+ String "." rest) "."
  = (string_of_list_ascii (rev cur) +:+ a) :: strings.split_from 0 [] rest ".".
Proof.
  unfold dotless. induction a as [|c a IH]; intros cur Ha.
  - change ("" +:+ String "." rest) with (String "." rest).
    cbn [strings.split_from]. rewrite prefix_dot, bool_decide_eq_true_2 by done.
    by rewrite append_empty_r.
  - cbn [list_ascii_of_string] in Ha. apply not_elem_of_cons in Ha as [Hc Ha].
    rewrite append_cons. cbn [strings.split_from].
    rewrite prefix_dot, bool_decide_eq_false_2 by done.
    rewrite IH by done. cbn [rev]. by rewrite string_of_list_ascii_snoc.
Qed.

(** X25.  [newH2PushAsset] fails on every name without a dot, the empty
    name of a missing manifest key included.  For a name with a dot the
    pushed path is the name after a slash and the hash is the text
    between the first dot and the second, or the end of the name. *)
Theorem newH2PushAsset_hash :
  (forall name, dotless name -> FileServer.newH2PushAsset name = None)
  /\ (forall base h,
        dotless base -> dotless h ->
        FileServer.newH2PushAsset (base ++ "." ++ h)
        = Some (FileServer.mkPushAsset ("/" ++ base ++ "." ++ h) h))
  /\ (forall base h rest,
        dotless base -> dotless h ->
        FileServer.newH2PushAsset (base ++ "." ++ h ++ "." ++ rest)
        = Some (FileServer.mkPushAsset ("/" ++ base ++ "." ++ h ++ "." ++ rest) h)).
Proof.
  unfold FileServer.newH2PushAsset, strings.Split. split; [|split].
  - intros name Hn. by rewrite split_dotless.
  - intros base h Hb Hh. change ("." +:+ h) with (String "." h).
    rewrite split_at_dot by done. by rewrite split_dotless.
  - intros base h rest Hb Hh.
    change ("." +:+ (h +:+ ("." +:+ rest))) with (String "." (h +:+ String "." rest)).
    rewrite split_at_dot by done. by rewrite split_at_dot.
Qed.

Lemma newH2PushAsset_hash_witness :
  FileServer.newH2PushAsset "" = None
  /\ FileServer.newH2PushAsset "bundle.js"
     = Some (FileServer.mkPushAsset "/bundle.js" "js")
  /\ FileServer.newH2PushAsset "main.0a1b2c3d.css" = Some stylesheet.
Proof.
  split; [|split].
  - apply (proj1 newH2PushAsset_hash ""). unfold dotless. simpl.
    apply not_elem_of_nil.
  - apply (proj1 (proj2 newH2PushAsset_hash) "bundle" "js");
      unfold dotless; simpl; rewrite !not_elem_of_cons;
      repeat split; try discriminate; apply not_elem_of_nil.
  - apply (proj2 (proj2 newH2PushAsset_hash) "main" "0a1b2c3d" "css");
      unfold dotless; simpl; rewrite !not_elem_of_cons;
      repeat split; try discriminate; apply not_elem_of_nil.
Defined.
